(** * pglite-encrypted-fs: page codec, file layout and filesystem facade

    A shallow embedding of [src/crypto.ts] and [src/encrypted-fs.ts].

    - JavaScript numbers that the code uses as integers (page numbers,
      positions, lengths, sizes, descriptors, open flags) are [Z], so
      fractions, NaN and infinities are not inputs here;
      [Math.floor (a / b)] is [Z.div] (the divisors are positive
      constants), [%] is [Z.rem], [&] is [Z.land] (open flags are small and
      non-negative).
    - A [Buffer] / [Uint8Array] is a [list byte].
    - A thrown [Error] is a value of [JsError]; a function that may throw
      returns [JsError + A].
    - Node's [crypto] and [fs] modules are not part of the repository.
      AES-256-GCM and the random generator are parameters of a section;
      the [fs] calls the code makes are modelled by [HostFs] below.
    - [console.log] output under the [debug] option has no effect on any
      value and is left out. *)

From Stdlib Require Import ZArith Lia Strings.Byte Strings.Ascii DecimalString.
From stdpp Require Import base option list gmap strings.

Local Set Warnings "-register-all".
Local Open Scope Z_scope.

(** ** Buffers *)

Abbreviation bytes := (list byte).

#[global] Instance byte_eq_decision : EqDecision byte := Byte.byte_eq_dec.

Definition blen (b : bytes) : Z := Z.of_nat (length b).

(** [Buffer.alloc(n)] and [Buffer.alloc(n, v)]. *)
Definition Buffer_alloc (n : Z) : bytes := replicate (Z.to_nat n) x00.
Definition Buffer_fill (n : Z) (v : byte) : bytes := replicate (Z.to_nat n) v.

(** [buf.subarray(s, e)] for [0 <= s]; the end is clamped to the length. *)
Definition subarray (b : bytes) (s e : Z) : bytes :=
  take (Z.to_nat (e - s)) (drop (Z.to_nat s) b).

(** [buf.subarray(s)]. *)
Definition subarray_from (b : bytes) (s : Z) : bytes := drop (Z.to_nat s) b.

Definition byte_of_Z (z : Z) : byte :=
  match Byte.of_N (Z.to_N (z mod 256)) with
  | Some b => b
  | None => x00
  end.

(** [buf.writeUInt32BE(n)] on a fresh 4-byte buffer, for [0 <= n < 2^32]. *)
Definition writeUInt32BE (n : Z) : bytes :=
  [byte_of_Z (Z.shiftr n 24); byte_of_Z (Z.shiftr n 16);
   byte_of_Z (Z.shiftr n 8); byte_of_Z n].

(** Template-literal rendering of an integer, [`${n}`]. *)
Definition show_Z (n : Z) : string := NilZero.string_of_int (Z.to_int n).

(** ** Errors *)

Inductive JsError :=
  MkErr (message : string) (code : option string) (errno : option Z)
        (cause : option JsError).

Definition message (e : JsError) : string :=
  match e with MkErr m _ _ _ => m end.
Definition code (e : JsError) : option string :=
  match e with MkErr _ c _ _ => c end.
Definition errno (e : JsError) : option Z :=
  match e with MkErr _ _ n _ => n end.
Definition cause (e : JsError) : option JsError :=
  match e with MkErr _ _ _ c => c end.

(** [new Error(msg)] *)
Definition new_Error (msg : string) : JsError := MkErr msg None None None.

(** [Object.assign(new Error(msg), { cause: e })] *)
Definition new_Error_cause (msg : string) (e : JsError) : JsError :=
  MkErr msg None None (Some e).

(** [ERR_OUT_OF_RANGE], thrown by Node's buffer and fs argument checks.
    Only its code is modelled. *)
Definition RangeError : JsError :=
  MkErr "ERR_OUT_OF_RANGE" (Some "ERR_OUT_OF_RANGE"%string) None None.

(** [source.copy(target, targetStart, sourceStart, sourceEnd)] as Node
    implements it: the three positions must be non-negative and
    [sourceStart] at most the source length, otherwise it throws; nothing is
    copied when [targetStart] is past the target or the source range is
    empty; otherwise the range is clamped to what the target and the source
    hold.  Returns the target after the copy. *)
Definition Buffer_copy (source target : bytes)
    (targetStart sourceStart sourceEnd : Z) : JsError + bytes :=
  if bool_decide (targetStart < 0) then inl RangeError
  else if bool_decide (sourceStart < 0 ∨ blen source < sourceStart) then inl RangeError
  else if bool_decide (sourceEnd < 0) then inl RangeError
  else if bool_decide (blen target <= targetStart ∨ sourceEnd <= sourceStart)
  then inr target
  else
    let sourceEnd' :=
      if bool_decide (blen target - targetStart < sourceEnd - sourceStart)
      then sourceStart + (blen target - targetStart) else sourceEnd in
    let nb := Z.min (sourceEnd' - sourceStart) (blen source - sourceStart) in
    inr (take (Z.to_nat targetStart) target
         ++ take (Z.to_nat nb) (drop (Z.to_nat sourceStart) source)
         ++ drop (Z.to_nat (targetStart + nb)) target).

(** ** crypto.ts *)

Module Crypto.

Definition PAGE_SIZE : Z := 8192.
Definition SALT_SIZE : Z := 16.
Definition IV_SIZE : Z := 12.
Definition AUTH_TAG_SIZE : Z := 16.
Definition KDF_ITERATIONS : Z := 256000.
Definition FILE_ID_SIZE : Z := 32.
Definition FILE_HEADER_SIZE : Z := SALT_SIZE + FILE_ID_SIZE.
Definition ENCRYPTED_PAGE_SIZE : Z := PAGE_SIZE + IV_SIZE + AUTH_TAG_SIZE.

Definition bytes_of_string (s : string) : bytes := String.list_byte_of_string s.

(** ['PGLITE_ENC\x00\x00\x00\x00\x00\x00'] *)
Definition VERIFICATION_MAGIC : bytes :=
  bytes_of_string "PGLITE_ENC" ++ replicate 6 x00.

(** A plaintext zero-padded to [PAGE_SIZE]. *)
Definition padded_page (pt : bytes) : bytes :=
  pt ++ replicate (Z.to_nat (PAGE_SIZE - blen pt)) x00.

Section Codec.

(** AES-256-GCM from Node's [crypto]:
    [gcm_encrypt key iv aad plaintext] is the ciphertext and the tag
    ([createCipheriv], [setAAD], [update], [final], [getAuthTag]);
    [gcm_decrypt key iv aad tag ciphertext] is the plaintext
    ([createDecipheriv], [setAuthTag], [setAAD], [update], [final]).
    Either throws on inputs it rejects. *)
Variable gcm_encrypt : bytes → bytes → bytes → bytes → JsError + (bytes * bytes).
Variable gcm_decrypt : bytes → bytes → bytes → bytes → bytes → JsError + bytes.

(** [randomBytes(n)]: the [s]-th draw from the generator. *)
Variable randomBytes : Z → Z → bytes.

(** [createHash('sha256').update(data).digest()] *)
Variable sha256 : bytes → bytes.

(** [fileIdFromPath(relativePath)] *)
Definition fileIdFromPath (relativePath : string) : bytes :=
  sha256 (bytes_of_string relativePath).

Definition VERIFICATION_FILE_ID : bytes := fileIdFromPath ".encryption-verify".

Definition aad_of (fileId : bytes) (pageNo : Z) : bytes :=
  fileId ++ writeUInt32BE pageNo.

(** [encryptPage(plaintext, pageNo, keys, fileId)]; [rng] counts the draws
    made so far and is returned advanced. *)
Definition encryptPage (rng : Z) (plaintext : bytes) (pageNo : Z)
    (encKey fileId : bytes) : (JsError + bytes) * Z :=
  if bool_decide (pageNo < 0 ∨ 4294967295 < pageNo) then
    (inl (new_Error ("Page number out of range: " +:+ show_Z pageNo)), rng)
  else
    let padded :=
      if bool_decide (blen plaintext ≠ PAGE_SIZE) then
        (* padded = Buffer.alloc(PAGE_SIZE); plaintext.copy(padded) *)
        match Buffer_copy plaintext (Buffer_alloc PAGE_SIZE) 0 0 (blen plaintext) with
        | inr p => p
        | inl _ => Buffer_alloc PAGE_SIZE
        end
      else plaintext in
    let iv := randomBytes rng IV_SIZE in
    let aad := aad_of fileId pageNo in
    match gcm_encrypt encKey iv aad padded with
    | inl e => (inl e, rng + 1)
    | inr (ciphertext, authTag) => (inr (iv ++ authTag ++ ciphertext), rng + 1)
    end.

(** [decryptPage(encryptedPage, pageNo, keys, fileId)] *)
Definition decryptPage (encryptedPage : bytes) (pageNo : Z)
    (encKey fileId : bytes) : JsError + bytes :=
  if bool_decide (pageNo < 0 ∨ 4294967295 < pageNo) then
    inl (new_Error ("Page number out of range: " +:+ show_Z pageNo))
  else if bool_decide (blen encryptedPage ≠ ENCRYPTED_PAGE_SIZE) then
    inl (new_Error ("Encrypted page wrong size for page " +:+ show_Z pageNo))
  else
    let iv := subarray encryptedPage 0 IV_SIZE in
    let authTag := subarray encryptedPage IV_SIZE (IV_SIZE + AUTH_TAG_SIZE) in
    let ciphertext := subarray_from encryptedPage (IV_SIZE + AUTH_TAG_SIZE) in
    let aad := aad_of fileId pageNo in
    match gcm_decrypt encKey iv aad authTag ciphertext with
    | inr plain => inr plain
    | inl e =>
        inl (new_Error_cause
               ("Decryption failed for page " +:+ show_Z pageNo
                  +:+ ": authentication failed.") e)
    end.

End Codec.

Section Kdf.

(** [pbkdf2Sync(password, salt, iterations, keylen, digest)] and
    [randomBytes(n)] from Node's [crypto]. *)
Variable pbkdf2Sync : string → bytes → Z → Z → string → bytes.
Variable randomBytes : Z → Z → bytes.

(** [deriveKeys(passphrase, salt)]: the [encKey] of the result. *)
Definition deriveKeys (passphrase : string) (salt : bytes) : JsError + bytes :=
  if bool_decide (blen salt ≠ SALT_SIZE) then inl (new_Error "Invalid salt length")
  else inr (pbkdf2Sync passphrase salt KDF_ITERATIONS 32 "sha512").

(** [randomSalt()]; [rng] counts the draws made so far. *)
Definition randomSalt (rng : Z) : bytes * Z :=
  (randomBytes rng SALT_SIZE, rng + 1).

End Kdf.

End Crypto.

(** ** Node's [path] module (POSIX flavour)

    The code calls [path.join], [path.normalize], [path.dirname] and
    [path.basename]; these follow Node's documented behaviour. *)

Module Path.

Definition slash : Ascii.ascii := "/"%char.

(** Splits at every ['/']; [split "/a//b" = [""; "a"; ""; "b"]]. *)
Fixpoint split_aux (s : string) (cur : string) : list string :=
  match s with
  | EmptyString => [String.rev cur]
  | String c s' =>
      if Ascii.eqb c slash then String.rev cur :: split_aux s' EmptyString
      else split_aux s' (String c cur)
  end.
Definition split (s : string) : list string := split_aux s EmptyString.

Definition startsWith_slash (s : string) : bool :=
  match s with String c _ => Ascii.eqb c slash | EmptyString => false end.

Definition endsWith_slash (s : string) : bool :=
  startsWith_slash (String.rev s).

(** Resolves ["."] and [".."] segments; [stack] holds the kept segments,
    last first. *)
Fixpoint normalize_segments (absolute : bool) (segs stack : list string)
    : list string :=
  match segs with
  | [] => rev stack
  | seg :: rest =>
      if String.eqb seg "" || String.eqb seg "." then
        normalize_segments absolute rest stack
      else if String.eqb seg ".." then
        match stack with
        | top :: stack' =>
            if String.eqb top ".." then
              normalize_segments absolute rest (seg :: stack)
            else normalize_segments absolute rest stack'
        | [] =>
            if absolute then normalize_segments absolute rest []
            else normalize_segments absolute rest [seg]
        end
      else normalize_segments absolute rest (seg :: stack)
  end.

Definition normalize (p : string) : string :=
  if String.eqb p "" then "."
  else
    let absolute := startsWith_slash p in
    let trailing := endsWith_slash p in
    let body := String.concat "/" (normalize_segments absolute (split p) []) in
    let body :=
      if String.eqb body "" then (if absolute then "" else ".")
      else body in
    let body :=
      if trailing && negb (String.eqb body "") then body +:+ "/" else body in
    if absolute then "/" +:+ body else body.

Definition join (a b : string) : string :=
  let parts := filter (λ s, s ≠ ""%string) [a; b] in
  match parts with
  | [] => "."
  | _ => normalize (String.concat "/" parts)
  end.

Fixpoint drop_slashes (s : string) : string :=
  match s with
  | String c s' => if Ascii.eqb c slash then drop_slashes s' else s
  | EmptyString => EmptyString
  end.

Fixpoint take_until_slash (s : string) : string :=
  match s with
  | String c s' =>
      if Ascii.eqb c slash then EmptyString else String c (take_until_slash s')
  | EmptyString => EmptyString
  end.

Fixpoint drop_until_slash (s : string) : string :=
  match s with
  | String c s' => if Ascii.eqb c slash then s else drop_until_slash s'
  | EmptyString => EmptyString
  end.

(** [path.basename(p)]: the last segment, trailing slashes ignored. *)
Definition basename (p : string) : string :=
  String.rev (take_until_slash (drop_slashes (String.rev p))).

(** [path.dirname(p)] *)
Definition dirname (p : string) : string :=
  if String.eqb p "" then "."
  else
    let r := drop_slashes (String.rev p) in
    let d := String.rev (drop_slashes (drop_until_slash r)) in
    if String.eqb d "" then
      (if startsWith_slash p then "/" else ".")
    else d.

End Path.

(** [s.endsWith(t)] and [s.includes(t)] *)
Definition endsWith (s t : string) : bool :=
  String.prefix (String.rev t) (String.rev s).

Fixpoint includes (s t : string) : bool :=
  String.prefix t s ||
  match s with
  | String _ s' => includes s' t
  | EmptyString => false
  end.

(** ** Node's [fs] module

    The host filesystem as the code sees it: regular files are byte
    strings, a descriptor names a file and carries the access mode it was
    opened with, reads and writes go to explicit positions.  Parent
    directories, permissions and the descriptor's own offset are not
    modelled (the code always passes a position).  A write through an
    append descriptor goes to the end of the file whatever position it
    names, as on Linux; a path below a regular file is refused with
    ENOTDIR. *)

Module HostFs.

Record OpenMode := {
  om_read : bool; om_write : bool; om_create : bool;
  om_trunc : bool; om_excl : bool; om_append : bool }.

(** The string flags of [fs.openSync]. *)
Definition parse_flags (flags : string) : option OpenMode :=
  if String.eqb flags "r" then Some (Build_OpenMode true false false false false false)
  else if String.eqb flags "r+" then Some (Build_OpenMode true true false false false false)
  else if String.eqb flags "w" then Some (Build_OpenMode false true true true false false)
  else if String.eqb flags "wx" then Some (Build_OpenMode false true true true true false)
  else if String.eqb flags "w+" then Some (Build_OpenMode true true true true false false)
  else if String.eqb flags "wx+" then Some (Build_OpenMode true true true true true false)
  else if String.eqb flags "a" then Some (Build_OpenMode false true true false false true)
  else if String.eqb flags "ax" then Some (Build_OpenMode false true true false true true)
  else if String.eqb flags "a+" then Some (Build_OpenMode true true true false false true)
  else if String.eqb flags "ax+" then Some (Build_OpenMode true true true false true true)
  else None.

Record HostFd := {
  fd_path : string; fd_read : bool; fd_write : bool;
  fd_append : bool }.          (* opened with O_APPEND *)

Record Host := {
  files : gmap string bytes;   (* regular files, by path *)
  dirs : gmap string Z;        (* directories, with the size the host reports *)
  fds : gmap Z HostFd;         (* open descriptors *)
  next_fd : Z }.

Record Stats := { st_isFile : bool; st_isDirectory : bool; st_size : Z }.

(** A system error as [fs] throws it: [code] set, message starting with it. *)
Definition sys_error (c : string) (syscall : string) : JsError :=
  MkErr (c +:+ ": " +:+ syscall) (Some c) None None.

Definition with_files (h : Host) (f : gmap string bytes) : Host :=
  {| files := f; dirs := dirs h; fds := fds h; next_fd := next_fd h |}.

Definition existsSync (h : Host) (p : string) : bool :=
  bool_decide (is_Some (files h !! p)) || bool_decide (is_Some (dirs h !! p)).

(** The prefixes of a path that end before a ['/']: the names the host
    walks through on the way to it; [ancestors "/a/b/c" = [""; "/a"; "/a/b"]]. *)
Fixpoint ancestors_aux (s cur : string) : list string :=
  match s with
  | EmptyString => []
  | String c s' =>
      (if Ascii.eqb c "/" then [String.rev cur] else [])
        ++ ancestors_aux s' (String c cur)
  end.
Definition ancestors (p : string) : list string := ancestors_aux p EmptyString.

(** A path that leads through a regular file. *)
Definition below_file (h : Host) (p : string) : bool :=
  existsb (λ q, bool_decide (is_Some (files h !! q))) (ancestors p).

(** The code of the error for a path that names nothing. *)
Definition not_found (h : Host) (p : string) : string :=
  if below_file h p then "ENOTDIR" else "ENOENT".

Definition statSync (h : Host) (p : string) : JsError + Stats :=
  match dirs h !! p with
  | Some sz => inr {| st_isFile := false; st_isDirectory := true; st_size := sz |}
  | None =>
      match files h !! p with
      | Some d => inr {| st_isFile := true; st_isDirectory := false; st_size := blen d |}
      | None => inl (sys_error (not_found h p) "stat")
      end
  end.

Definition fstatSync (h : Host) (fd : Z) : JsError + Stats :=
  match fds h !! fd with
  | None => inl (sys_error "EBADF" "fstat")
  | Some d =>
      match files h !! fd_path d with
      | Some data =>
          inr {| st_isFile := true; st_isDirectory := false; st_size := blen data |}
      | None => inl (sys_error "ENOENT" "fstat")
      end
  end.

(** [fs.lstatSync(path)]; the host holds no symbolic links, so it differs
    from [statSync] in the name of the system call only. *)
Definition lstatSync (h : Host) (p : string) : JsError + Stats :=
  match dirs h !! p with
  | Some sz => inr {| st_isFile := false; st_isDirectory := true; st_size := sz |}
  | None =>
      match files h !! p with
      | Some d => inr {| st_isFile := true; st_isDirectory := false; st_size := blen d |}
      | None => inl (sys_error (not_found h p) "lstat")
      end
  end.

(** [fs.fsyncSync(fd)] *)
Definition fsyncSync (h : Host) (fd : Z) : JsError + unit :=
  match fds h !! fd with
  | None => inl (sys_error "EBADF" "fsync")
  | Some _ => inr ()
  end.

Definition mkdirSync (h : Host) (p : string) : Host :=
  {| files := files h; dirs := <[p := 4096]> (dirs h); fds := fds h;
     next_fd := next_fd h |}.

(** [fs.openSync(path, flags)].  A directory is refused in every mode
    (Node refuses it in the writing modes; the code opens no directory). *)
Definition openSync (h : Host) (p : string) (flags : string)
    : (JsError + Z) * Host :=
  match parse_flags flags with
  | None => (inl (MkErr "ERR_INVALID_ARG_VALUE" (Some "ERR_INVALID_ARG_VALUE"%string) None None), h)
  | Some m =>
      if bool_decide (is_Some (dirs h !! p)) then
        (inl (sys_error "EISDIR" "open"), h)
      else
        let fd := next_fd h in
        let entry := {| fd_path := p; fd_read := om_read m; fd_write := om_write m;
                        fd_append := om_append m |} in
        match files h !! p with
        | Some d =>
            if om_excl m then (inl (sys_error "EEXIST" "open"), h)
            else
              let d' := if om_trunc m then [] else d in
              (inr fd, {| files := <[p := d']> (files h); dirs := dirs h;
                          fds := <[fd := entry]> (fds h); next_fd := fd + 1 |})
        | None =>
            if below_file h p then (inl (sys_error "ENOTDIR" "open"), h)
            else if om_create m then
              (inr fd, {| files := <[p := []]> (files h); dirs := dirs h;
                          fds := <[fd := entry]> (fds h); next_fd := fd + 1 |})
            else (inl (sys_error "ENOENT" "open"), h)
        end
  end.

Definition closeSync (h : Host) (fd : Z) : (JsError + unit) * Host :=
  match fds h !! fd with
  | None => (inl (sys_error "EBADF" "close"), h)
  | Some _ =>
      (inr (), {| files := files h; dirs := dirs h; fds := delete fd (fds h);
                  next_fd := next_fd h |})
  end.

(** [fs.readSync(fd, buffer, offset, length, position)]: the bytes read
    and the buffer holding them at [offset]. *)
Definition readSync (h : Host) (fd : Z) (buffer : bytes)
    (offset length position : Z) : JsError + (Z * bytes) :=
  if bool_decide (offset < 0 ∨ blen buffer < offset) then inl RangeError
  else if bool_decide (length < 0 ∨ blen buffer - offset < length) then inl RangeError
  else if bool_decide (position < 0) then inl RangeError
  else
    match fds h !! fd with
    | None => inl (sys_error "EBADF" "read")
    | Some d =>
        if negb (fd_read d) then inl (sys_error "EBADF" "read")
        else
          match files h !! fd_path d with
          | None => inl (sys_error "ENOENT" "read")
          | Some data =>
              let got := take (Z.to_nat length) (drop (Z.to_nat position) data) in
              inr (blen got,
                   take (Z.to_nat offset) buffer ++ got
                     ++ drop (Z.to_nat (offset + blen got)) buffer)
          end
    end.

(** The file after [data] is written at [position]; a gap is zero-filled. *)
Definition pwrite (old data : bytes) (position : Z) : bytes :=
  take (Z.to_nat position) (old ++ replicate (Z.to_nat position - length old)%nat x00)
    ++ data ++ drop (Z.to_nat (position + blen data)) old.

(** [fs.writeSync(fd, buffer, offset, length, position)]; through an
    append descriptor the data goes to the end of the file. *)
Definition writeSync (h : Host) (fd : Z) (buffer : bytes)
    (offset length position : Z) : (JsError + Z) * Host :=
  if bool_decide (offset < 0 ∨ blen buffer < offset) then (inl RangeError, h)
  else if bool_decide (length < 0 ∨ blen buffer - offset < length) then (inl RangeError, h)
  else if bool_decide (position < 0) then (inl RangeError, h)
  else
    match fds h !! fd with
    | None => (inl (sys_error "EBADF" "write"), h)
    | Some d =>
        if negb (fd_write d) then (inl (sys_error "EBADF" "write"), h)
        else
          match files h !! fd_path d with
          | None => (inl (sys_error "ENOENT" "write"), h)
          | Some old =>
              let data := take (Z.to_nat length) (drop (Z.to_nat offset) buffer) in
              let position := if fd_append d then blen old else position in
              (inr length, with_files h (<[fd_path d := pwrite old data position]> (files h)))
          end
    end.

(** [fs.truncateSync(path, len)]: cuts or zero-extends; a negative
    length counts as 0. *)
Definition truncateSync (h : Host) (p : string) (len : Z) : (JsError + unit) * Host :=
  match files h !! p with
  | None =>
      (inl (sys_error (if bool_decide (is_Some (dirs h !! p)) then "EISDIR"
                       else not_found h p)
              "open"), h)
  | Some old =>
      let n := Z.to_nat (Z.max 0 len) in
      (inr (), with_files h (<[p := take n (old ++ replicate (n - length old)%nat x00)]> (files h)))
  end.

(** [fs.writeFileSync(path, data)] *)
Definition writeFileSync (h : Host) (p : string) (data : bytes) : (JsError + unit) * Host :=
  if bool_decide (is_Some (dirs h !! p)) then (inl (sys_error "EISDIR" "open"), h)
  else if bool_decide (files h !! p = None) && below_file h p then
    (inl (sys_error "ENOTDIR" "open"), h)
  else (inr (), with_files h (<[p := data]> (files h))).

(** [fs.readFileSync(path)] *)
Definition readFileSync (h : Host) (p : string) : JsError + bytes :=
  match files h !! p with
  | Some d => inr d
  | None =>
      inl (sys_error (if bool_decide (is_Some (dirs h !! p)) then "EISDIR"
                      else not_found h p)
             "open")
  end.

End HostFs.

(** ** encrypted-fs.ts *)

Module EncryptedFS.

Import Crypto HostFs.

Definition EIO : Z := 5.

Definition O_WRONLY : Z := 1.
Definition O_RDWR : Z := 2.
Definition O_CREAT : Z := 64.
Definition O_EXCL : Z := 128.
Definition O_TRUNC : Z := 512.
Definition O_APPEND : Z := 1024.

(** [emFlagsToNode(flags)] on a numeric argument. *)
Definition emFlagsToNode (flags : Z) : string :=
  let isWrite := Z.land flags O_WRONLY =? O_WRONLY in
  let isReadWrite := Z.land flags O_RDWR =? O_RDWR in
  let isAppend := Z.land flags O_APPEND =? O_APPEND in
  let isTrunc := Z.land flags O_TRUNC =? O_TRUNC in
  let isCreate := Z.land flags O_CREAT =? O_CREAT in
  let isExcl := Z.land flags O_EXCL =? O_EXCL in
  let base : string :=
    if isAppend then (if isReadWrite then "a+" else "a")
    else if isTrunc then (if isReadWrite then "w+" else if isWrite then "w" else "w")
    else if isCreate && isWrite && negb isReadWrite then "w"
    else if isReadWrite then "r+"
    else if isWrite then "w"
    else "r" in
  if isExcl && isCreate then
    if String.eqb base "w" then "wx"
    else if String.eqb base "w+" then "wx+"
    else if String.eqb base "a" then "ax"
    else if String.eqb base "a+" then "ax+"
    else base
  else base.

(** [emFlagsToNode] on [number | string]. *)
Definition emFlagsToNode' (flags : Z + string) : string :=
  match flags with
  | inl n => emFlagsToNode n
  | inr s => s
  end.

Record OpenFile := {
  realFd : Z;
  path : string;
  flags : string;
  position : Z;
  encrypted : bool;
  fileId : bytes }.

Definition with_position (f : OpenFile) (p : Z) : OpenFile :=
  {| realFd := realFd f; path := path f; flags := flags f; position := p;
     encrypted := encrypted f; fileId := fileId f |}.

(** The instance fields, together with the host filesystem and the number
    of random draws made so far. *)
Record State := {
  dataDir : string;
  encKey : bytes;
  salt : bytes;
  openFiles : gmap Z OpenFile;
  cwd : string;
  nextFd : Z;
  destroyed : bool;
  host : Host;
  rng : Z }.

Definition with_host (s : State) (h : Host) : State :=
  {| dataDir := dataDir s; encKey := encKey s; salt := salt s;
     openFiles := openFiles s; cwd := cwd s; nextFd := nextFd s;
     destroyed := destroyed s; host := h; rng := rng s |}.

Definition with_rng (s : State) (r : Z) : State :=
  {| dataDir := dataDir s; encKey := encKey s; salt := salt s;
     openFiles := openFiles s; cwd := cwd s; nextFd := nextFd s;
     destroyed := destroyed s; host := host s; rng := r |}.

Definition with_openFiles (s : State) (o : gmap Z OpenFile) : State :=
  {| dataDir := dataDir s; encKey := encKey s; salt := salt s;
     openFiles := o; cwd := cwd s; nextFd := nextFd s;
     destroyed := destroyed s; host := host s; rng := rng s |}.

Definition set_position (s : State) (vfd : Z) (f : OpenFile) (p : Z) : State :=
  with_openFiles s (<[vfd := with_position f p]> (openFiles s)).

(** [shouldEncrypt(filename)] *)
Definition shouldEncrypt (filename : string) : bool :=
  let basename := Path.basename filename in
  negb (endsWith basename ".conf") &&
  negb (endsWith basename ".pid") &&
  negb (includes basename "PG_VERSION") &&
  negb (includes basename "pg_internal.init") &&
  negb (includes basename "postmaster") &&
  negb (includes basename ".lock") &&
  negb (includes basename "replorigin_checkpoint").

(** [path.replace(prefix, '')]: removes the first occurrence. *)
Fixpoint remove_first (s prefix : string) : string :=
  if String.prefix prefix s then
    String.substring (String.length prefix) (String.length s - String.length prefix) s
  else
    match s with
    | String c s' => String c (remove_first s' prefix)
    | EmptyString => EmptyString
    end.

(** [Math.ceil(a / b)] for a positive [b]. *)
Definition ceil_div (a b : Z) : Z := - ((- a) / b).

Section Instance.

Variable gcm_encrypt : bytes → bytes → bytes → bytes → JsError + (bytes * bytes).
Variable gcm_decrypt : bytes → bytes → bytes → bytes → bytes → JsError + bytes.
Variable randomBytes : Z → Z → bytes.
Variable sha256 : bytes → bytes.

(** [ERRNO_CODES] of [@electric-sql/pglite/basefs]. *)
Variable ERRNO_CODES : string → option Z.

Local Abbreviation encryptPage := (Crypto.encryptPage gcm_encrypt randomBytes).
Local Abbreviation decryptPage := (Crypto.decryptPage gcm_decrypt).

(** [createError(code, message, cause)] *)
Definition createError (c : string) (msg : string) (cs : option JsError) : JsError :=
  MkErr (c +:+ ": " +:+ msg) (Some c)
    (if String.eqb c "EIO" then Some EIO else ERRNO_CODES c) cs.

(** [getErrorCode(e)] *)
Definition getErrorCode (e : JsError) : string :=
  match code e with
  | Some c =>
      if String.eqb c "EIO" then "EIO"
      else if bool_decide (is_Some (ERRNO_CODES c)) then c
      else "EIO"
  | None => "EIO"
  end.

(** [normalizePath(p)] *)
Definition normalizePath (s : State) (p : string) : string :=
  if String.eqb p "" then ""
  else
    let p := if Path.startsWith_slash p then p else Path.join (cwd s) p in
    Path.normalize p.

(** [resolvePath(p)] *)
Definition resolvePath (s : State) (p : string) : string :=
  let p := if Path.startsWith_slash p
           then String.substring 1 (String.length p - 1) p else p in
  Path.join (dataDir s) p.

(** [readFileId(fd)] *)
Definition readFileId (h : Host) (fd : Z) : JsError + bytes :=
  match readSync h fd (Buffer_alloc FILE_ID_SIZE) 0 FILE_ID_SIZE SALT_SIZE with
  | inl e => inl e
  | inr (bytesRead, fileId) =>
      if bool_decide (bytesRead ≠ FILE_ID_SIZE) then
        inl (createError "EIO" "Could not read file ID from header" None)
      else inr fileId
  end.

(** [logicalSizeFromPhysical(physicalSize)] *)
Definition logicalSizeFromPhysical (physicalSize : Z) : JsError + Z :=
  if bool_decide (physicalSize < FILE_HEADER_SIZE) then inr 0
  else
    let payload := physicalSize - FILE_HEADER_SIZE in
    if bool_decide (payload = 0) then inr 0
    else
      let fullPages := payload / ENCRYPTED_PAGE_SIZE in
      let tail := Z.rem payload ENCRYPTED_PAGE_SIZE in
      if bool_decide (tail ≠ 0) then
        inl (createError "EIO"
               ("Partial encrypted page (physicalSize=" +:+ show_Z physicalSize
                  +:+ ", tail=" +:+ show_Z tail +:+ ")") None)
      else inr (fullPages * PAGE_SIZE).

(** [destroy()] *)
Definition destroy (s : State) : State :=
  if destroyed s then s
  else
    {| dataDir := dataDir s;
       encKey := replicate (length (encKey s)) x00;
       salt := replicate (length (salt s)) x00;
       openFiles := openFiles s; cwd := cwd s; nextFd := nextFd s;
       destroyed := true; host := host s; rng := rng s |}.

(** The position a [read] or [write] works at:
    [if (position === undefined || position === null || position < 0)
     logicalPos = file.position]. *)
Definition logicalPos_of (file : OpenFile) (pos : option Z) : Z :=
  match pos with
  | None => position file
  | Some p => if bool_decide (p < 0) then position file else p
  end.

(** One pass of the loop of [read] over the pages [pageNo ..]; [n] is the
    number of pages left, [total] is [bytesReadTotal].  Returns the count
    and the caller's buffer. *)
Fixpoint read_pages (s : State) (file : OpenFile) (offset length logicalPos : Z)
    (n : nat) (pageNo total : Z) (buffer : bytes) : (JsError + Z) * bytes :=
  match n with
  | O => (inr total, buffer)
  | S n' =>
      let physicalOffset := FILE_HEADER_SIZE + pageNo * ENCRYPTED_PAGE_SIZE in
      match readSync (host s) (realFd file) (Buffer_alloc ENCRYPTED_PAGE_SIZE)
              0 ENCRYPTED_PAGE_SIZE physicalOffset with
      | inl e => (inl e, buffer)
      | inr (bytesRead, encryptedPage) =>
          if bool_decide (bytesRead = 0) then (inr total, buffer)
          else if bool_decide (bytesRead < ENCRYPTED_PAGE_SIZE) then
            (inl (createError "EIO"
                    ("Short encrypted page read (expected " +:+ show_Z ENCRYPTED_PAGE_SIZE
                       +:+ ", got " +:+ show_Z bytesRead +:+ ") at page "
                       +:+ show_Z pageNo) None), buffer)
          else
            let failed e :=
              createError "EIO"
                ("Decryption failed for page " +:+ show_Z pageNo
                   +:+ ", file may be corrupt") (Some e) in
            match decryptPage encryptedPage pageNo (encKey s) (fileId file) with
            | inl e => (inl (failed e), buffer)
            | inr decryptedPage =>
                let pageOffset := logicalPos + total - pageNo * PAGE_SIZE in
                let bytesToCopy := Z.min (length - total) (PAGE_SIZE - pageOffset) in
                match Buffer_copy decryptedPage buffer (offset + total)
                        pageOffset (pageOffset + bytesToCopy) with
                | inl e => (inl (failed e), buffer)
                | inr buffer' =>
                    read_pages s file offset length logicalPos n' (pageNo + 1)
                      (total + bytesToCopy) buffer'
                end
            end
      end
  end.

(** [read(virtualFd, buffer, offset, length, position)]: the result, the
    caller's buffer and the state afterwards.  [pos] is the [position]
    argument, [None] for [null] or [undefined]. *)
Definition read (s : State) (virtualFd : Z) (buffer : bytes)
    (offset length : Z) (pos : option Z) : (JsError + Z) * bytes * State :=
  match openFiles s !! virtualFd with
  | None => (inl (createError "EBADF" ("read '" +:+ show_Z virtualFd +:+ "'") None), buffer, s)
  | Some file =>
      if destroyed s then
        (inl (createError "EIO" "filesystem has been destroyed" None), buffer, s)
      else if bool_decide (length = 0) then (inr 0, buffer, s)
      else if bool_decide (realFd file = -1) then
        (inl (createError "EISDIR" "read from directory" None), buffer, s)
      else
        let logicalPos := logicalPos_of file pos in
        if negb (encrypted file) then
          match readSync (host s) (realFd file) buffer offset length logicalPos with
          | inl e => (inl e, buffer, s)
          | inr (bytesRead, buffer') =>
              (inr bytesRead, buffer', set_position s virtualFd file (logicalPos + bytesRead))
          end
        else
          let startPage := logicalPos / PAGE_SIZE in
          let endPage := (logicalPos + length - 1) / PAGE_SIZE in
          match read_pages s file offset length logicalPos
                  (Z.to_nat (endPage - startPage + 1)) startPage 0 buffer with
          | (inl e, buffer') => (inl e, buffer', s)
          | (inr bytesReadTotal, buffer') =>
              (inr bytesReadTotal, buffer',
               set_position s virtualFd file (logicalPos + bytesReadTotal))
          end
  end.

(** The existing page that [write] starts from: the decrypted page when a
    full encrypted page could be read, a zero page otherwise.  An exception
    of [fstatSync] or [readSync] is caught and counts as nothing read. *)
Definition write_load_page (s : State) (file : OpenFile) (pageNo : Z)
    : JsError + bytes :=
  let physicalOffset := FILE_HEADER_SIZE + pageNo * ENCRYPTED_PAGE_SIZE in
  let '(bytesRead, encryptedPageData) :=
    match fstatSync (host s) (realFd file) with
    | inl _ => (0, Buffer_alloc ENCRYPTED_PAGE_SIZE)
    | inr stats =>
        if bool_decide (physicalOffset < st_size stats) then
          match readSync (host s) (realFd file) (Buffer_alloc ENCRYPTED_PAGE_SIZE)
                  0 ENCRYPTED_PAGE_SIZE physicalOffset with
          | inl _ => (0, Buffer_alloc ENCRYPTED_PAGE_SIZE)
          | inr r => r
          end
        else (0, Buffer_alloc ENCRYPTED_PAGE_SIZE)
    end in
  if bool_decide (bytesRead = ENCRYPTED_PAGE_SIZE) then
    match decryptPage encryptedPageData pageNo (encKey s) (fileId file) with
    | inr pagePlain => inr pagePlain
    | inl e =>
        inl (createError "EIO"
               ("Decryption failed during write for page " +:+ show_Z pageNo
                  +:+ ", file may be corrupt") (Some e))
    end
  else inr (Buffer_alloc PAGE_SIZE).

(** The loop of [write] over the pages [pageNo ..]; [n] is the number of
    pages left, [total] is [bytesWrittenTotal]. *)
Fixpoint write_pages (s : State) (file : OpenFile) (buffer : bytes)
    (offset length logicalPos : Z) (n : nat) (pageNo total : Z)
    : (JsError + Z) * State :=
  match n with
  | O => (inr total, s)
  | S n' =>
      let physicalOffset := FILE_HEADER_SIZE + pageNo * ENCRYPTED_PAGE_SIZE in
      match write_load_page s file pageNo with
      | inl e => (inl e, s)
      | inr pagePlain =>
          let pageOffset := logicalPos + total - pageNo * PAGE_SIZE in
          let bytesToWrite := Z.min (length - total) (PAGE_SIZE - pageOffset) in
          match Buffer_copy buffer pagePlain pageOffset (offset + total)
                  (offset + total + bytesToWrite) with
          | inl e => (inl e, s)
          | inr pagePlain' =>
              match encryptPage (rng s) pagePlain' pageNo (encKey s) (fileId file) with
              | (inl e, r) => (inl e, with_rng s r)
              | (inr encryptedNewPage, r) =>
                  match writeSync (host s) (realFd file) encryptedNewPage
                          0 ENCRYPTED_PAGE_SIZE physicalOffset with
                  | (inl e, h) => (inl e, with_rng (with_host s h) r)
                  | (inr _, h) =>
                      write_pages (with_rng (with_host s h) r) file buffer offset
                        length logicalPos n' (pageNo + 1) (total + bytesToWrite)
                  end
              end
          end
      end
  end.

(** [write(virtualFd, buffer, offset, length, position)]; [pos] is the
    [position] argument, [None] for [null] or [undefined]. *)
Definition write (s : State) (virtualFd : Z) (buffer : bytes)
    (offset length : Z) (pos : option Z) : (JsError + Z) * State :=
  match openFiles s !! virtualFd with
  | None => (inl (createError "EBADF" ("write '" +:+ show_Z virtualFd +:+ "'") None), s)
  | Some file =>
      if destroyed s then
        (inl (createError "EIO" "filesystem has been destroyed" None), s)
      else if bool_decide (length = 0) then (inr 0, s)
      else if bool_decide (realFd file = -1) then
        (inl (createError "EISDIR" "write to directory" None), s)
      else
        let logicalPos := logicalPos_of file pos in
        if negb (encrypted file) then
          match writeSync (host s) (realFd file) buffer offset length logicalPos with
          | (inl e, h) => (inl e, with_host s h)
          | (inr bytesWritten, h) =>
              (inr bytesWritten,
               set_position (with_host s h) virtualFd file (logicalPos + bytesWritten))
          end
        else
          let startPage := logicalPos / PAGE_SIZE in
          let endPage := (logicalPos + length - 1) / PAGE_SIZE in
          match write_pages s file buffer offset length logicalPos
                  (Z.to_nat (endPage - startPage + 1)) startPage 0 with
          | (inl e, s') => (inl e, s')
          | (inr bytesWrittenTotal, s') =>
              (inr bytesWrittenTotal,
               set_position s' virtualFd file (logicalPos + bytesWrittenTotal))
          end
  end.

(** [FsStats]: the [size] field; the other fields are copied from the
    host record (the timestamps cut to whole seconds). *)
Record FsStats := { size : Z }.

(** [toFsStats(stats, sizeOverride)] *)
Definition toFsStats (stats : Stats) (sizeOverride : option Z) : FsStats :=
  {| size := match sizeOverride with Some v => v | None => st_size stats end |}.

(** [fstat(virtualFd)] *)
Definition fstat (s : State) (virtualFd : Z) : JsError + FsStats :=
  match openFiles s !! virtualFd with
  | None => inl (createError "EBADF" ("fstat '" +:+ show_Z virtualFd +:+ "'") None)
  | Some file =>
      if bool_decide (realFd file = -1) then
        match statSync (host s) (path file) with
        | inl e => inl e
        | inr stats => inr (toFsStats stats None)
        end
      else
        match fstatSync (host s) (realFd file) with
        | inl e => inl e
        | inr stats =>
            let pathStr := remove_first (path file) (dataDir s +:+ "/") in
            if st_isFile stats && shouldEncrypt pathStr then
              match logicalSizeFromPhysical (st_size stats) with
              | inl e => inl e
              | inr logical => inr (toFsStats stats (Some logical))
              end
            else inr (toFsStats stats None)
        end
  end.

(** The loop of [truncate] that appends the pages [pageNo ..]. *)
Fixpoint truncate_extend (h : Host) (r : Z) (key fileId : bytes) (fd : Z)
    (n : nat) (pageNo : Z) : (JsError + unit) * Host * Z :=
  match n with
  | O => (inr (), h, r)
  | S n' =>
      let zeroPage := Buffer_fill PAGE_SIZE x00 in
      match encryptPage r zeroPage pageNo key fileId with
      | (inl e, r') => (inl e, h, r')
      | (inr encrypted, r') =>
          let offset := FILE_HEADER_SIZE + pageNo * ENCRYPTED_PAGE_SIZE in
          match writeSync h fd encrypted 0 (blen encrypted) offset with
          | (inl e, h') => (inl e, h', r')
          | (inr _, h') => truncate_extend h' r' key fileId fd n' (pageNo + 1)
          end
      end
  end.

(** The [try] block of the extending branch of [truncate]. *)
Definition truncate_try (h : Host) (r : Z) (key : bytes) (fd : Z)
    (currentPageCount newPageCount : Z) : (JsError + unit) * Host * Z :=
  match readFileId h fd with
  | inl e => (inl e, h, r)
  | inr fileId =>
      truncate_extend h r key fileId fd
        (Z.to_nat (newPageCount - currentPageCount)) currentPageCount
  end.

(** The extending branch of [truncate]:
    [fd = openSync(fullPath, 'r+'); try { ... } finally { closeSync(fd) }]. *)
Definition truncate_grow (h : Host) (r : Z) (key : bytes) (fullPath : string)
    (currentPageCount newPageCount : Z) : (JsError + unit) * Host * Z :=
  match openSync h fullPath "r+" with
  | (inl e, h') => (inl e, h', r)
  | (inr fd, h') =>
      match truncate_try h' r key fd currentPageCount newPageCount with
      | (res, h1, r1) =>
          match closeSync h1 fd with
          | (inl e, h2) => (inl e, h2, r1)
          | (inr _, h2) => (res, h2, r1)
          end
      end
  end.

(** [currentPhysical] and [currentPageCount] of [truncate]. *)
Definition currentPhysical_of (h : Host) (fullPath : string) : Z :=
  if existsSync h fullPath then
    match statSync h fullPath with
    | inr stats => st_size stats
    | inl _ => 0
    end
  else 0.

Definition currentPageCount_of (currentPhysical : Z) : Z :=
  if bool_decide (FILE_HEADER_SIZE < currentPhysical)
  then (currentPhysical - FILE_HEADER_SIZE) / ENCRYPTED_PAGE_SIZE else 0.

(** [truncate(pathStr, len)] *)
Definition truncate (s : State) (pathStr : string) (len : Z) : (JsError + unit) * State :=
  let fullPath := resolvePath s pathStr in
  if negb (shouldEncrypt pathStr) then
    match truncateSync (host s) fullPath len with
    | (r, h) => (r, with_host s h)
    end
  else
    let currentPhysical := currentPhysical_of (host s) fullPath in
    let currentPageCount := currentPageCount_of currentPhysical in
    let newPageCount := ceil_div len PAGE_SIZE in
    if bool_decide (currentPageCount < newPageCount) then
      match truncate_grow (host s) (rng s) (encKey s) fullPath
              currentPageCount newPageCount with
      | (res, h, r) => (res, with_rng (with_host s h) r)
      end
    else
      let newPhysicalSize := FILE_HEADER_SIZE + newPageCount * ENCRYPTED_PAGE_SIZE in
      match truncateSync (host s) fullPath newPhysicalSize with
      | (r, h) => (r, with_host s h)
      end.

Definition INVALID_PASSPHRASE : string :=
  "Invalid passphrase or corrupted encryption keys".

Local Abbreviation VERIFICATION_FILE_ID := (Crypto.VERIFICATION_FILE_ID sha256).

(** [verifyOrCreateToken(baseDir)], on the host [h] with [r] random draws
    made so far. *)
Definition verifyOrCreateToken (h : Host) (r : Z) (key : bytes) (baseDir : string)
    : (JsError + unit) * Host * Z :=
  let tokenPath := Path.join baseDir ".encryption-verify" in
  if negb (existsSync h tokenPath) then
    let magic :=
      match Buffer_copy VERIFICATION_MAGIC (Buffer_alloc PAGE_SIZE) 0 0
              (blen VERIFICATION_MAGIC) with
      | inr m => m
      | inl _ => Buffer_alloc PAGE_SIZE
      end in
    match encryptPage r magic 0 key VERIFICATION_FILE_ID with
    | (inl e, r') => (inl e, h, r')
    | (inr encrypted, r') =>
        let '(res, h') := writeFileSync h tokenPath encrypted in (res, h', r')
    end
  else
    match readFileSync h tokenPath with
    | inl e => (inl e, h, r)
    | inr data =>
        if bool_decide (blen data ≠ ENCRYPTED_PAGE_SIZE) then
          (inl (new_Error INVALID_PASSPHRASE), h, r)
        else
          let thrown : option JsError :=
            match decryptPage data 0 key VERIFICATION_FILE_ID with
            | inl e => Some e
            | inr decrypted =>
                if bool_decide (subarray decrypted 0 (blen VERIFICATION_MAGIC)
                                  ≠ VERIFICATION_MAGIC)
                then Some (new_Error INVALID_PASSPHRASE) else None
            end in
          match thrown with
          | None => (inr (), h, r)
          | Some e =>
              if String.eqb (message e) INVALID_PASSPHRASE then (inl e, h, r)
              else (inl (new_Error_cause INVALID_PASSPHRASE e), h, r)
          end
    end.

(** [new EncryptedFS(dataDir, keys, salt)] on the host [h]: the instance, or
    the exception with the host and the generator as it left them. *)
Definition constructor (h : Host) (r : Z) (dir : string) (key slt : bytes)
    : (JsError * Host * Z) + State :=
  let baseDir := dir in
  let h1 := if negb (existsSync h baseDir) then mkdirSync h baseDir else h in
  match verifyOrCreateToken h1 r key baseDir with
  | (inl e, h2, r2) => inl (e, h2, r2)
  | (inr _, h2, r2) =>
      inr {| dataDir := dir; encKey := key; salt := slt; openFiles := ∅;
             cwd := "/"; nextFd := 100; destroyed := false; host := h2; rng := r2 |}
  end.

(** [initializeEncryptedFile(fullPath)] *)
Definition initializeEncryptedFile (slt : bytes) (h : Host) (r : Z) (fullPath : string)
    : (JsError + bytes) * Host * Z :=
  let fileId := randomBytes r FILE_ID_SIZE in
  if negb (existsSync h fullPath) then
    match writeFileSync h fullPath (slt ++ fileId) with
    | (inl e, h') => (inl e, h', r + 1)
    | (inr _, h') => (inr fileId, h', r + 1)
    end
  else (inr fileId, h, r + 1).

(** The header step of [open], after [fs.openSync] returned [fd]: a
    truncating open writes a header (with a fresh file id unless the file
    was just initialized), an open of an existing file reads the id. *)
Definition open_header (slt : bytes) (h : Host) (r : Z) (fd : Z)
    (needsEncryption isTruncate fileExists : bool) (fileId0 : bytes)
    : (JsError + bytes) * Host * Z :=
  if needsEncryption && isTruncate then
    let '(fileId, r') :=
      if bool_decide (blen fileId0 = 0)
      then (randomBytes r FILE_ID_SIZE, r + 1) else (fileId0, r) in
    let header := slt ++ fileId in
    match writeSync h fd header 0 FILE_HEADER_SIZE 0 with
    | (inl e, h') => (inl e, h', r')
    | (inr _, h') => (inr fileId, h', r')
    end
  else if needsEncryption && fileExists then (readFileId h fd, h, r)
  else (inr fileId0, h, r).

(** The body of the [try] block of [open]. *)
Definition open_body (s : State) (pathStr : string) (nodeFlags : string)
    : (JsError + Z) * State :=
  let fullPath := resolvePath s pathStr in
  let is_dir :=
    existsSync (host s) fullPath &&
    match statSync (host s) fullPath with
    | inr stats => st_isDirectory stats
    | inl _ => false
    end in
  if is_dir then
    let virtualFd := nextFd s in
    (inr virtualFd,
     {| dataDir := dataDir s; encKey := encKey s; salt := salt s;
        openFiles :=
          <[virtualFd := {| realFd := -1; path := fullPath; flags := nodeFlags;
                            position := 0; encrypted := false; fileId := [] |}]>
            (openFiles s);
        cwd := cwd s; nextFd := virtualFd + 1; destroyed := destroyed s;
        host := host s; rng := rng s |})
  else
    let dir := Path.dirname fullPath in
    let h0 := if negb (existsSync (host s) dir) then mkdirSync (host s) dir else host s in
    let writeMode := includes nodeFlags "w" || includes nodeFlags "a" in
    let isTruncate := includes nodeFlags "w" in
    let fileExists := existsSync h0 fullPath in
    let needsEncryption := shouldEncrypt pathStr in
    match (if needsEncryption && writeMode && negb fileExists
           then initializeEncryptedFile (salt s) h0 (rng s) fullPath
           else (inr [], h0, rng s)) with
    | (inl e, h1, r1) => (inl e, with_rng (with_host s h1) r1)
    | (inr fileId0, h1, r1) =>
        match openSync h1 fullPath nodeFlags with
        | (inl e, h2) => (inl e, with_rng (with_host s h2) r1)
        | (inr fd, h2) =>
            match open_header (salt s) h2 r1 fd needsEncryption isTruncate
                    fileExists fileId0 with
            | (inl e, h3, r3) => (inl e, with_rng (with_host s h3) r3)
            | (inr fileId, h3, r3) =>
                let virtualFd := nextFd s in
                (inr virtualFd,
                 {| dataDir := dataDir s; encKey := encKey s; salt := salt s;
                    openFiles :=
                      <[virtualFd := {| realFd := fd; path := fullPath;
                                        flags := nodeFlags; position := 0;
                                        encrypted := needsEncryption;
                                        fileId := fileId |}]> (openFiles s);
                    cwd := cwd s; nextFd := virtualFd + 1;
                    destroyed := destroyed s; host := h3; rng := r3 |})
            end
        end
    end.

(** [open(pathStr, flags)] *)
Definition open (s : State) (pathStr : string) (flags : Z + string)
    : (JsError + Z) * State :=
  let pathStr := normalizePath s pathStr in
  let nodeFlags := emFlagsToNode' flags in
  match open_body s pathStr nodeFlags with
  | (inl e, s') =>
      (inl (createError (getErrorCode e) ("open '" +:+ pathStr +:+ "'") (Some e)), s')
  | (inr fd, s') => (inr fd, s')
  end.

(** [close(virtualFd)] *)
Definition close (s : State) (virtualFd : Z) : (JsError + unit) * State :=
  match openFiles s !! virtualFd with
  | None => (inl (createError "EBADF" ("close '" +:+ show_Z virtualFd +:+ "'") None), s)
  | Some file =>
      let '(res, h) :=
        if bool_decide (realFd file ≠ -1) then closeSync (host s) (realFd file)
        else (inr (), host s) in
      match res with
      | inl e => (inl e, with_host s h)
      | inr _ => (inr (), with_openFiles (with_host s h) (delete virtualFd (openFiles s)))
      end
  end.

(** [chdir(newPath)] *)
Definition chdir (s : State) (newPath : string) : State :=
  {| dataDir := dataDir s; encKey := encKey s; salt := salt s;
     openFiles := openFiles s; cwd := normalizePath s newPath; nextFd := nextFd s;
     destroyed := destroyed s; host := host s; rng := rng s |}.

(** [fsync(virtualFd)] and its alias [fdatasync]. *)
Definition fsync (s : State) (virtualFd : Z) : JsError + unit :=
  match openFiles s !! virtualFd with
  | None => inl (createError "EBADF" ("fsync '" +:+ show_Z virtualFd +:+ "'") None)
  | Some file =>
      if bool_decide (realFd file ≠ -1) then fsyncSync (host s) (realFd file)
      else inr ()
  end.

Definition fdatasync (s : State) (virtualFd : Z) : JsError + unit :=
  fsync s virtualFd.

(** [lstat(pathStr)] *)
Definition lstat (s : State) (pathStr : string) : JsError + FsStats :=
  let pathStr := normalizePath s pathStr in
  let fullPath := resolvePath s pathStr in
  let attempt :=
    match lstatSync (host s) fullPath with
    | inl e => inl e
    | inr stats =>
        if st_isFile stats && shouldEncrypt pathStr then
          match logicalSizeFromPhysical (st_size stats) with
          | inl e => inl e
          | inr logicalSize => inr (toFsStats stats (Some logicalSize))
          end
        else inr (toFsStats stats None)
    end in
  match attempt with
  | inr stats => inr stats
  | inl e =>
      if bool_decide (code e = Some "ENOENT"%string) then
        inl (createError "ENOENT" ("stat '" +:+ pathStr +:+ "'") None)
      else inl e
  end.

(** [access(pathStr, mode)] *)
Definition access (s : State) (pathStr : string) (mode : Z) : Z :=
  match lstat s pathStr with
  | inr _ => 0
  | inl _ => -1
  end.

(** [writeFile(pathStr, data, options)] for [data] given as bytes (a string
    is first turned into bytes by [Buffer.from]); [flag] is [options.flag].
    The handle is closed in a [finally] block, whose exception takes the
    place of the one of the [try] block. *)
Definition writeFile (s : State) (pathStr : string) (data : bytes)
    (flag : option string) : (JsError + unit) * State :=
  let flag :=
    match flag with
    | Some f => if String.eqb f "" then "w"%string else f
    | None => "w"%string
    end in
  match open s pathStr (inr flag) with
  | (inl e, s1) => (inl e, s1)
  | (inr fd, s1) =>
      let buffer := data in
      let '(res, s2) := write s1 fd buffer 0 (blen buffer) (Some 0) in
      match close s2 fd with
      | (inl e, s3) => (inl e, s3)
      | (inr _, s3) =>
          (match res with inl e => inl e | inr _ => inr () end, s3)
      end
  end.

(** A call on the instance, and the state it leaves. *)
Inductive Call :=
  | CallOpen (pathStr : string) (flags : Z + string)
  | CallClose (virtualFd : Z)
  | CallRead (virtualFd : Z) (buffer : bytes) (offset length : Z) (pos : option Z)
  | CallWrite (virtualFd : Z) (buffer : bytes) (offset length : Z) (pos : option Z)
  | CallFstat (virtualFd : Z)
  | CallTruncate (pathStr : string) (len : Z)
  | CallDestroy.

Definition run_call (s : State) (c : Call) : State :=
  match c with
  | CallOpen p f => (open s p f).2
  | CallClose fd => (close s fd).2
  | CallRead fd b o l p => (read s fd b o l p).2
  | CallWrite fd b o l p => (write s fd b o l p).2
  | CallFstat _ => s
  | CallTruncate p l => (truncate s p l).2
  | CallDestroy => destroy s
  end.

Definition run_calls (s : State) (cs : list Call) : State :=
  fold_left run_call cs s.

(** Encrypted page [i] of the file [d]:
    bytes [FILE_HEADER_SIZE + i * ENCRYPTED_PAGE_SIZE] up to the next page. *)
Definition page_at (d : bytes) (i : Z) : bytes :=
  subarray d (FILE_HEADER_SIZE + i * ENCRYPTED_PAGE_SIZE)
    (FILE_HEADER_SIZE + (i + 1) * ENCRYPTED_PAGE_SIZE).

(** The byte at the logical position [q] of the encrypted file [d], when
    its page authenticates. *)
Definition logical_byte (key fid d : bytes) (q : Z) : option byte :=
  match decryptPage (page_at d (q / PAGE_SIZE)) (q / PAGE_SIZE) key fid with
  | inr page => page !! Z.to_nat (q mod PAGE_SIZE)
  | inl _ => None
  end.

(** Invariants I1 and I3 for a file of [k] pages: the size is the header
    and [k] encrypted pages, and every page decrypts under its number. *)
Definition well_formed_file (key fid d : bytes) (k : Z) : Prop :=
  0 <= k ∧
  blen d = FILE_HEADER_SIZE + k * ENCRYPTED_PAGE_SIZE ∧
  ∀ i, 0 <= i < k →
       ∃ page, decryptPage (page_at d i) i key fid = inr page ∧
               blen page = PAGE_SIZE.

End Instance.

End EncryptedFS.

(** ** What is assumed of AES-256-GCM and of the random generator *)

(** Ciphertext as long as the plaintext, 16-byte tag. *)
Definition gcm_lengths
    (gcm_encrypt : bytes → bytes → bytes → bytes → JsError + (bytes * bytes)) : Prop :=
  ∀ key iv aad pt ct tag,
    gcm_encrypt key iv aad pt = inr (ct, tag) →
    blen ct = blen pt ∧ blen tag = Crypto.AUTH_TAG_SIZE.

(** Under a 32-byte key and a 12-byte IV encryption succeeds, and
    decryption under the same key, IV and AAD accepts its output. *)
Definition gcm_roundtrip
    (gcm_encrypt : bytes → bytes → bytes → bytes → JsError + (bytes * bytes))
    (gcm_decrypt : bytes → bytes → bytes → bytes → bytes → JsError + bytes) : Prop :=
  ∀ key iv aad pt,
    blen key = 32 → blen iv = Crypto.IV_SIZE →
    ∃ ct tag, gcm_encrypt key iv aad pt = inr (ct, tag) ∧
              gcm_decrypt key iv aad tag ct = inr pt.

Definition random_lengths (randomBytes : Z → Z → bytes) : Prop :=
  ∀ s n, 0 <= n → blen (randomBytes s n) = n.

(** ** A small authenticated cipher for the examples

    It stands in for AES-256-GCM where a statement needs a concrete
    cipher: the ciphertext is the plaintext reversed, and the tag is a
    checksum over key, IV, AAD and the head of the ciphertext. *)

Module Sample.

Import Crypto HostFs EncryptedFS.

Definition Z_of_byte (b : byte) : Z := Z.of_N (Byte.to_N b).

Definition checksum (d : bytes) : Z :=
  fold_right (λ b acc, (Z_of_byte b + 31 * acc + 7) mod 256) 1 d.

Definition tag_of (key iv aad ct : bytes) : bytes :=
  replicate 16 (byte_of_Z (checksum (key ++ iv ++ aad ++ take 8 ct))).

Definition gcm_encrypt (key iv aad pt : bytes) : JsError + (bytes * bytes) :=
  if bool_decide (blen key ≠ 32) then inl (new_Error "Invalid key length")
  else
    let ct := reverse pt in
    inr (ct, tag_of key iv aad ct).

Definition gcm_decrypt (key iv aad tag ct : bytes) : JsError + bytes :=
  if bool_decide (blen key ≠ 32) then inl (new_Error "Invalid key length")
  else if bool_decide (tag = tag_of key iv aad ct) then inr (reverse ct)
  else inl (new_Error "Unsupported state or unable to authenticate data").

Definition randomBytes (s n : Z) : bytes :=
  replicate (Z.to_nat n) (byte_of_Z (s + 1)).

Definition sha256 (d : bytes) : bytes := replicate 32 (byte_of_Z (checksum d)).

(** An errno table for the examples. *)
Definition ERRNO_CODES (c : string) : option Z :=
  if String.eqb c "EBADF" then Some 8
  else if String.eqb c "EEXIST" then Some 20
  else if String.eqb c "EINVAL" then Some 28
  else if String.eqb c "EISDIR" then Some 31
  else if String.eqb c "ENOENT" then Some 44
  else None.

Definition key1 : bytes := replicate 32 x01.
Definition key2 : bytes := x02 :: replicate 31 x01.
Definition fileId1 : bytes := replicate 32 "a"%byte.

Definition encryptPage := Crypto.encryptPage gcm_encrypt randomBytes.
Definition decryptPage := Crypto.decryptPage gcm_decrypt.

(** The empty plaintext encrypted for page 0 of the file [fileId1]. *)
Definition page0 : bytes :=
  match (encryptPage 0 [] 0 key1 fileId1).1 with
  | inr page => page
  | inl _ => []
  end.


Definition constructor := EncryptedFS.constructor gcm_encrypt gcm_decrypt randomBytes sha256.
Definition open := EncryptedFS.open randomBytes ERRNO_CODES.
Definition close := EncryptedFS.close ERRNO_CODES.
Definition read := EncryptedFS.read gcm_decrypt ERRNO_CODES.
Definition write := EncryptedFS.write gcm_encrypt gcm_decrypt randomBytes ERRNO_CODES.
Definition truncate := EncryptedFS.truncate gcm_encrypt randomBytes ERRNO_CODES.
Definition fstat := EncryptedFS.fstat ERRNO_CODES.
Definition lstat := EncryptedFS.lstat ERRNO_CODES.
Definition fsync := EncryptedFS.fsync ERRNO_CODES.
Definition writeFile :=
  EncryptedFS.writeFile gcm_encrypt gcm_decrypt randomBytes ERRNO_CODES.

Definition salt1 : bytes := replicate 16 x05.

(** A host holding the empty directory [/data]. *)
Definition host0 : Host :=
  {| files := ∅; dirs := {[ "/data"%string := 4096 ]}; fds := ∅; next_fd := 3 |}.

Definition blank : State :=
  {| dataDir := "/data"; encKey := key1; salt := salt1; openFiles := ∅;
     cwd := "/"; nextFd := 100; destroyed := false; host := host0; rng := 0 |}.

(** [new EncryptedFS('/data', key1, salt1)] on [host0]. *)
Definition fs0 : State :=
  match constructor host0 0 "/data" key1 salt1 with
  | inr s => s
  | inl _ => blank
  end.

(** [fd = open('/f', 'w')], which is descriptor 100. *)
Definition fs1 : State := (open fs0 "/f" (inr "w"%string)).2.

(** [write(fd, Buffer.alloc(PAGE_SIZE, 0xff), 0, PAGE_SIZE, 0)] *)
Definition fs2 : State := (write fs1 100 (Buffer_fill PAGE_SIZE xff) 0 PAGE_SIZE (Some 0)).2.

(** [close(fd)] *)
Definition fs3 : State := (close fs2 100).2.

Definition patch : bytes := bytes_of_string "0123456789".

(** [fd = open('/f', 'r+')] after the close, which is descriptor 101. *)
Definition fs4 : State := (open fs3 "/f" (inr "r+"%string)).2.

(** The host file [p] replaced by [d], as by another process. *)
Definition host_put (s : State) (p : string) (d : bytes) : State :=
  with_host s (with_files (host s) (<[p := d]> (files (host s)))).

Definition host_get (s : State) (p : string) : bytes :=
  default [] (files (host s) !! p).

(** The host of [fs0] with the token file cut to 100 bytes. *)
Definition host_cut_token : Host :=
  with_files (host fs0)
    (<["/data/.encryption-verify"%string :=
         take (Z.to_nat 100) (host_get fs0 "/data/.encryption-verify")]>
       (files (host fs0))).

(** The handle behind a virtual descriptor, and the host's record of a
    real descriptor. *)
Definition handle (s : State) (fd : Z) : OpenFile :=
  default {| realFd := -1; path := ""; flags := ""; position := 0;
             encrypted := false; fileId := [] |} (openFiles s !! fd).

Definition host_fd (s : State) (fd : Z) : HostFd :=
  default {| fd_path := ""; fd_read := false; fd_write := false; fd_append := false |}
    (fds (host s) !! fd).

(** [fs4] after the host file lost its last 10 bytes: 8258 bytes, a header
    and a cut page. *)
Definition fs_cut : State :=
  host_put fs4 "/data/f" (take (Z.to_nat 8258) (host_get fs4 "/data/f")).

End Sample.

(** * Properties *)

(** ** Buffer arithmetic *)

Lemma blen_nonneg (b : bytes) : 0 <= blen b.
Proof. unfold blen. lia. Qed.

Lemma blen_app (a b : bytes) : blen (a ++ b) = blen a + blen b.
Proof. unfold blen. rewrite length_app. lia. Qed.

Lemma blen_replicate (n : nat) (x : byte) : blen (replicate n x) = Z.of_nat n.
Proof. unfold blen. by rewrite length_replicate. Qed.

Lemma blen_alloc (n : Z) : 0 <= n → blen (Buffer_alloc n) = n.
Proof. intros. unfold Buffer_alloc. rewrite blen_replicate. lia. Qed.

Lemma blen_take (n : Z) (b : bytes) :
  0 <= n → blen (take (Z.to_nat n) b) = Z.min n (blen b).
Proof. intros. unfold blen. rewrite length_take. lia. Qed.

Lemma blen_drop (n : Z) (b : bytes) :
  0 <= n → blen (drop (Z.to_nat n) b) = Z.max 0 (blen b - n).
Proof. intros. unfold blen. rewrite length_drop. lia. Qed.

Lemma blen_nil_inv (b : bytes) : blen b = 0 → b = [].
Proof. unfold blen. destruct b; simpl; [done | lia]. Qed.

Lemma take_blen_app (a b : bytes) (n : Z) : n = blen a → take (Z.to_nat n) (a ++ b) = a.
Proof.
  intros ->. unfold blen. rewrite Nat2Z.id. by rewrite take_app_length.
Qed.

Lemma drop_blen_app (a b : bytes) (n : Z) : n = blen a → drop (Z.to_nat n) (a ++ b) = b.
Proof.
  intros ->. unfold blen. rewrite Nat2Z.id. by rewrite drop_app_length.
Qed.

(** [plaintext.copy(Buffer.alloc(n))] pads with zeros. *)
Lemma Buffer_copy_pad (pt : bytes) (n : Z) :
  blen pt <= n →
  Buffer_copy pt (Buffer_alloc n) 0 0 (blen pt)
  = inr (pt ++ replicate (Z.to_nat (n - blen pt)) x00).
Proof.
  intros Hle. pose proof (blen_nonneg pt) as Hpt.
  unfold Buffer_copy. rewrite blen_alloc by lia.
  repeat case_bool_decide; try lia.
  - assert (blen pt = 0) as Hz by lia.
    rewrite (blen_nil_inv pt Hz) in *. simpl.
    unfold Buffer_alloc. do 2 f_equal. f_equal. unfold blen; simpl; lia.
  - replace (Z.min (blen pt - 0) (blen pt - 0)) with (blen pt) by lia.
    change (Z.to_nat 0) with 0%nat. rewrite drop_0, Z.add_0_l, take_0.
    rewrite (take_ge pt) by (unfold blen; lia). cbn [app].
    do 2 f_equal. unfold Buffer_alloc. rewrite drop_replicate. f_equal.
    unfold blen. lia.
Qed.

Section Codec_properties.

Context (gcm_encrypt : bytes → bytes → bytes → bytes → JsError + (bytes * bytes))
        (gcm_decrypt : bytes → bytes → bytes → bytes → bytes → JsError + bytes)
        (randomBytes : Z → Z → bytes).

Import Crypto.

Local Abbreviation encryptPage := (Crypto.encryptPage gcm_encrypt randomBytes).
Local Abbreviation decryptPage := (Crypto.decryptPage gcm_decrypt).

Lemma blen_padded_page (pt : bytes) :
  blen pt <= PAGE_SIZE → blen (padded_page pt) = PAGE_SIZE.
Proof.
  intros. pose proof (blen_nonneg pt). unfold padded_page.
  rewrite blen_app, blen_replicate. lia.
Qed.

Lemma padded_page_full (pt : bytes) : blen pt = PAGE_SIZE → padded_page pt = pt.
Proof.
  intros H. unfold padded_page. rewrite H, Z.sub_diag. simpl. apply app_nil_r.
Qed.

(** What [encryptPage] returns on a page number in range. *)
Lemma encryptPage_unfold rng pt pageNo key fileId :
  0 <= pageNo <= 4294967295 → blen pt <= PAGE_SIZE →
  encryptPage rng pt pageNo key fileId =
    match gcm_encrypt key (randomBytes rng IV_SIZE) (aad_of fileId pageNo)
            (padded_page pt) with
    | inl e => (inl e, rng + 1)
    | inr (ct, tag) => (inr (randomBytes rng IV_SIZE ++ tag ++ ct), rng + 1)
    end.
Proof.
  intros Hp Hpt. unfold Crypto.encryptPage.
  rewrite bool_decide_eq_false_2 by lia.
  case_bool_decide as Hlen.
  - by rewrite Buffer_copy_pad.
  - by rewrite padded_page_full by lia.
Qed.

(** [decryptPage] splits a well-sized page at the IV and tag boundaries. *)
Lemma decryptPage_parts iv tag ct pageNo key fileId :
  0 <= pageNo <= 4294967295 →
  blen iv = IV_SIZE → blen tag = AUTH_TAG_SIZE → blen ct = PAGE_SIZE →
  decryptPage (iv ++ tag ++ ct) pageNo key fileId =
    match gcm_decrypt key iv (aad_of fileId pageNo) tag ct with
    | inr plain => inr plain
    | inl e =>
        inl (new_Error_cause
               ("Decryption failed for page " +:+ show_Z pageNo
                  +:+ ": authentication failed.") e)
    end.
Proof.
  intros Hp Hiv Htag Hct. unfold Crypto.decryptPage.
  rewrite bool_decide_eq_false_2 by lia.
  rewrite bool_decide_eq_false_2.
  2: { rewrite !blen_app, Hiv, Htag, Hct. intros Hne. by apply Hne. }
  unfold subarray, subarray_from.
  change (Z.to_nat 0) with 0%nat. rewrite drop_0.
  rewrite (take_blen_app iv) by (rewrite Hiv; lia).
  rewrite (drop_blen_app iv) by (rewrite Hiv; lia).
  rewrite (take_blen_app tag) by (rewrite Htag; unfold IV_SIZE, AUTH_TAG_SIZE; lia).
  rewrite app_assoc.
  rewrite (drop_blen_app (iv ++ tag)) by (rewrite blen_app, Hiv, Htag; lia).
  done.
Qed.

(** C6 (amended): when [decryptPage] gets past its range and size checks
    and fails, the cipher rejected the input, whatever the reason (tag, IV,
    ciphertext, file id, page number or key).  The error text is then
    "Decryption failed for page <pageNo>: authentication failed.": it is
    fixed by the page number alone, so two failures at the same page number
    carry the same text whatever the keys, file ids and page bytes were,
    and the cipher's own error is attached as the cause. *)
Theorem C6_auth_failure_text_fixed_by_page_number
    pageNo page1 key1 fileId1 e1 page2 key2 fileId2 e2 :
  0 <= pageNo <= 4294967295 →
  blen page1 = ENCRYPTED_PAGE_SIZE → blen page2 = ENCRYPTED_PAGE_SIZE →
  decryptPage page1 pageNo key1 fileId1 = inl e1 →
  decryptPage page2 pageNo key2 fileId2 = inl e2 →
  message e1 = "Decryption failed for page " +:+ show_Z pageNo
                 +:+ ": authentication failed." ∧
  message e2 = message e1 ∧
  code e1 = None ∧ errno e1 = None ∧
  ∃ e, cause e1 = Some e ∧
       gcm_decrypt key1 (subarray page1 0 IV_SIZE) (aad_of fileId1 pageNo)
         (subarray page1 IV_SIZE (IV_SIZE + AUTH_TAG_SIZE))
         (subarray_from page1 (IV_SIZE + AUTH_TAG_SIZE)) = inl e.
Proof.
  intros Hp H1 H2. unfold Crypto.decryptPage.
  rewrite bool_decide_eq_false_2 by lia.
  rewrite !bool_decide_eq_false_2 by (intros Hne; by apply Hne).
  destruct (gcm_decrypt key1 _ _ _ _) as [c1|] eqn:Hc1; [|done].
  destruct (gcm_decrypt key2 _ _ _ _) as [c2|]; [|done].
  intros [= <-] [= <-]. simpl. repeat split; eauto.
Qed.

Hypothesis Hlengths : gcm_lengths gcm_encrypt.
Hypothesis Hroundtrip : gcm_roundtrip gcm_encrypt gcm_decrypt.
Hypothesis Hrandom : random_lengths randomBytes.

(** An encrypted page has [ENCRYPTED_PAGE_SIZE] bytes and decrypts, under
    the same page number, key and file id, to the padded plaintext. *)
Lemma encryptPage_decryptPage rng pt pageNo key fileId :
  blen key = 32 → 0 <= pageNo <= 4294967295 → blen pt <= PAGE_SIZE →
  ∃ page, encryptPage rng pt pageNo key fileId = (inr page, rng + 1) ∧
          blen page = ENCRYPTED_PAGE_SIZE ∧
          decryptPage page pageNo key fileId = inr (padded_page pt).
Proof.
  intros Hkey Hp Hpt.
  assert (blen (randomBytes rng IV_SIZE) = IV_SIZE) as Hiv by (by apply Hrandom).
  destruct (Hroundtrip key (randomBytes rng IV_SIZE) (aad_of fileId pageNo)
              (padded_page pt) Hkey Hiv) as (ct & tag & Henc & Hdec).
  destruct (Hlengths _ _ _ _ _ _ Henc) as [Hct Htag].
  rewrite blen_padded_page in Hct by done.
  exists (randomBytes rng IV_SIZE ++ tag ++ ct). split; [|split].
  - rewrite encryptPage_unfold by done. by rewrite Henc.
  - rewrite !blen_app, Hiv, Htag, Hct. done.
  - rewrite decryptPage_parts by done. by rewrite Hdec.
Qed.

(** A page that [encryptPage] returns has [ENCRYPTED_PAGE_SIZE] bytes, and
    one random draw was made. *)
Lemma encryptPage_length rng pt pageNo key fileId page r' :
  blen pt <= PAGE_SIZE →
  encryptPage rng pt pageNo key fileId = (inr page, r') →
  blen page = ENCRYPTED_PAGE_SIZE ∧ r' = rng + 1.
Proof.
  intros Hpt. destruct (decide (0 <= pageNo <= 4294967295)) as [Hp|Hp].
  - rewrite encryptPage_unfold by done.
    destruct (gcm_encrypt _ _ _ _) as [e|[ct tag]] eqn:Henc; [done|].
    intros [= <- <-]. split; [|done].
    destruct (Hlengths _ _ _ _ _ _ Henc) as [Hct Htag].
    rewrite blen_padded_page in Hct by done.
    rewrite !blen_app, Hct, Htag, (Hrandom rng IV_SIZE) by done. done.
  - unfold Crypto.encryptPage. by rewrite bool_decide_eq_true_2 by lia.
Qed.

(** C1: for a 32-byte key, a page number in [0, 2^32) and a plaintext of at
    most PAGE_SIZE bytes, [encryptPage] succeeds and [decryptPage] of its
    output under the same page number, key and file id returns the plaintext
    zero-padded to exactly PAGE_SIZE bytes. *)
Theorem C1_decrypt_encrypt_is_padded_plaintext rng pt pageNo key fileId :
  blen key = 32 → blen fileId = 32 → 0 <= pageNo < 2 ^ 32 → blen pt <= PAGE_SIZE →
  ∃ page, (encryptPage rng pt pageNo key fileId).1 = inr page ∧
          decryptPage page pageNo key fileId
          = inr (pt ++ replicate (Z.to_nat (PAGE_SIZE - blen pt)) x00) ∧
          blen (pt ++ replicate (Z.to_nat (PAGE_SIZE - blen pt)) x00) = PAGE_SIZE.
Proof.
  intros Hkey _ Hp Hpt.
  destruct (encryptPage_decryptPage rng pt pageNo key fileId) as (page & He & _ & Hd);
    [done | lia | done |].
  exists page. rewrite He. split; [done|]. split; [done|].
  by apply blen_padded_page.
Qed.

End Codec_properties.

(** ** The sample cipher meets the assumptions *)

Section Sample_properties.

Import Crypto.

Lemma sample_gcm_lengths : gcm_lengths Sample.gcm_encrypt.
Proof.
  intros key iv aad pt ct tag. unfold Sample.gcm_encrypt.
  case_bool_decide; [done|]. intros [= <- <-]. split.
  - unfold blen. by rewrite length_reverse.
  - unfold Sample.tag_of. by rewrite blen_replicate.
Qed.

Lemma sample_gcm_roundtrip : gcm_roundtrip Sample.gcm_encrypt Sample.gcm_decrypt.
Proof.
  intros key iv aad pt Hkey Hiv. unfold Sample.gcm_encrypt, Sample.gcm_decrypt.
  rewrite !bool_decide_eq_false_2 by (intros Hne; by apply Hne).
  eexists _, _. split; [done|].
  rewrite bool_decide_eq_true_2 by done. by rewrite reverse_involutive.
Qed.

Lemma sample_random_lengths : random_lengths Sample.randomBytes.
Proof.
  intros s n Hn. unfold Sample.randomBytes. rewrite blen_replicate. lia.
Qed.

End Sample_properties.

(** C1 at a five-byte plaintext, page 7. *)
Lemma C1_decrypt_encrypt_witness :
  ∃ page,
    (Sample.encryptPage 0 (Crypto.bytes_of_string "hello") 7 Sample.key1
       Sample.fileId1).1 = inr page ∧
    Sample.decryptPage page 7 Sample.key1 Sample.fileId1
    = inr (Crypto.bytes_of_string "hello"
             ++ replicate (Z.to_nat (Crypto.PAGE_SIZE
                                     - blen (Crypto.bytes_of_string "hello"))) x00) ∧
    blen (Crypto.bytes_of_string "hello"
            ++ replicate (Z.to_nat (Crypto.PAGE_SIZE
                                    - blen (Crypto.bytes_of_string "hello"))) x00)
    = Crypto.PAGE_SIZE.
Proof.
  apply (C1_decrypt_encrypt_is_padded_plaintext
           Sample.gcm_encrypt Sample.gcm_decrypt Sample.randomBytes
           sample_gcm_lengths sample_gcm_roundtrip sample_random_lengths).
  - reflexivity.
  - reflexivity.
  - lia.
  - vm_compute. discriminate.
Defined.

(** C6 as stated fails: the text of an authentication failure is not one
    constant string.  A page encrypted for page 0 is rejected at page 1 and
    at page 2, and the two texts differ. *)
Lemma C6_auth_failure_text_not_constant :
  ¬ ∃ text : string,
      ∀ page pageNo key fileId e,
        Sample.decryptPage page pageNo key fileId = inl e →
        is_Some (cause e) → message e = text.
Proof.
  intros [text H].
  pose (rejected := new_Error "Unsupported state or unable to authenticate data").
  assert (Sample.decryptPage Sample.page0 1 Sample.key1 Sample.fileId1
          = inl (new_Error_cause
                   "Decryption failed for page 1: authentication failed." rejected))
    as H1 by (vm_compute; reflexivity).
  assert (Sample.decryptPage Sample.page0 2 Sample.key1 Sample.fileId1
          = inl (new_Error_cause
                   "Decryption failed for page 2: authentication failed." rejected))
    as H2 by (vm_compute; reflexivity).
  apply H in H1; [|by eexists]. apply H in H2; [|by eexists].
  simpl in H1, H2. rewrite <- H2 in H1. discriminate.
Qed.

(** C6 (amended) at page 1: a page encrypted for page 0 is rejected there
    under the right key (page number mismatch) and under another key, with
    the same text. *)
Lemma C6_auth_failure_text_witness :
  let rejected := new_Error "Unsupported state or unable to authenticate data" in
  let e := new_Error_cause "Decryption failed for page 1: authentication failed."
             rejected in
  message e = "Decryption failed for page " +:+ show_Z 1
                +:+ ": authentication failed." ∧
  message e = message e ∧
  code e = None ∧ errno e = None ∧
  ∃ e0, cause e = Some e0 ∧
        Sample.gcm_decrypt Sample.key1 (subarray Sample.page0 0 Crypto.IV_SIZE)
          (Crypto.aad_of Sample.fileId1 1)
          (subarray Sample.page0 Crypto.IV_SIZE
             (Crypto.IV_SIZE + Crypto.AUTH_TAG_SIZE))
          (subarray_from Sample.page0 (Crypto.IV_SIZE + Crypto.AUTH_TAG_SIZE))
        = inl e0.
Proof.
  intros rejected e.
  apply (C6_auth_failure_text_fixed_by_page_number Sample.gcm_decrypt
           1 Sample.page0 Sample.key1 Sample.fileId1 e
           Sample.page0 Sample.key2 Sample.fileId1 e).
  - lia.
  - vm_compute; reflexivity.
  - vm_compute; reflexivity.
  - vm_compute; reflexivity.
  - vm_compute; reflexivity.
Defined.

(** ** The filesystem facade *)

Section Facade_properties.

Context (gcm_encrypt : bytes → bytes → bytes → bytes → JsError + (bytes * bytes))
        (gcm_decrypt : bytes → bytes → bytes → bytes → bytes → JsError + bytes)
        (randomBytes : Z → Z → bytes)
        (sha256 : bytes → bytes)
        (ERRNO_CODES : string → option Z).

Import Crypto HostFs EncryptedFS.

Local Abbreviation createError := (EncryptedFS.createError ERRNO_CODES).
Local Abbreviation read := (EncryptedFS.read gcm_decrypt ERRNO_CODES).
Local Abbreviation write :=
  (EncryptedFS.write gcm_encrypt gcm_decrypt randomBytes ERRNO_CODES).
Local Abbreviation open := (EncryptedFS.open randomBytes ERRNO_CODES).
Local Abbreviation close := (EncryptedFS.close ERRNO_CODES).
Local Abbreviation truncate :=
  (EncryptedFS.truncate gcm_encrypt randomBytes ERRNO_CODES).
Local Abbreviation fstat := (EncryptedFS.fstat ERRNO_CODES).
Local Abbreviation run_call :=
  (EncryptedFS.run_call gcm_encrypt gcm_decrypt randomBytes ERRNO_CODES).
Local Abbreviation run_calls :=
  (EncryptedFS.run_calls gcm_encrypt gcm_decrypt randomBytes ERRNO_CODES).

(** *** Teardown *)

Lemma destroy_destroyed (s : State) : destroyed (destroy s) = true.
Proof. unfold destroy. by destruct (destroyed s) eqn:E. Qed.

Lemma destroy_idempotent (s : State) : destroy (destroy s) = destroy s.
Proof. unfold destroy at 1. by rewrite destroy_destroyed. Qed.

Lemma destroy_openFiles (s : State) : openFiles (destroy s) = openFiles s.
Proof. unfold destroy. by destruct (destroyed s). Qed.

Lemma read_destroyed (s : State) fd file buffer offset length pos :
  destroyed s = true → openFiles s !! fd = Some file →
  read s fd buffer offset length pos
  = (inl (createError "EIO" "filesystem has been destroyed" None), buffer, s).
Proof. intros Hd Hf. unfold EncryptedFS.read. by rewrite Hf, Hd. Qed.

Lemma write_destroyed (s : State) fd file buffer offset length pos :
  destroyed s = true → openFiles s !! fd = Some file →
  write s fd buffer offset length pos
  = (inl (createError "EIO" "filesystem has been destroyed" None), s).
Proof. intros Hd Hf. unfold EncryptedFS.write. by rewrite Hf, Hd. Qed.

Lemma open_destroyed (s : State) p f : destroyed (open s p f).2 = destroyed s.
Proof.
  unfold EncryptedFS.open.
  enough (∀ q nf, destroyed (open_body randomBytes ERRNO_CODES s q nf).2 = destroyed s) as H.
  { specialize (H (normalizePath s p) (emFlagsToNode' f)).
    by destruct (open_body _ _ _ _ _) as [[e|fd] s']. }
  intros q nf. unfold open_body.
  destruct (existsSync _ _ && _); [done|].
  match goal with
  | |- context [if ?c then initializeEncryptedFile ?a1 ?a2 ?a3 ?a4 ?a5 else ?z] =>
      destruct (if c then initializeEncryptedFile a1 a2 a3 a4 a5 else z)
        as [[[e|fileId0] h1] r1]
  end; [done|].
  destruct (openSync _ _ _) as [[e|fd] h2]; [done|].
  by destruct (open_header _ _ _ _ _ _ _ _ _ _) as [[[e|fileId] h3] r3].
Qed.

Lemma close_destroyed (s : State) fd : destroyed (close s fd).2 = destroyed s.
Proof.
  unfold EncryptedFS.close.
  destruct (openFiles s !! fd) as [file|]; [|done].
  match goal with
  | |- context [if ?c then closeSync ?h ?k else ?z] =>
      by destruct (if c then closeSync h k else z) as [[e|[]] h']
  end.
Qed.

Lemma truncate_destroyed (s : State) p len : destroyed (truncate s p len).2 = destroyed s.
Proof.
  unfold EncryptedFS.truncate.
  destruct (negb (shouldEncrypt p)).
  { by destruct (truncateSync _ _ _) as [r h]. }
  case_bool_decide.
  - by destruct (truncate_grow _ _ _ _ _ _ _ _) as [[res h] r].
  - by destruct (truncateSync _ _ _) as [r h].
Qed.

Lemma write_pages_destroyed s file buffer offset length logicalPos n pageNo total :
  destroyed (EncryptedFS.write_pages gcm_encrypt gcm_decrypt randomBytes ERRNO_CODES
               s file buffer offset length logicalPos n pageNo total).2
  = destroyed s.
Proof.
  revert s pageNo total. induction n as [|n IH]; intros s pageNo total; simpl; [done|].
  destruct (write_load_page _ _ _ _ _) as [e|pagePlain]; [done|].
  destruct (Buffer_copy _ _ _ _ _) as [e|pagePlain']; [done|].
  destruct (encryptPage _ _ _ _ _ _ _) as [[e|page] r]; [done|].
  destruct (writeSync _ _ _ _ _ _) as [[e|k] h]; [done|].
  by rewrite IH.
Qed.

Lemma write_keeps_destroyed (s : State) fd buffer offset length pos :
  destroyed (write s fd buffer offset length pos).2 = destroyed s.
Proof.
  unfold EncryptedFS.write.
  destruct (openFiles s !! fd) as [file|]; [|done].
  destruct (destroyed s) eqn:Hd; [by simpl|].
  case_bool_decide; [by simpl|]. case_bool_decide; [by simpl|].
  destruct (negb (encrypted file)).
  - destruct (writeSync _ _ _ _ _ _) as [[e|k] h]; by simpl.
  - match goal with
    | |- context [EncryptedFS.write_pages ?a ?b ?c ?d ?s ?f ?bu ?o ?l ?lp ?n ?pn ?t] =>
        pose proof (write_pages_destroyed s f bu o l lp n pn t) as Hw;
        destruct (EncryptedFS.write_pages a b c d s f bu o l lp n pn t) as [[e|k] s']
    end; simpl in *; by rewrite <- Hd.
Qed.

Lemma read_keeps_destroyed (s : State) fd buffer offset length pos :
  destroyed (read s fd buffer offset length pos).2 = destroyed s.
Proof.
  unfold EncryptedFS.read.
  destruct (openFiles s !! fd) as [file|]; [|done].
  destruct (destroyed s) eqn:Hd; [by simpl|].
  case_bool_decide; [by simpl|]. case_bool_decide; [by simpl|].
  destruct (negb (encrypted file)).
  - destruct (readSync _ _ _ _ _ _) as [e|[k b]]; by simpl.
  - destruct (read_pages _ _ _ _ _ _ _ _ _ _ _) as [[e|k] b]; by simpl.
Qed.

Lemma run_call_destroyed (s : State) (c : Call) :
  destroyed s = true → destroyed (run_call s c) = true.
Proof.
  intros Hd. destruct c; simpl.
  - by rewrite open_destroyed.
  - by rewrite close_destroyed.
  - by rewrite read_keeps_destroyed.
  - by rewrite write_keeps_destroyed.
  - done.
  - by rewrite truncate_destroyed.
  - apply destroy_destroyed.
Qed.

Lemma run_calls_destroyed (cs : list Call) (s : State) :
  destroyed s = true → destroyed (run_calls s cs) = true.
Proof.
  revert s. induction cs as [|c cs IH]; intros s Hd; simpl; [done|].
  apply IH. by apply run_call_destroyed.
Qed.

(** C9: after [destroy], and after any further calls, every [read] and
    every [write] on an open handle fails with EIO (errno 5) and changes
    nothing; a second [destroy] leaves the state as the first one did. *)
Theorem C9_after_destroy_read_write_fail_EIO
    (s : State) (calls : list Call) fd buffer offset length pos :
  let s' := run_calls (destroy s) calls in
  is_Some (openFiles s' !! fd) →
  (∃ e, read s' fd buffer offset length pos = (inl e, buffer, s') ∧
        code e = Some "EIO"%string ∧ errno e = Some EIO) ∧
  (∃ e, write s' fd buffer offset length pos = (inl e, s') ∧
        code e = Some "EIO"%string ∧ errno e = Some EIO) ∧
  destroy (destroy s) = destroy s ∧
  destroy s' = s'.
Proof.
  intros s' [file Hf].
  assert (destroyed s' = true) as Hd
    by (apply run_calls_destroyed, destroy_destroyed).
  split; [|split; [|split]].
  - eexists. split; [by eapply read_destroyed|]. done.
  - eexists. split; [by eapply write_destroyed|]. done.
  - apply destroy_idempotent.
  - unfold destroy. by rewrite Hd.
Qed.

(** *** Position argument *)

Lemma with_position_same (file : OpenFile) :
  with_position file (position file + 0) = file.
Proof. destruct file. unfold with_position. simpl. f_equal. lia. Qed.

Lemma read_position fd file (s : State) buffer offset length n buffer' s' :
  openFiles s !! fd = Some file →
  read s fd buffer offset length None = (inr n, buffer', s') →
  openFiles s' !! fd = Some (with_position file (position file + n)).
Proof.
  intros Hf. unfold EncryptedFS.read. rewrite Hf.
  destruct (destroyed s); [done|].
  case_bool_decide.
  { intros [= <- <- <-]. by rewrite with_position_same. }
  case_bool_decide; [done|].
  destruct (negb (encrypted file)).
  - destruct (readSync _ _ _ _ _ _) as [e|[k b]]; [done|].
    intros [= <- <- <-]. simpl. by rewrite lookup_insert_eq.
  - destruct (read_pages _ _ _ _ _ _ _ _ _ _ _) as [[e|k] b]; [done|].
    intros [= <- <- <-]. simpl. by rewrite lookup_insert_eq.
Qed.

Lemma write_position fd file (s : State) buffer offset length n s' :
  openFiles s !! fd = Some file →
  write s fd buffer offset length None = (inr n, s') →
  openFiles s' !! fd = Some (with_position file (position file + n)).
Proof.
  intros Hf. unfold EncryptedFS.write. rewrite Hf.
  destruct (destroyed s); [done|].
  case_bool_decide.
  { intros [= <- <-]. by rewrite with_position_same. }
  case_bool_decide; [done|].
  destruct (negb (encrypted file)).
  - destruct (writeSync _ _ _ _ _ _) as [[e|k] h]; [done|].
    intros [= <- <-]. simpl. by rewrite lookup_insert_eq.
  - destruct (write_pages _ _ _ _ _ _ _ _ _ _ _ _ _) as [[e|k] s'']; [done|].
    intros [= <- <-]. simpl. by rewrite lookup_insert_eq.
Qed.

(** C10: a [read] or [write] whose position argument is negative is the
    same call as one without a position: it works at the handle's current
    position, and on success the handle's position has advanced by the
    count returned. *)
Theorem C10_negative_position_means_current
    (s : State) fd buffer offset length (p : Z) :
  p < 0 →
  read s fd buffer offset length (Some p) = read s fd buffer offset length None ∧
  write s fd buffer offset length (Some p) = write s fd buffer offset length None ∧
  (∀ file n buffer' s',
     openFiles s !! fd = Some file →
     read s fd buffer offset length (Some p) = (inr n, buffer', s') →
     openFiles s' !! fd = Some (with_position file (position file + n))) ∧
  (∀ file n s',
     openFiles s !! fd = Some file →
     write s fd buffer offset length (Some p) = (inr n, s') →
     openFiles s' !! fd = Some (with_position file (position file + n))).
Proof.
  intros Hp.
  assert (read s fd buffer offset length (Some p) = read s fd buffer offset length None)
    as Hr by (unfold EncryptedFS.read, logicalPos_of;
              by rewrite (bool_decide_eq_true_2 (p < 0))).
  assert (write s fd buffer offset length (Some p) = write s fd buffer offset length None)
    as Hw by (unfold EncryptedFS.write, logicalPos_of;
              by rewrite (bool_decide_eq_true_2 (p < 0))).
  split; [done|]. split; [done|]. split.
  - intros file n buffer' s' Hf. rewrite Hr. by apply read_position.
  - intros file n s' Hf. rewrite Hw. by apply write_position.
Qed.

(** *** Size reporting *)

Lemma logicalSizeFromPhysical_cases (physical : Z) :
  (physical < FILE_HEADER_SIZE →
   logicalSizeFromPhysical ERRNO_CODES physical = inr 0) ∧
  (FILE_HEADER_SIZE <= physical →
   (physical - FILE_HEADER_SIZE) mod ENCRYPTED_PAGE_SIZE = 0 →
   logicalSizeFromPhysical ERRNO_CODES physical
   = inr ((physical - FILE_HEADER_SIZE) / ENCRYPTED_PAGE_SIZE * PAGE_SIZE)) ∧
  (FILE_HEADER_SIZE <= physical →
   (physical - FILE_HEADER_SIZE) mod ENCRYPTED_PAGE_SIZE ≠ 0 →
   ∃ e, logicalSizeFromPhysical ERRNO_CODES physical = inl e ∧
        code e = Some "EIO"%string ∧ errno e = Some EIO).
Proof.
  unfold logicalSizeFromPhysical. split; [|split].
  - intros H. by rewrite bool_decide_eq_true_2.
  - intros H Hm. rewrite bool_decide_eq_false_2 by lia.
    case_bool_decide as H0; [by rewrite H0|].
    rewrite Z.rem_mod_nonneg by (unfold ENCRYPTED_PAGE_SIZE, PAGE_SIZE, IV_SIZE, AUTH_TAG_SIZE; lia).
    rewrite bool_decide_eq_false_2; [done|]. intros Hne. by apply Hne.
  - intros H Hm. rewrite bool_decide_eq_false_2 by lia.
    case_bool_decide as H0; [by rewrite H0 in Hm|].
    rewrite Z.rem_mod_nonneg by (unfold ENCRYPTED_PAGE_SIZE, PAGE_SIZE, IV_SIZE, AUTH_TAG_SIZE; lia).
    rewrite bool_decide_eq_true_2 by done. by eexists.
Qed.

(** C4 (amended): for an open regular file that the facade treats as
    encrypted, with [physical] bytes on disk, [fstat] reports size 0 when
    [physical < FILE_HEADER_SIZE]; reports
    [(physical - FILE_HEADER_SIZE) / ENCRYPTED_PAGE_SIZE * PAGE_SIZE] when
    [physical >= FILE_HEADER_SIZE] and the payload is a whole number of
    encrypted pages; and fails with EIO when the payload ends in a partial
    page. *)
Theorem C4_fstat_reports_logical_size (s : State) fd file hfd d :
  openFiles s !! fd = Some file →
  realFd file ≠ -1 →
  fds (host s) !! realFd file = Some hfd →
  files (host s) !! fd_path hfd = Some d →
  shouldEncrypt (remove_first (path file) (dataDir s +:+ "/")) = true →
  let physical := blen d in
  (physical < FILE_HEADER_SIZE → fstat s fd = inr {| size := 0 |}) ∧
  (FILE_HEADER_SIZE <= physical →
   (physical - FILE_HEADER_SIZE) mod ENCRYPTED_PAGE_SIZE = 0 →
   fstat s fd
   = inr {| size := (physical - FILE_HEADER_SIZE) / ENCRYPTED_PAGE_SIZE * PAGE_SIZE |}) ∧
  (FILE_HEADER_SIZE <= physical →
   (physical - FILE_HEADER_SIZE) mod ENCRYPTED_PAGE_SIZE ≠ 0 →
   ∃ e, fstat s fd = inl e ∧ code e = Some "EIO"%string ∧ errno e = Some EIO).
Proof.
  intros Hf Hfd Hh Hd Henc physical.
  destruct (logicalSizeFromPhysical_cases physical) as (L1 & L2 & L3).
  unfold EncryptedFS.fstat. rewrite Hf.
  rewrite bool_decide_eq_false_2 by done.
  unfold fstatSync. rewrite Hh, Hd. simpl. rewrite Henc. fold physical.
  split; [|split].
  - intros H. by rewrite L1.
  - intros H Hm. by rewrite L2.
  - intros H Hm. destruct (L3 H Hm) as (e & -> & He). by exists e.
Qed.

(** *** Verification token *)

Local Abbreviation constructor :=
  (EncryptedFS.constructor gcm_encrypt gcm_decrypt randomBytes sha256).
Local Abbreviation verifyOrCreateToken :=
  (EncryptedFS.verifyOrCreateToken gcm_encrypt gcm_decrypt randomBytes sha256).
Local Abbreviation VERIFICATION_FILE_ID := (Crypto.VERIFICATION_FILE_ID sha256).

Lemma existsSync_file (h : Host) (p : string) (d : bytes) :
  files h !! p = Some d → existsSync h p = true.
Proof. intros H. unfold existsSync. by rewrite H. Qed.

(** What [verifyOrCreateToken] does with a token file that is there. *)
Lemma verifyOrCreateToken_present (h : Host) r key dir data :
  files h !! Path.join dir ".encryption-verify" = Some data →
  verifyOrCreateToken h r key dir =
    if bool_decide (blen data ≠ ENCRYPTED_PAGE_SIZE) then
      (inl (new_Error INVALID_PASSPHRASE), h, r)
    else
      match Crypto.decryptPage gcm_decrypt data 0 key VERIFICATION_FILE_ID with
      | inl e => (inl (new_Error_cause INVALID_PASSPHRASE e), h, r)
      | inr decrypted =>
          if bool_decide (subarray decrypted 0 (blen VERIFICATION_MAGIC)
                            ≠ VERIFICATION_MAGIC)
          then (inl (new_Error INVALID_PASSPHRASE), h, r)
          else (inr (), h, r)
      end.
Proof.
  intros Hd. unfold EncryptedFS.verifyOrCreateToken.
  rewrite (existsSync_file _ _ _ Hd). simpl.
  unfold readFileSync. rewrite Hd.
  case_bool_decide as Hlen; [done|].
  destruct (Crypto.decryptPage _ _ _ _ _) as [e|decrypted] eqn:Hdec.
  - unfold Crypto.decryptPage in Hdec.
    rewrite bool_decide_eq_false_2 in Hdec by lia.
    rewrite bool_decide_eq_false_2 in Hdec by (intros Hne; by apply Hne).
    destruct (gcm_decrypt _ _ _ _ _) as [e0|]; [|done].
    injection Hdec as <-. done.
  - by case_bool_decide.
Qed.

(** C5 (amended): when the token file is there and has the wrong length,
    fails to decrypt under the key, or decrypts to a page whose prefix is
    not the magic constant, the constructor throws: no instance is made and
    no file is touched.  The error's message is the constant text, it has
    no code, and it carries a cause exactly when decryption failed (the
    cause is then the error of [decryptPage]); for a wrong length or a
    wrong prefix there is no cause. *)
Theorem C5_bad_token_is_invalid_passphrase (h : Host) r dir key slt data :
  files h !! Path.join dir ".encryption-verify" = Some data →
  (blen data ≠ ENCRYPTED_PAGE_SIZE ∨
   (∃ e0, Crypto.decryptPage gcm_decrypt data 0 key VERIFICATION_FILE_ID = inl e0) ∨
   (∃ pt, Crypto.decryptPage gcm_decrypt data 0 key VERIFICATION_FILE_ID = inr pt ∧
          subarray pt 0 (blen VERIFICATION_MAGIC) ≠ VERIFICATION_MAGIC)) →
  ∃ e h',
    constructor h r dir key slt = inl (e, h', r) ∧
    files h' = files h ∧
    message e = "Invalid passphrase or corrupted encryption keys"%string ∧
    code e = None ∧ errno e = None ∧
    cause e =
      (if bool_decide (blen data ≠ ENCRYPTED_PAGE_SIZE) then None
       else match Crypto.decryptPage gcm_decrypt data 0 key VERIFICATION_FILE_ID with
            | inl e0 => Some e0
            | inr _ => None
            end).
Proof.
  intros Hd Hbad. unfold EncryptedFS.constructor.
  set (h1 := if negb (existsSync h dir) then mkdirSync h dir else h).
  assert (files h1 = files h) as Hfiles by (subst h1; by destruct (negb _)).
  rewrite (verifyOrCreateToken_present h1 r key dir data) by (by rewrite Hfiles).
  case_bool_decide as Hlen.
  { eexists _, h1. repeat split; done. }
  destruct (Crypto.decryptPage _ _ _ _ _) as [e0|pt] eqn:Hdec.
  { eexists _, h1. repeat split; done. }
  destruct Hbad as [Hbad|[[e0 Hbad]|(pt' & Hpt & Hbad)]]; [done|done|].
  injection Hpt as <-. rewrite bool_decide_eq_true_2 by done.
  eexists _, h1. repeat split; done.
Qed.

(** *** Short reads of an encrypted page *)

Ltac sizes :=
  unfold ENCRYPTED_PAGE_SIZE, FILE_HEADER_SIZE, PAGE_SIZE, IV_SIZE, AUTH_TAG_SIZE,
         SALT_SIZE, FILE_ID_SIZE in *.

(** A page-sized [readSync] through a readable descriptor returns what
    the file holds from [pos] on, at most a page. *)
Lemma readSync_page (h : Host) fd hfd d pos :
  fds h !! fd = Some hfd → fd_read hfd = true →
  files h !! fd_path hfd = Some d → 0 <= pos →
  readSync h fd (Buffer_alloc ENCRYPTED_PAGE_SIZE) 0 ENCRYPTED_PAGE_SIZE pos
  = inr (Z.max 0 (Z.min ENCRYPTED_PAGE_SIZE (blen d - pos)),
         take (Z.to_nat ENCRYPTED_PAGE_SIZE) (drop (Z.to_nat pos) d)
           ++ drop (Z.to_nat (Z.max 0 (Z.min ENCRYPTED_PAGE_SIZE (blen d - pos))))
                (Buffer_alloc ENCRYPTED_PAGE_SIZE)).
Proof.
  intros Hfd Hr Hd Hpos. unfold readSync.
  rewrite blen_alloc by (sizes; lia).
  rewrite !bool_decide_eq_false_2 by (sizes; lia).
  rewrite Hfd, Hr, Hd. simpl.
  assert (blen (take (Z.to_nat ENCRYPTED_PAGE_SIZE) (drop (Z.to_nat pos) d))
          = Z.max 0 (Z.min ENCRYPTED_PAGE_SIZE (blen d - pos))) as ->.
  { rewrite blen_take by (sizes; lia). rewrite blen_drop by lia. sizes; lia. }
  by rewrite Z.add_0_l.
Qed.

Lemma createError_EIO msg cs :
  code (createError "EIO" msg cs) = Some "EIO"%string ∧
  errno (createError "EIO" msg cs) = Some EIO.
Proof. done. Qed.

(** The loop of [read] fails with EIO when it comes to a page of which
    the file holds only a part. *)
Lemma read_pages_cut_page (s : State) file hfd d offset length logicalPos k :
  fds (host s) !! realFd file = Some hfd → fd_read hfd = true →
  files (host s) !! fd_path hfd = Some d →
  FILE_HEADER_SIZE + k * ENCRYPTED_PAGE_SIZE < blen d
    < FILE_HEADER_SIZE + (k + 1) * ENCRYPTED_PAGE_SIZE →
  ∀ (n : nat) pageNo total buffer,
    0 <= pageNo <= k → k < pageNo + Z.of_nat n →
    ∃ e buffer',
      EncryptedFS.read_pages gcm_decrypt ERRNO_CODES s file offset length logicalPos
        n pageNo total buffer = (inl e, buffer') ∧
      code e = Some "EIO"%string ∧ errno e = Some EIO.
Proof.
  intros Hfd Hr Hd Hcut n.
  induction n as [|n IH]; intros pageNo total buffer Hp Hk; [lia|].
  cbn [EncryptedFS.read_pages].
  rewrite (readSync_page (host s) (realFd file) hfd d) by (done || sizes; lia).
  destruct (decide (pageNo = k)) as [->|Hne].
  - rewrite bool_decide_eq_false_2 by (sizes; lia).
    rewrite bool_decide_eq_true_2 by (sizes; lia).
    eexists _, _. split; [done|]. apply createError_EIO.
  - rewrite !bool_decide_eq_false_2 by (sizes; lia).
    destruct (Crypto.decryptPage _ _ _ _ _) as [e|decryptedPage].
    { eexists _, _. split; [done|]. apply createError_EIO. }
    destruct (Buffer_copy _ _ _ _ _) as [e|buffer'].
    { eexists _, _. split; [done|]. apply createError_EIO. }
    apply IH; lia.
Qed.

(** The write path treats a page of which the file holds only a part as
    absent: it starts from a zero page. *)
Lemma write_load_page_cut_page (s : State) file hfd d k :
  fds (host s) !! realFd file = Some hfd →
  files (host s) !! fd_path hfd = Some d →
  0 <= k →
  FILE_HEADER_SIZE + k * ENCRYPTED_PAGE_SIZE < blen d
    < FILE_HEADER_SIZE + (k + 1) * ENCRYPTED_PAGE_SIZE →
  EncryptedFS.write_load_page gcm_decrypt ERRNO_CODES s file k
  = inr (Buffer_alloc PAGE_SIZE).
Proof.
  intros Hfd Hd Hk Hcut. unfold write_load_page, fstatSync.
  rewrite Hfd, Hd. cbn [st_size].
  rewrite bool_decide_eq_true_2 by lia.
  destruct (fd_read hfd) eqn:Hr.
  - rewrite (readSync_page (host s) (realFd file) hfd d) by (done || sizes; lia).
    by rewrite bool_decide_eq_false_2 by (sizes; lia).
  - unfold readSync. rewrite blen_alloc by (sizes; lia).
    rewrite !bool_decide_eq_false_2 by (sizes; lia).
    by rewrite Hfd, Hr.
Qed.

(** The read path of C7: a read that comes to an encrypted page of which
    the host returns more than 0 and fewer than ENCRYPTED_PAGE_SIZE bytes
    fails with EIO and leaves the handle as it was.  The write path does not
    fail there: it takes such a page as absent and starts from a zero
    page. *)
Theorem C7_short_page_read_is_fatal_on_read
    (s : State) fd file hfd d buffer offset length pos k :
  openFiles s !! fd = Some file →
  destroyed s = false → encrypted file = true → realFd file ≠ -1 →
  fds (host s) !! realFd file = Some hfd → fd_read hfd = true →
  files (host s) !! fd_path hfd = Some d →
  0 <= logicalPos_of file pos → 0 < length →
  FILE_HEADER_SIZE + k * ENCRYPTED_PAGE_SIZE < blen d
    < FILE_HEADER_SIZE + (k + 1) * ENCRYPTED_PAGE_SIZE →
  logicalPos_of file pos / PAGE_SIZE <= k
    <= (logicalPos_of file pos + length - 1) / PAGE_SIZE →
  (∃ n page,
     readSync (host s) (realFd file) (Buffer_alloc ENCRYPTED_PAGE_SIZE) 0
       ENCRYPTED_PAGE_SIZE (FILE_HEADER_SIZE + k * ENCRYPTED_PAGE_SIZE)
     = inr (n, page) ∧ 0 < n < ENCRYPTED_PAGE_SIZE) ∧
  (∃ e buffer',
     read s fd buffer offset length pos = (inl e, buffer', s) ∧
     code e = Some "EIO"%string ∧ errno e = Some EIO) ∧
  EncryptedFS.write_load_page gcm_decrypt ERRNO_CODES s file k
  = inr (Buffer_alloc PAGE_SIZE).
Proof.
  intros Hf Hdes Henc Hreal Hfd Hr Hd Hpos Hlen Hcut Hk.
  assert (0 <= logicalPos_of file pos / PAGE_SIZE) as Hstart
    by (apply Z.div_pos; [done | sizes; lia]).
  split; [|split].
  - rewrite (readSync_page (host s) (realFd file) hfd d) by (done || sizes; lia).
    eexists _, _. split; [done|]. sizes; lia.
  - unfold EncryptedFS.read. rewrite Hf, Hdes, Henc.
    rewrite !bool_decide_eq_false_2 by (done || lia). simpl.
    destruct (read_pages_cut_page s file hfd d offset length
                (logicalPos_of file pos) k Hfd Hr Hd Hcut
                (Z.to_nat ((logicalPos_of file pos + length - 1) / PAGE_SIZE
                           - logicalPos_of file pos / PAGE_SIZE + 1))
                (logicalPos_of file pos / PAGE_SIZE) 0 buffer)
      as (e & buffer' & -> & He); [lia | lia |].
    by eexists _, _.
  - apply (write_load_page_cut_page s file hfd d k); (done || lia).
Qed.

(** *** Positional writes on the host *)

Lemma pwrite_nogap (old data : bytes) (pos : Z) :
  0 <= pos <= blen old →
  pwrite old data pos
  = take (Z.to_nat pos) old ++ data ++ drop (Z.to_nat (pos + blen data)) old.
Proof.
  intros Hpos. unfold pwrite.
  rewrite take_app_le by (unfold blen in Hpos; lia). done.
Qed.

Lemma blen_pwrite (old data : bytes) (pos : Z) :
  0 <= pos <= blen old →
  blen (pwrite old data pos) = Z.max (blen old) (pos + blen data).
Proof.
  intros Hpos. pose proof (blen_nonneg data).
  rewrite pwrite_nogap by done.
  rewrite !blen_app, blen_take, blen_drop by lia. lia.
Qed.

Lemma take_pwrite (old data : bytes) (pos n : Z) :
  0 <= n <= pos → pos <= blen old →
  take (Z.to_nat n) (pwrite old data pos) = take (Z.to_nat n) old.
Proof.
  intros Hn Hpos. rewrite pwrite_nogap by lia.
  rewrite take_app_le by (rewrite length_take; unfold blen in Hpos; lia).
  rewrite take_take. f_equal. lia.
Qed.

Lemma drop_pwrite (old data : bytes) (pos : Z) :
  0 <= pos <= blen old →
  drop (Z.to_nat pos) (pwrite old data pos)
  = data ++ drop (Z.to_nat (pos + blen data)) old.
Proof.
  intros Hpos. rewrite pwrite_nogap by done.
  rewrite drop_app_length'; [done|].
  rewrite length_take. unfold blen in Hpos. lia.
Qed.

(** The bytes that [buf.subarray(pos, pos + n)] reads back after the write. *)
Lemma subarray_pwrite (old data : bytes) (pos : Z) :
  0 <= pos <= blen old →
  subarray (pwrite old data pos) pos (pos + blen data) = data.
Proof.
  intros Hpos. unfold subarray. rewrite drop_pwrite by done.
  replace (pos + blen data - pos) with (blen data) by lia.
  by apply take_blen_app.
Qed.

Lemma subarray_take (b : bytes) (s e n : Z) :
  0 <= s → e <= n → subarray (take (Z.to_nat n) b) s e = subarray b s e.
Proof.
  intros Hs He. unfold subarray.
  destruct (decide (e <= s)) as [Hle|Hlt].
  { replace (Z.to_nat (e - s)) with 0%nat by lia. done. }
  rewrite take_drop_commute. rewrite take_take.
  rewrite take_drop_commute. do 2 f_equal. lia.
Qed.

(** A whole-buffer [writeSync] through a writable descriptor. *)
Lemma writeSync_whole (h : Host) fd hfd old buf pos :
  fds h !! fd = Some hfd → fd_write hfd = true → fd_append hfd = false →
  files h !! fd_path hfd = Some old → 0 <= pos →
  writeSync h fd buf 0 (blen buf) pos
  = (inr (blen buf), with_files h (<[fd_path hfd := pwrite old buf pos]> (files h))).
Proof.
  intros Hfd Hw Happ Hold Hpos. pose proof (blen_nonneg buf). unfold writeSync.
  rewrite !bool_decide_eq_false_2 by lia.
  rewrite Hfd, Hw, Hold, Happ. simpl.
  change (Z.to_nat 0) with 0%nat. rewrite drop_0.
  rewrite take_ge by (unfold blen; lia). done.
Qed.

(** *** Truncate *)

Hypothesis Hlengths : gcm_lengths gcm_encrypt.
Hypothesis Hrandom : random_lengths randomBytes.

Local Abbreviation encryptPage := (Crypto.encryptPage gcm_encrypt randomBytes).
Local Abbreviation truncate_extend := (EncryptedFS.truncate_extend gcm_encrypt randomBytes).

(** The byte range of page [i] in an encrypted file. *)
Local Abbreviation page_of d i :=
  (subarray d (FILE_HEADER_SIZE + i * ENCRYPTED_PAGE_SIZE)
     (FILE_HEADER_SIZE + (i + 1) * ENCRYPTED_PAGE_SIZE)).

(** The loop of [truncate]: starting at the page where the file ends, it
    leaves the file ending after the last page written, keeps what was
    there before the first page written, and every page written is an
    encryption of the zero page under that page number. *)
Lemma truncate_extend_spec fd hfd key fileId (n : nat) :
  fd_write hfd = true → fd_append hfd = false →
  ∀ (h : Host) r pageNo d h' r',
    fds h !! fd = Some hfd → files h !! fd_path hfd = Some d →
    0 <= pageNo →
    FILE_HEADER_SIZE + pageNo * ENCRYPTED_PAGE_SIZE <= blen d
      <= FILE_HEADER_SIZE + (pageNo + 1) * ENCRYPTED_PAGE_SIZE →
    truncate_extend h r key fileId fd n pageNo = (inr (), h', r') →
    ∃ d',
      files h' !! fd_path hfd = Some d' ∧ fds h' = fds h ∧
      blen d' = Z.max (blen d)
                  (FILE_HEADER_SIZE + (pageNo + Z.of_nat n) * ENCRYPTED_PAGE_SIZE) ∧
      take (Z.to_nat (FILE_HEADER_SIZE + pageNo * ENCRYPTED_PAGE_SIZE)) d'
      = take (Z.to_nat (FILE_HEADER_SIZE + pageNo * ENCRYPTED_PAGE_SIZE)) d ∧
      ∀ i, pageNo <= i < pageNo + Z.of_nat n →
           ∃ ri, encryptPage ri (Buffer_fill PAGE_SIZE x00) i key fileId
                 = (inr (page_of d' i), ri + 1).
Proof.
  intros Hw Happ. induction n as [|n IH]; intros h r pageNo d h' r' Hfd Hd Hp Hsize.
  { cbn [EncryptedFS.truncate_extend]. intros [= <- <-]. exists d.
    repeat split; try done; [lia | intros i Hi; lia]. }
  cbn [EncryptedFS.truncate_extend].
  destruct (encryptPage r _ pageNo key fileId) as [[e|page] r1] eqn:Henc; [done|].
  destruct (encryptPage_length gcm_encrypt randomBytes Hlengths Hrandom
              r (Buffer_fill PAGE_SIZE x00) pageNo key fileId page r1) as [Hpage ->];
    [unfold Buffer_fill; rewrite blen_replicate; sizes; lia | done |].
  set (pos := FILE_HEADER_SIZE + pageNo * ENCRYPTED_PAGE_SIZE) in *.
  rewrite (writeSync_whole h fd hfd d page pos) by (done || sizes; lia).
  set (d1 := pwrite d page pos).
  set (h1 := with_files h (<[fd_path hfd := d1]> (files h))).
  assert (blen d1 = pos + ENCRYPTED_PAGE_SIZE) as Hd1.
  { subst d1. rewrite blen_pwrite by (sizes; lia). rewrite Hpage. sizes; lia. }
  intros Hrest.
  destruct (IH h1 (r + 1) (pageNo + 1) d1 h' r') as (d' & Hd' & Hfds & Hlen & Hpre & Hpages);
    [done | by (subst h1; simpl; rewrite lookup_insert_eq) | lia
    | subst pos; sizes; lia | done |].
  exists d'. split; [done|]. split; [by rewrite Hfds|].
  assert (take (Z.to_nat (pos + ENCRYPTED_PAGE_SIZE)) d' = d1) as Hd1'.
  { replace (pos + ENCRYPTED_PAGE_SIZE)
      with (FILE_HEADER_SIZE + (pageNo + 1) * ENCRYPTED_PAGE_SIZE)
      by (subst pos; sizes; lia).
    rewrite Hpre. apply take_ge. unfold blen in Hd1. subst pos. sizes; lia. }
  split; [|split].
  - rewrite Hlen, Hd1. subst pos. sizes; lia.
  - rewrite <- (take_pwrite d page pos pos) by (sizes; lia). fold d1.
    rewrite <- Hd1'. rewrite take_take. f_equal. sizes; lia.
  - intros i Hi. destruct (decide (i = pageNo)) as [->|Hne].
    + exists r. rewrite Henc. do 2 f_equal.
      rewrite <- (subarray_take d' _ _ (pos + ENCRYPTED_PAGE_SIZE))
        by (subst pos; sizes; lia).
      rewrite Hd1'. subst d1.
      replace (FILE_HEADER_SIZE + (pageNo + 1) * ENCRYPTED_PAGE_SIZE)
        with (pos + blen page) by (rewrite Hpage; subst pos; sizes; lia).
      symmetry. apply subarray_pwrite. sizes; lia.
    + apply Hpages. lia.
Qed.

Lemma ceil_div_nonneg (len : Z) : 0 <= len → 0 <= ceil_div len PAGE_SIZE.
Proof.
  intros H. unfold ceil_div.
  assert ((- len) / PAGE_SIZE <= 0); [|lia].
  apply Z.div_le_upper_bound; sizes; lia.
Qed.

Lemma currentPageCount_bounds (physical : Z) :
  FILE_HEADER_SIZE <= physical →
  0 <= currentPageCount_of physical ∧
  FILE_HEADER_SIZE + currentPageCount_of physical * ENCRYPTED_PAGE_SIZE <= physical
    < FILE_HEADER_SIZE + (currentPageCount_of physical + 1) * ENCRYPTED_PAGE_SIZE.
Proof.
  intros H. unfold currentPageCount_of. case_bool_decide as Hgt.
  - pose proof (Z.div_mod (physical - FILE_HEADER_SIZE) ENCRYPTED_PAGE_SIZE
                  ltac:(sizes; lia)) as Hdm.
    pose proof (Z.mod_pos_bound (physical - FILE_HEADER_SIZE) ENCRYPTED_PAGE_SIZE
                  ltac:(sizes; lia)) as Hm.
    assert (0 <= (physical - FILE_HEADER_SIZE) / ENCRYPTED_PAGE_SIZE)
      by (apply Z.div_pos; sizes; lia).
    sizes; lia.
  - sizes; lia.
Qed.

(** [readFileId] through a readable descriptor returns bytes 16..48 of the
    file, and fails on a file shorter than the header. *)
Lemma readFileId_ok (h : Host) fd hfd d fileId :
  fds h !! fd = Some hfd → files h !! fd_path hfd = Some d →
  readFileId ERRNO_CODES h fd = inr fileId →
  FILE_HEADER_SIZE <= blen d ∧
  fileId = subarray d SALT_SIZE (SALT_SIZE + FILE_ID_SIZE).
Proof.
  intros Hfd Hd. unfold readFileId, readSync.
  rewrite blen_alloc by (sizes; lia).
  rewrite !bool_decide_eq_false_2 by (sizes; lia).
  rewrite Hfd. destruct (fd_read hfd); [|done]. simpl. rewrite Hd.
  case_bool_decide as Hlen; [done|]. intros [= <-].
  rewrite Hlen.
  rewrite blen_take, blen_drop in Hlen by (sizes; lia).
  split; [sizes; lia|].
  unfold subarray, Buffer_alloc.
  rewrite drop_replicate, Z.add_0_l, Nat.sub_diag. simpl. rewrite app_nil_r.
  repeat f_equal; sizes; lia.
Qed.

(** C3: when [truncate] of an encrypted file to the length [len] completes,
    the file is exactly FILE_HEADER_SIZE + new_pages * ENCRYPTED_PAGE_SIZE
    bytes long, with new_pages = ceil(len / PAGE_SIZE), so Invariant I1
    holds; and when that is more pages than the file had, what was there
    before the first added page is kept and every added page is
    [encryptPage] of the all-zero page under its page number, the
    instance's key and the file id in the header. *)
Theorem C3_truncate_sets_physical_size (s : State) pathStr len s' :
  shouldEncrypt pathStr = true → 0 <= len →
  truncate s pathStr len = (inr (), s') →
  let fullPath := resolvePath s pathStr in
  let new_pages := ceil_div len PAGE_SIZE in
  ∃ d d',
    files (host s) !! fullPath = Some d ∧
    files (host s') !! fullPath = Some d' ∧
    (new_pages - 1) * PAGE_SIZE < len <= new_pages * PAGE_SIZE ∧
    blen d' = FILE_HEADER_SIZE + new_pages * ENCRYPTED_PAGE_SIZE ∧
    (∃ k, 0 <= k ∧ blen d' = FILE_HEADER_SIZE + k * ENCRYPTED_PAGE_SIZE) ∧
    let cur_pages := currentPageCount_of (currentPhysical_of (host s) fullPath) in
    (cur_pages < new_pages →
     currentPhysical_of (host s) fullPath = blen d ∧
     take (Z.to_nat (FILE_HEADER_SIZE + cur_pages * ENCRYPTED_PAGE_SIZE)) d'
     = take (Z.to_nat (FILE_HEADER_SIZE + cur_pages * ENCRYPTED_PAGE_SIZE)) d ∧
     ∀ i, cur_pages <= i < new_pages →
          ∃ ri, encryptPage ri (Buffer_fill PAGE_SIZE x00) i (encKey s)
                  (subarray d SALT_SIZE (SALT_SIZE + FILE_ID_SIZE))
                = (inr (page_of d' i), ri + 1)).
Proof.
  intros Henc Hlen Hrun fullPath new_pages.
  unfold EncryptedFS.truncate in Hrun. rewrite Henc in Hrun. cbn [negb] in Hrun.
  pose proof (ceil_div_nonneg len Hlen) as Hnew. fold new_pages in Hnew.
  assert ((new_pages - 1) * PAGE_SIZE < len <= new_pages * PAGE_SIZE) as Hceil.
  { subst new_pages. unfold ceil_div in *.
    pose proof (Z.div_mod (- len) PAGE_SIZE ltac:(sizes; lia)).
    pose proof (Z.mod_pos_bound (- len) PAGE_SIZE ltac:(sizes; lia)).
    sizes; lia. }
  fold fullPath new_pages in Hrun.
  case_bool_decide as Hgrow.
  - (* more pages than the file has *)
    unfold truncate_grow in Hrun.
    unfold openSync in Hrun. cbn [parse_flags String.eqb Ascii.eqb Bool.eqb] in Hrun.
    simpl in Hrun.
    case_bool_decide as Hdir; [done|].
    destruct (files (host s) !! fullPath) as [d|] eqn:Hd;
      [|by destruct (below_file (host s) fullPath)].
    simpl in Hrun.
    set (fd := next_fd (host s)) in *.
    set (hfd := {| fd_path := fullPath; fd_read := true; fd_write := true;
                   fd_append := false |}) in *.
    set (h0 := {| files := <[fullPath := d]> (files (host s)); dirs := dirs (host s);
                  fds := <[fd := hfd]> (fds (host s)); next_fd := fd + 1 |}) in *.
    assert (fds h0 !! fd = Some hfd) as Hfd0 by (subst h0; simpl; by rewrite lookup_insert_eq).
    assert (files h0 !! fd_path hfd = Some d) as Hd0
      by (subst h0 hfd; simpl; by rewrite lookup_insert_eq).
    unfold truncate_try in Hrun.
    destruct (readFileId ERRNO_CODES h0 fd) as [e|fileId] eqn:Hid.
    { destruct (closeSync h0 fd) as [[e'|[]] h2]; done. }
    destruct (readFileId_ok h0 fd hfd d fileId Hfd0 Hd0 Hid) as [Hhdr ->].
    assert (currentPhysical_of (host s) fullPath = blen d) as Hphys.
    { unfold currentPhysical_of, existsSync, statSync. rewrite Hd.
      destruct (dirs (host s) !! fullPath) eqn:Hdirs; [|done].
      exfalso. apply Hdir. by eexists. }
    rewrite Hphys in Hrun, Hgrow.
    destruct (currentPageCount_bounds (blen d) Hhdr) as [Hcur0 Hcur].
    destruct (truncate_extend h0 _ _ _ _ _ _) as [[res h1] r1] eqn:Hext.
    destruct res as [e|[]].
    { destruct (closeSync h1 fd) as [[e'|[]] h2]; done. }
    destruct (truncate_extend_spec fd hfd (encKey s)
                (subarray d SALT_SIZE (SALT_SIZE + FILE_ID_SIZE))
                (Z.to_nat (new_pages - currentPageCount_of (blen d))) eq_refl eq_refl
                h0 (rng s) (currentPageCount_of (blen d)) d h1 r1)
      as (d' & Hd' & Hfds & Hsize & Hpre & Hpages); [done | done | done | lia | done |].
    unfold closeSync in Hrun. rewrite Hfds, Hfd0 in Hrun.
    injection Hrun as <-. simpl.
    exists d, d'. split; [done|]. split; [done|]. split; [done|].
    assert (blen d' = FILE_HEADER_SIZE + new_pages * ENCRYPTED_PAGE_SIZE) as Hd'len.
    { rewrite Hsize. rewrite Z2Nat.id by lia. sizes; lia. }
    split; [done|]. split; [by exists new_pages|].
    rewrite Hphys. intros _. split; [done|]. split; [done|].
    intros i Hi. apply Hpages. lia.
  - (* not more pages: the host truncates *)
    unfold truncateSync in Hrun.
    destruct (files (host s) !! fullPath) as [d|] eqn:Hd; [|done].
    injection Hrun as <-. simpl. rewrite lookup_insert_eq.
    eexists d, _. split; [done|]. split; [done|]. split; [done|].
    assert (∀ n (b : bytes), blen (take n (b ++ replicate (n - length b) x00)) = Z.of_nat n)
      as Htake.
    { intros n b. unfold blen. rewrite length_take, length_app, length_replicate. lia. }
    rewrite Htake.
    split; [sizes; lia|]. split; [exists new_pages; sizes; lia|].
    intros Hlt. lia.
Qed.

(** *** Read-modify-write through a readable descriptor *)

(** [copy] keeps the length of the target and changes it only inside the
    range the copy was asked for. *)
Lemma Buffer_copy_length (src tgt : bytes) ts ss se r :
  Buffer_copy src tgt ts ss se = inr r → blen r = blen tgt.
Proof.
  unfold Buffer_copy. pose proof (blen_nonneg src). pose proof (blen_nonneg tgt).
  repeat case_bool_decide; try done; intros [= <-]; [done| |].
  all: rewrite !blen_app, blen_take, blen_take, blen_drop, blen_drop by lia; lia.
Qed.

Lemma splice_lookup_outside (tgt w : bytes) (a j : nat) :
  (a + length w ≤ length tgt)%nat → (j < a ∨ a + length w ≤ j)%nat →
  (take a tgt ++ w ++ drop (a + length w) tgt) !! j = tgt !! j.
Proof.
  intros Hfit [Hj|Hj].
  - rewrite lookup_app_l by (rewrite length_take; lia). apply lookup_take_lt. lia.
  - rewrite lookup_app_r by (rewrite length_take; lia).
    rewrite lookup_app_r by (rewrite length_take; lia).
    rewrite lookup_drop. f_equal. rewrite length_take. lia.
Qed.

Lemma Buffer_copy_outside (src tgt : bytes) ts ss se r (j : nat) :
  Buffer_copy src tgt ts ss se = inr r →
  (Z.of_nat j < ts ∨ ts + (se - ss) <= Z.of_nat j) →
  r !! j = tgt !! j.
Proof.
  unfold Buffer_copy. pose proof (blen_nonneg src). pose proof (blen_nonneg tgt).
  repeat case_bool_decide; try done; intros [= <-] Hj; [done| |].
  - set (nb := Z.min (ss + (blen tgt - ts) - ss) (blen src - ss)).
    assert (length (take (Z.to_nat nb) (drop (Z.to_nat ss) src)) = Z.to_nat nb) as Hw
      by (rewrite length_take, length_drop; unfold blen in *; lia).
    replace (Z.to_nat (ts + nb))
      with (Z.to_nat ts + length (take (Z.to_nat nb) (drop (Z.to_nat ss) src)))%nat
      by (rewrite Hw; lia).
    apply splice_lookup_outside; rewrite Hw; unfold blen in *; lia.
  - set (nb := Z.min (se - ss) (blen src - ss)).
    assert (length (take (Z.to_nat nb) (drop (Z.to_nat ss) src)) = Z.to_nat nb) as Hw
      by (rewrite length_take, length_drop; unfold blen in *; lia).
    replace (Z.to_nat (ts + nb))
      with (Z.to_nat ts + length (take (Z.to_nat nb) (drop (Z.to_nat ss) src)))%nat
      by (rewrite Hw; lia).
    apply splice_lookup_outside; rewrite Hw; unfold blen in *; lia.
Qed.

Lemma subarray_pwrite_before (old data : bytes) pos a b :
  0 <= a → b <= pos → 0 <= pos <= blen old →
  subarray (pwrite old data pos) a b = subarray old a b.
Proof.
  intros Ha Hb Hpos.
  rewrite <- (subarray_take (pwrite old data pos) a b pos) by lia.
  rewrite take_pwrite by lia. apply subarray_take; lia.
Qed.

Lemma subarray_pwrite_after (old data : bytes) pos a b :
  0 <= pos <= blen old → pos + blen data <= a →
  subarray (pwrite old data pos) a b = subarray old a b.
Proof.
  intros Hpos Ha. pose proof (blen_nonneg data).
  unfold subarray. f_equal. rewrite pwrite_nogap by done.
  rewrite app_assoc, drop_app_ge
    by (rewrite length_app, length_take; unfold blen in *; lia).
  rewrite drop_drop. f_equal.
  rewrite length_app, length_take. unfold blen in *. lia.
Qed.

Hypothesis Hroundtrip : gcm_roundtrip gcm_encrypt gcm_decrypt.

Local Abbreviation decryptPage := (Crypto.decryptPage gcm_decrypt).
Local Abbreviation write_load_page := (EncryptedFS.write_load_page gcm_decrypt ERRNO_CODES).
Local Abbreviation write_pages :=
  (EncryptedFS.write_pages gcm_encrypt gcm_decrypt randomBytes ERRNO_CODES).
Local Abbreviation logical_byte := (EncryptedFS.logical_byte gcm_decrypt).
Local Abbreviation well_formed_file := (EncryptedFS.well_formed_file gcm_decrypt).

(** A page that [truncate] added reads back as zeros: an encryption of the
    zero page decrypts to the zero page. *)
Lemma encrypted_zero_page_decrypts ri i key fid page :
  blen key = 32 →
  encryptPage ri (Buffer_fill PAGE_SIZE x00) i key fid = (inr page, ri + 1) →
  decryptPage page i key fid = inr (Buffer_fill PAGE_SIZE x00).
Proof.
  intros Hkey Henc.
  assert (blen (Buffer_fill PAGE_SIZE x00) = PAGE_SIZE) as Hz
    by (unfold Buffer_fill; rewrite blen_replicate; sizes; lia).
  destruct (decide (0 <= i <= 4294967295)) as [Hi|Hi].
  - destruct (encryptPage_decryptPage gcm_encrypt gcm_decrypt randomBytes
                Hlengths Hroundtrip Hrandom ri (Buffer_fill PAGE_SIZE x00) i key fid)
      as (page' & Henc' & _ & Hdec); [done | done | lia |].
    rewrite Henc in Henc'. injection Henc' as <-.
    by rewrite padded_page_full in Hdec.
  - unfold Crypto.encryptPage in Henc.
    by rewrite bool_decide_eq_true_2 in Henc by lia.
Qed.

(** Through a readable descriptor [write] starts from the decrypted page
    when the file holds the whole page ... *)
Lemma write_load_page_existing (s : State) file hfd d i :
  fds (host s) !! realFd file = Some hfd → fd_read hfd = true →
  files (host s) !! fd_path hfd = Some d →
  0 <= i → FILE_HEADER_SIZE + (i + 1) * ENCRYPTED_PAGE_SIZE <= blen d →
  write_load_page s file i =
    match decryptPage (page_at d i) i (encKey s) (fileId file) with
    | inr pagePlain => inr pagePlain
    | inl e =>
        inl (createError "EIO"
               ("Decryption failed during write for page " +:+ show_Z i
                  +:+ ", file may be corrupt") (Some e))
    end.
Proof.
  intros Hfd Hr Hd Hi Hsize. unfold EncryptedFS.write_load_page, fstatSync.
  rewrite Hfd, Hd. cbn [st_size].
  rewrite bool_decide_eq_true_2 by (sizes; lia).
  rewrite (readSync_page (host s) (realFd file) hfd d) by (done || sizes; lia).
  replace (Z.max 0 (Z.min ENCRYPTED_PAGE_SIZE
                      (blen d - (FILE_HEADER_SIZE + i * ENCRYPTED_PAGE_SIZE))))
    with ENCRYPTED_PAGE_SIZE by (sizes; lia).
  rewrite bool_decide_eq_true_2 by done.
  assert (drop (Z.to_nat ENCRYPTED_PAGE_SIZE) (Buffer_alloc ENCRYPTED_PAGE_SIZE) = [])
    as -> by (unfold Buffer_alloc; by rewrite drop_replicate, Nat.sub_diag).
  rewrite app_nil_r. unfold page_at, subarray.
  replace (FILE_HEADER_SIZE + (i + 1) * ENCRYPTED_PAGE_SIZE
           - (FILE_HEADER_SIZE + i * ENCRYPTED_PAGE_SIZE))
    with ENCRYPTED_PAGE_SIZE by (sizes; lia).
  done.
Qed.

(** ... and from a zero page at the end of the file. *)
Lemma write_load_page_at_end (s : State) file hfd d i :
  fds (host s) !! realFd file = Some hfd →
  files (host s) !! fd_path hfd = Some d →
  blen d <= FILE_HEADER_SIZE + i * ENCRYPTED_PAGE_SIZE →
  write_load_page s file i = inr (Buffer_alloc PAGE_SIZE).
Proof.
  intros Hfd Hd Hsize. unfold EncryptedFS.write_load_page, fstatSync.
  rewrite Hfd, Hd. cbn [st_size].
  rewrite bool_decide_eq_false_2 by lia.
  by rewrite bool_decide_eq_false_2 by (sizes; lia).
Qed.

Lemma logical_byte_page (key fid d d' : bytes) q :
  page_at d' (q / PAGE_SIZE) = page_at d (q / PAGE_SIZE) →
  logical_byte key fid d' q = logical_byte key fid d q.
Proof. intros H. unfold EncryptedFS.logical_byte. by rewrite H. Qed.

(** One page of the loop of [write], through a readable descriptor that
    is not in append mode, on a well-formed file: the file stays
    well-formed, and a logical byte that lies before the write cursor or
    behind the end of the written window reads as before.  By induction, the
    same for the whole loop. *)
Lemma write_pages_frame file hfd buffer offset length logicalPos :
  fd_read hfd = true → fd_append hfd = false →
  ∀ (n : nat) (s : State) pageNo total d k res s',
    fds (host s) !! realFd file = Some hfd →
    files (host s) !! fd_path hfd = Some d →
    blen (encKey s) = 32 →
    well_formed_file (encKey s) (fileId file) d k →
    0 <= pageNo <= k →
    total <= length →
    logicalPos + total <= (pageNo + 1) * PAGE_SIZE →
    write_pages s file buffer offset length logicalPos n pageNo total = (inr res, s') →
    ∃ d' k',
      files (host s') !! fd_path hfd = Some d' ∧
      well_formed_file (encKey s) (fileId file) d' k' ∧ k <= k' ∧
      ∀ q, 0 <= q < k * PAGE_SIZE →
           (q < logicalPos + total ∨ logicalPos + length <= q) →
           logical_byte (encKey s) (fileId file) d' q
           = logical_byte (encKey s) (fileId file) d q.
Proof.
  intros Hr Happ n. induction n as [|n IH];
    intros s pageNo total d k res s' Hfd Hd Hkey Hwf Hp Htot Hcur Hrun.
  { cbn [EncryptedFS.write_pages] in Hrun. injection Hrun as <- <-.
    exists d, k. split; [done|]. split; [done|]. split; [lia|]. done. }
  cbn [EncryptedFS.write_pages] in Hrun.
  destruct Hwf as (Hk & Hsize & Hpages).
  set (pos := FILE_HEADER_SIZE + pageNo * ENCRYPTED_PAGE_SIZE) in *.
  set (pageOffset := logicalPos + total - pageNo * PAGE_SIZE) in *.
  set (btw := Z.min (length - total) (PAGE_SIZE - pageOffset)) in *.
  assert (0 <= btw) as Hbtw by (subst btw pageOffset; lia).
  (* the page the iteration starts from *)
  assert (∃ pg, write_load_page s file pageNo = inr pg ∧ blen pg = PAGE_SIZE ∧
                (pageNo < k → decryptPage (page_at d pageNo) pageNo (encKey s)
                                (fileId file) = inr pg)) as (pg & Hload & Hpg & Hold).
  { destruct (decide (pageNo < k)) as [Hlt|Hge].
    - destruct (Hpages pageNo ltac:(lia)) as (pg & Hdec & Hlen).
      exists pg. split; [|done].
      rewrite (write_load_page_existing s file hfd d pageNo)
        by (done || sizes; lia).
      by rewrite Hdec.
    - exists (Buffer_alloc PAGE_SIZE). split; [|split].
      + apply (write_load_page_at_end s file hfd d pageNo); (done || sizes; lia).
      + apply blen_alloc. sizes; lia.
      + lia. }
  rewrite Hload in Hrun.
  destruct (Buffer_copy buffer pg pageOffset _ _) as [e|pg'] eqn:Hcopy; [done|].
  pose proof (Buffer_copy_length _ _ _ _ _ _ Hcopy) as Hpg'. rewrite Hpg in Hpg'.
  (* the page it writes *)
  destruct (decide (pageNo <= 4294967295)) as [Hrange|Hrange].
  2: { unfold Crypto.encryptPage in Hrun.
       by rewrite bool_decide_eq_true_2 in Hrun by lia. }
  destruct (encryptPage_decryptPage gcm_encrypt gcm_decrypt randomBytes
              Hlengths Hroundtrip Hrandom (rng s) pg' pageNo (encKey s) (fileId file))
    as (page' & Henc & Hpage' & Hdec'); [done | lia | lia |].
  rewrite padded_page_full in Hdec' by done.
  rewrite Henc in Hrun.
  destruct (fd_write hfd) eqn:Hw.
  2: { unfold writeSync in Hrun. rewrite Hpage' in Hrun.
       rewrite !bool_decide_eq_false_2 in Hrun by (sizes; lia).
       by rewrite Hfd, Hw in Hrun. }
  rewrite <- Hpage' in Hrun at 1.
  rewrite (writeSync_whole (host s) (realFd file) hfd d page' pos) in Hrun
    by (done || subst pos; sizes; lia).
  set (d1 := pwrite d page' pos) in *.
  assert (0 <= pos <= blen d) as Hpos by (subst pos; sizes; lia).
  assert (page_at d1 pageNo = page') as Hnew.
  { unfold page_at. fold pos.
    replace (FILE_HEADER_SIZE + (pageNo + 1) * ENCRYPTED_PAGE_SIZE)
      with (pos + blen page') by (subst pos; sizes; lia).
    by apply subarray_pwrite. }
  assert (∀ i, 0 <= i → i ≠ pageNo → page_at d1 i = page_at d i) as Hother.
  { intros i Hi Hne. unfold page_at. destruct (decide (i < pageNo)).
    - apply subarray_pwrite_before; subst pos; sizes; lia.
    - apply subarray_pwrite_after; [done|]. rewrite Hpage'. subst pos. sizes; lia. }
  (* the rest of the loop *)
  match type of Hrun with
  | EncryptedFS.write_pages _ _ _ _ ?s1 _ _ _ _ _ _ _ _ = _ =>
      destruct (IH s1 (pageNo + 1) (total + btw) d1 (Z.max k (pageNo + 1)) res s')
        as (d' & k' & Hd' & Hwf' & Hk' & Hframe)
  end.
  - done.
  - simpl. by rewrite lookup_insert_eq.
  - done.
  - split; [lia|]. split.
    + subst d1. rewrite blen_pwrite by done. rewrite Hpage'. subst pos. sizes; lia.
    + intros i Hi. destruct (decide (i = pageNo)) as [->|Hne].
      * exists pg'. split; [|done]. simpl. by rewrite Hnew.
      * destruct (Hpages i ltac:(lia)) as (pgi & Hdeci & Hleni).
        exists pgi. split; [|done]. simpl. rewrite Hother by lia. done.
  - lia.
  - subst btw. lia.
  - subst btw pageOffset. sizes; lia.
  - done.
  - exists d', k'. split; [done|]. split; [done|]. split; [lia|].
    intros q Hq Hout.
    assert (0 <= q / PAGE_SIZE < k) as Hqi.
    { split; [apply Z.div_pos; sizes; lia|].
      apply Z.div_lt_upper_bound; sizes; lia. }
    pose proof (Z.div_mod q PAGE_SIZE ltac:(sizes; lia)) as Hdm.
    pose proof (Z.mod_pos_bound q PAGE_SIZE ltac:(sizes; lia)) as Hmb.
    etrans; [apply Hframe; [sizes; lia | subst btw pageOffset; lia]|].
    simpl. destruct (decide (q / PAGE_SIZE = pageNo)) as [Hin|Hnotin].
    + unfold EncryptedFS.logical_byte. rewrite Hin, Hnew, Hdec', (Hold ltac:(lia)).
      apply (Buffer_copy_outside _ _ _ _ _ _ _ Hcopy).
      rewrite Z2Nat.id by lia. subst btw pageOffset. sizes; lia.
    + apply logical_byte_page. apply Hother; lia.
Qed.

(** Through a handle whose host descriptor is readable and not in append
    mode, a successful [write] into a well-formed encrypted file that starts no further than the
    page after the last one leaves the file well-formed, and every logical
    byte of the old file that lies outside the written window [p, p + length)
    reads as before. *)
Lemma write_preserves_bytes_outside_window
    (s : State) fd file hfd d k buffer offset length pos n s' :
  openFiles s !! fd = Some file → encrypted file = true →
  fds (host s) !! realFd file = Some hfd → fd_read hfd = true →
  fd_append hfd = false →
  files (host s) !! fd_path hfd = Some d →
  blen (encKey s) = 32 →
  well_formed_file (encKey s) (fileId file) d k →
  0 <= length →
  0 <= logicalPos_of file pos → logicalPos_of file pos / PAGE_SIZE <= k →
  EncryptedFS.write gcm_encrypt gcm_decrypt randomBytes ERRNO_CODES
    s fd buffer offset length pos = (inr n, s') →
  ∃ d' k',
    files (host s') !! fd_path hfd = Some d' ∧
    well_formed_file (encKey s) (fileId file) d' k' ∧ k <= k' ∧
    ∀ q, 0 <= q < k * PAGE_SIZE →
         (q < logicalPos_of file pos ∨ logicalPos_of file pos + length <= q) →
         logical_byte (encKey s) (fileId file) d' q
         = logical_byte (encKey s) (fileId file) d q.
Proof.
  intros Hf Henc Hfd Hr Happ Hd Hkey Hwf Hlen Hpos Hstart.
  unfold EncryptedFS.write. rewrite Hf, Henc.
  destruct (destroyed s); [done|].
  case_bool_decide as Hzero.
  { intros [= <- <-]. exists d, k. split; [done|]. split; [done|]. split; [lia|]. done. }
  case_bool_decide; [done|]. cbn [negb].
  destruct (EncryptedFS.write_pages _ _ _ _ _ _ _ _ _ _ _ _ _) as [[e|total] s1] eqn:Hrun;
    [done|].
  intros [= <- <-].
  pose proof (Z.div_mod (logicalPos_of file pos) PAGE_SIZE ltac:(sizes; lia)) as Hdm.
  pose proof (Z.mod_pos_bound (logicalPos_of file pos) PAGE_SIZE ltac:(sizes; lia)) as Hmb.
  destruct (write_pages_frame file hfd buffer offset length (logicalPos_of file pos) Hr
              Happ (Z.to_nat ((logicalPos_of file pos + length - 1) / PAGE_SIZE
                         - logicalPos_of file pos / PAGE_SIZE + 1))
              s (logicalPos_of file pos / PAGE_SIZE) 0 d k total s1
              Hfd Hd Hkey Hwf)
    as (d' & k' & Hd' & Hwf' & Hk' & Hframe);
    [split; [apply Z.div_pos; sizes; lia | done] | lia | sizes; lia | exact Hrun |].
  exists d', k'. split; [done|]. split; [done|]. split; [done|].
  intros q Hq Hout. apply Hframe; [done|]. lia.
Qed.

End Facade_properties.

(** ** Examples on the sample instance *)

(** C9 on the handle 100 of [fs2]: after [destroy], an [open] and a
    [truncate], reading and writing through it fail with EIO. *)
Lemma C9_after_destroy_witness :
  let calls := [EncryptedFS.CallOpen "/g" (inl 66);
                EncryptedFS.CallTruncate "/f" 0] in
  let s' := EncryptedFS.run_calls Sample.gcm_encrypt Sample.gcm_decrypt
              Sample.randomBytes Sample.ERRNO_CODES
              (EncryptedFS.destroy Sample.fs2) calls in
  is_Some (EncryptedFS.openFiles s' !! 100) ∧
  (∃ e, Sample.read s' 100 [x00] 0 1 (Some 0) = (inl e, [x00], s') ∧
        code e = Some "EIO"%string ∧ errno e = Some EncryptedFS.EIO) ∧
  (∃ e, Sample.write s' 100 [x00] 0 1 (Some 0) = (inl e, s') ∧
        code e = Some "EIO"%string ∧ errno e = Some EncryptedFS.EIO) ∧
  EncryptedFS.destroy (EncryptedFS.destroy Sample.fs2) = EncryptedFS.destroy Sample.fs2 ∧
  EncryptedFS.destroy s' = s'.
Proof.
  intros calls s'.
  assert (is_Some (EncryptedFS.openFiles s' !! 100)) as Hopen
    by (vm_compute; eauto).
  split; [exact Hopen|].
  exact (C9_after_destroy_read_write_fail_EIO Sample.gcm_encrypt Sample.gcm_decrypt
           Sample.randomBytes Sample.ERRNO_CODES Sample.fs2 calls 100 [x00] 0 1
           (Some 0) Hopen).
Defined.

(** C10 on the handle 100 of [fs2], whose position is 8192. *)
Lemma C10_negative_position_witness :
  -1 < 0 ∧
  Sample.read Sample.fs2 100 [x00] 0 1 (Some (-1))
  = Sample.read Sample.fs2 100 [x00] 0 1 None ∧
  Sample.write Sample.fs2 100 [x00] 0 1 (Some (-1))
  = Sample.write Sample.fs2 100 [x00] 0 1 None ∧
  (∀ file n buffer' s',
     EncryptedFS.openFiles Sample.fs2 !! 100 = Some file →
     Sample.read Sample.fs2 100 [x00] 0 1 (Some (-1)) = (inr n, buffer', s') →
     EncryptedFS.openFiles s' !! 100
     = Some (EncryptedFS.with_position file (EncryptedFS.position file + n))) ∧
  (∀ file n s',
     EncryptedFS.openFiles Sample.fs2 !! 100 = Some file →
     Sample.write Sample.fs2 100 [x00] 0 1 (Some (-1)) = (inr n, s') →
     EncryptedFS.openFiles s' !! 100
     = Some (EncryptedFS.with_position file (EncryptedFS.position file + n))).
Proof.
  split; [lia|].
  apply (C10_negative_position_means_current Sample.gcm_encrypt Sample.gcm_decrypt
           Sample.randomBytes Sample.ERRNO_CODES Sample.fs2 100 [x00] 0 1 (-1)).
  lia.
Defined.

(** C4 (amended) on the handle 101 of [fs4], one page on disk: 8268 bytes
    are reported as 8192. *)
Lemma C4_fstat_witness :
  let file := Sample.handle Sample.fs4 101 in
  let d := Sample.host_get Sample.fs4 "/data/f" in
  blen d = 8268 ∧
  (blen d < Crypto.FILE_HEADER_SIZE →
   Sample.fstat Sample.fs4 101 = inr {| EncryptedFS.size := 0 |}) ∧
  (Crypto.FILE_HEADER_SIZE <= blen d →
   (blen d - Crypto.FILE_HEADER_SIZE) mod Crypto.ENCRYPTED_PAGE_SIZE = 0 →
   Sample.fstat Sample.fs4 101
   = inr {| EncryptedFS.size :=
              (blen d - Crypto.FILE_HEADER_SIZE) / Crypto.ENCRYPTED_PAGE_SIZE
              * Crypto.PAGE_SIZE |}) ∧
  (Crypto.FILE_HEADER_SIZE <= blen d →
   (blen d - Crypto.FILE_HEADER_SIZE) mod Crypto.ENCRYPTED_PAGE_SIZE ≠ 0 →
   ∃ e, Sample.fstat Sample.fs4 101 = inl e ∧
        code e = Some "EIO"%string ∧ errno e = Some EncryptedFS.EIO).
Proof.
  intros file d. split; [vm_compute; reflexivity|].
  apply (C4_fstat_reports_logical_size Sample.ERRNO_CODES Sample.fs4 101 file
           (Sample.host_fd Sample.fs4 (EncryptedFS.realFd file)) d).
  - vm_compute; reflexivity.
  - vm_compute; discriminate.
  - vm_compute; reflexivity.
  - vm_compute; reflexivity.
  - vm_compute; reflexivity.
Defined.

(** C4 as stated fails: [fs_cut] has an open encrypted file of 8258 bytes,
    at least FILE_HEADER_SIZE, and [fstat] does not report
    floor((8258 - 48) / 8220) * 8192 = 0; it fails with EIO. *)
Lemma C4_fstat_partial_page_fails :
  let file := Sample.handle Sample.fs_cut 101 in
  let physical := blen (Sample.host_get Sample.fs_cut "/data/f") in
  EncryptedFS.openFiles Sample.fs_cut !! 101 = Some file ∧
  EncryptedFS.encrypted file = true ∧
  physical = 8258 ∧ Crypto.FILE_HEADER_SIZE <= physical ∧
  Sample.fstat Sample.fs_cut 101
  ≠ inr {| EncryptedFS.size :=
             (physical - Crypto.FILE_HEADER_SIZE) / Crypto.ENCRYPTED_PAGE_SIZE
             * Crypto.PAGE_SIZE |} ∧
  ∃ e, Sample.fstat Sample.fs_cut 101 = inl e ∧ code e = Some "EIO"%string.
Proof.
  intros file physical.
  assert (Sample.fstat Sample.fs_cut 101
          = inl (EncryptedFS.createError Sample.ERRNO_CODES "EIO"
                   "Partial encrypted page (physicalSize=8258, tail=8210)" None))
    as Hstat by (vm_compute; reflexivity).
  split; [vm_compute; reflexivity|].
  split; [vm_compute; reflexivity|].
  split; [vm_compute; reflexivity|].
  split; [vm_compute; discriminate|].
  rewrite Hstat. clear Hstat. split; [discriminate|].
  eexists. split; reflexivity.
Qed.

(** C8: a plain [O_WRONLY] open, without [O_TRUNC] and without [O_APPEND],
    is translated to the host mode ["w"], which truncates: opening the
    existing one-page file of [fs3] that way leaves 48 bytes of it, under a
    new file id.  [O_CREAT | O_RDWR] is translated to ["r+"], which does
    not create. *)
Theorem C8_wronly_open_truncates :
  Z.land EncryptedFS.O_WRONLY EncryptedFS.O_TRUNC = 0 ∧
  Z.land EncryptedFS.O_WRONLY EncryptedFS.O_APPEND = 0 ∧
  EncryptedFS.emFlagsToNode EncryptedFS.O_WRONLY = "w"%string ∧
  HostFs.om_trunc <$> HostFs.parse_flags "w" = Some true ∧
  HostFs.om_excl <$> HostFs.parse_flags "w" = Some false ∧
  blen (Sample.host_get Sample.fs3 "/data/f") = 8268 ∧
  (Sample.open Sample.fs3 "/f" (inl EncryptedFS.O_WRONLY)).1 = inr 101 ∧
  blen (Sample.host_get (Sample.open Sample.fs3 "/f" (inl EncryptedFS.O_WRONLY)).2
          "/data/f") = 48 ∧
  EncryptedFS.emFlagsToNode (Z.lor EncryptedFS.O_CREAT EncryptedFS.O_RDWR) = "r+"%string ∧
  HostFs.om_create <$> HostFs.parse_flags "r+" = Some false.
Proof.
  repeat (apply conj); vm_compute; reflexivity.
Qed.

(** C5 (amended) on the directory that [fs0] initialized under [key1],
    opened again under [key2]: decryption fails. *)
Lemma C5_bad_token_witness :
  let h := EncryptedFS.host Sample.fs0 in
  let data := Sample.host_get Sample.fs0 "/data/.encryption-verify" in
  let rejected := new_Error "Unsupported state or unable to authenticate data" in
  let e0 := new_Error_cause "Decryption failed for page 0: authentication failed."
              rejected in
  Sample.decryptPage data 0 Sample.key2 (Crypto.VERIFICATION_FILE_ID Sample.sha256)
  = inl e0 ∧
  ∃ e h',
    Sample.constructor h 1 "/data" Sample.key2 Sample.salt1 = inl (e, h', 1) ∧
    HostFs.files h' = HostFs.files h ∧
    message e = "Invalid passphrase or corrupted encryption keys"%string ∧
    code e = None ∧ errno e = None ∧
    cause e =
      (if bool_decide (blen data ≠ Crypto.ENCRYPTED_PAGE_SIZE) then None
       else match Crypto.decryptPage Sample.gcm_decrypt data 0 Sample.key2
                    (Crypto.VERIFICATION_FILE_ID Sample.sha256) with
            | inl e0 => Some e0
            | inr _ => None
            end).
Proof.
  intros h data rejected e0.
  assert (Sample.decryptPage data 0 Sample.key2
            (Crypto.VERIFICATION_FILE_ID Sample.sha256) = inl e0) as Hdec
    by (vm_compute; reflexivity).
  split; [exact Hdec|].
  apply (C5_bad_token_is_invalid_passphrase Sample.gcm_encrypt Sample.gcm_decrypt
           Sample.randomBytes Sample.sha256 h 1 "/data" Sample.key2 Sample.salt1 data).
  - vm_compute; reflexivity.
  - right; left. exists e0. exact Hdec.
Defined.

(** C5 as stated fails: the error tells a cut token from a wrong key.  Over
    the intact token and the wrong key the error carries a cause; over a
    token cut to 100 bytes and the right key it carries none.  The two
    messages are the same.  And a directory without a token is no failure:
    the constructor writes the token and returns the instance [fs0]. *)
Lemma C5_error_tells_cut_token_from_wrong_key :
  (∃ eA eB hA hB,
     Sample.constructor (EncryptedFS.host Sample.fs0) 1 "/data" Sample.key2 Sample.salt1
     = inl (eA, hA, 1) ∧
     Sample.constructor Sample.host_cut_token 1 "/data" Sample.key1 Sample.salt1
     = inl (eB, hB, 1) ∧
     message eA = message eB ∧
     is_Some (cause eA) ∧ cause eB = None ∧ eA ≠ eB) ∧
  HostFs.files Sample.host0 !! "/data/.encryption-verify"%string = None ∧
  Sample.constructor Sample.host0 0 "/data" Sample.key1 Sample.salt1 = inr Sample.fs0.
Proof.
  split; [|split; vm_compute; reflexivity].
  pose (rejected := new_Error "Unsupported state or unable to authenticate data").
  pose (e0 := new_Error_cause "Decryption failed for page 0: authentication failed."
                rejected).
  exists (new_Error_cause EncryptedFS.INVALID_PASSPHRASE e0),
         (new_Error EncryptedFS.INVALID_PASSPHRASE),
         (EncryptedFS.host Sample.fs0), Sample.host_cut_token.
  split; [vm_compute; reflexivity|].
  split; [vm_compute; reflexivity|].
  split; [reflexivity|]. split; [by eexists|]. split; [reflexivity|].
  discriminate.
Qed.

(** The read path of C7 on [fs_cut]: the file holds 8210 bytes of page 0,
    and a one-byte read at position 0 fails with EIO. *)
Lemma C7_short_page_read_witness :
  let file := Sample.handle Sample.fs_cut 101 in
  (∃ n page,
     HostFs.readSync (EncryptedFS.host Sample.fs_cut) (EncryptedFS.realFd file)
       (Buffer_alloc Crypto.ENCRYPTED_PAGE_SIZE) 0 Crypto.ENCRYPTED_PAGE_SIZE
       (Crypto.FILE_HEADER_SIZE + 0 * Crypto.ENCRYPTED_PAGE_SIZE)
     = inr (n, page) ∧ 0 < n < Crypto.ENCRYPTED_PAGE_SIZE) ∧
  (∃ e buffer',
     Sample.read Sample.fs_cut 101 [x00] 0 1 (Some 0) = (inl e, buffer', Sample.fs_cut) ∧
     code e = Some "EIO"%string ∧ errno e = Some EncryptedFS.EIO) ∧
  EncryptedFS.write_load_page Sample.gcm_decrypt Sample.ERRNO_CODES Sample.fs_cut file 0
  = inr (Buffer_alloc Crypto.PAGE_SIZE).
Proof.
  intros file.
  apply (C7_short_page_read_is_fatal_on_read Sample.gcm_decrypt Sample.ERRNO_CODES
           Sample.fs_cut 101 file
           (Sample.host_fd Sample.fs_cut (EncryptedFS.realFd file))
           (Sample.host_get Sample.fs_cut "/data/f") [x00] 0 1 (Some 0) 0).
  - vm_compute; reflexivity.
  - vm_compute; reflexivity.
  - vm_compute; reflexivity.
  - vm_compute; discriminate.
  - vm_compute; reflexivity.
  - vm_compute; reflexivity.
  - vm_compute; reflexivity.
  - vm_compute; discriminate.
  - lia.
  - vm_compute. split; reflexivity.
  - vm_compute. split; discriminate.
Defined.

(** C7, the defect: on the write path a short read of a page is not
    fatal.  On [fs_cut] the host returns 8210 bytes of page 0, more than 0
    and fewer than ENCRYPTED_PAGE_SIZE, and a one-byte write at position 0
    does not fail; it returns 1, where a read of the same page fails with
    EIO.  The write puts a page of zeros and the byte written in the place
    of the cut page: afterwards the file has its 8268 bytes again and the
    read that failed returns a zero. *)
Lemma C7_write_proceeds_after_short_read :
  match HostFs.readSync (EncryptedFS.host Sample.fs_cut) 4
          (Buffer_alloc Crypto.ENCRYPTED_PAGE_SIZE) 0 Crypto.ENCRYPTED_PAGE_SIZE
          Crypto.FILE_HEADER_SIZE with
  | inr (n, _) => n
  | inl _ => -1
  end = 8210 ∧
  EncryptedFS.realFd (Sample.handle Sample.fs_cut 101) = 4 ∧
  EncryptedFS.encrypted (Sample.handle Sample.fs_cut 101) = true ∧
  (Sample.write Sample.fs_cut 101 [x01] 0 1 (Some 0)).1 = inr 1 ∧
  (let '(res, _, _) := Sample.read Sample.fs_cut 101 [xff] 0 1 (Some 1) in
   match res with inl e => code e | inr _ => None end) = Some "EIO"%string ∧
  (let s' := (Sample.write Sample.fs_cut 101 [x01] 0 1 (Some 0)).2 in
   blen (Sample.host_get s' "/data/f") = 8268 ∧
   (let '(res, buffer, _) := Sample.read s' 101 [xff] 0 1 (Some 1) in
    (res, buffer)) = (inr 1, [x00])).
Proof.
  repeat (apply conj); vm_compute; reflexivity.
Qed.

(** C3 on the header-only file of [fs1], truncated to one page's length. *)
Lemma C3_truncate_witness :
  let s := Sample.fs1 in
  let s' := (Sample.truncate Sample.fs1 "/f" 8192).2 in
  EncryptedFS.shouldEncrypt "/f" = true ∧ 0 <= 8192 ∧
  Sample.truncate s "/f" 8192 = (inr (), s') ∧
  let fullPath := EncryptedFS.resolvePath s "/f" in
  let new_pages := EncryptedFS.ceil_div 8192 Crypto.PAGE_SIZE in
  ∃ d d',
    HostFs.files (EncryptedFS.host s) !! fullPath = Some d ∧
    HostFs.files (EncryptedFS.host s') !! fullPath = Some d' ∧
    (new_pages - 1) * Crypto.PAGE_SIZE < 8192 <= new_pages * Crypto.PAGE_SIZE ∧
    blen d' = Crypto.FILE_HEADER_SIZE + new_pages * Crypto.ENCRYPTED_PAGE_SIZE ∧
    (∃ k, 0 <= k ∧
          blen d' = Crypto.FILE_HEADER_SIZE + k * Crypto.ENCRYPTED_PAGE_SIZE) ∧
    let cur_pages :=
      EncryptedFS.currentPageCount_of
        (EncryptedFS.currentPhysical_of (EncryptedFS.host s) fullPath) in
    (cur_pages < new_pages →
     EncryptedFS.currentPhysical_of (EncryptedFS.host s) fullPath = blen d ∧
     take (Z.to_nat (Crypto.FILE_HEADER_SIZE + cur_pages * Crypto.ENCRYPTED_PAGE_SIZE)) d'
     = take (Z.to_nat (Crypto.FILE_HEADER_SIZE + cur_pages * Crypto.ENCRYPTED_PAGE_SIZE)) d ∧
     ∀ i, cur_pages <= i < new_pages →
          ∃ ri, Crypto.encryptPage Sample.gcm_encrypt Sample.randomBytes ri
                  (Buffer_fill Crypto.PAGE_SIZE x00) i (EncryptedFS.encKey s)
                  (subarray d Crypto.SALT_SIZE (Crypto.SALT_SIZE + Crypto.FILE_ID_SIZE))
                = (inr (subarray d'
                          (Crypto.FILE_HEADER_SIZE + i * Crypto.ENCRYPTED_PAGE_SIZE)
                          (Crypto.FILE_HEADER_SIZE + (i + 1) * Crypto.ENCRYPTED_PAGE_SIZE)),
                   ri + 1)).
Proof.
  intros s s'.
  assert (EncryptedFS.shouldEncrypt "/f" = true) as H1 by (vm_compute; reflexivity).
  assert (0 <= 8192) as H2 by lia.
  assert (Sample.truncate s "/f" 8192 = (inr (), s')) as H3
    by (vm_compute; reflexivity).
  split; [exact H1|]. split; [exact H2|]. split; [exact H3|].
  exact (C3_truncate_sets_physical_size Sample.gcm_encrypt Sample.randomBytes
           Sample.ERRNO_CODES sample_gcm_lengths sample_random_lengths
           s "/f" 8192 s' H1 H2 H3).
Defined.

(** The repository's test "partial page write preserves existing data" on
    the sample instance: the file holds a page of 0xff, ten bytes are
    written at position 100 through an ['r+'] handle, and a read of
    positions 99..110 returns 0xff, the ten bytes, 0xff. *)
Example partial_write_through_readable_handle :
  let s1 := (Sample.write Sample.fs4 101 Sample.patch 0 10 (Some 100)).2 in
  (Sample.write Sample.fs4 101 Sample.patch 0 10 (Some 100)).1 = inr 10 ∧
  (Sample.read s1 101 (Buffer_alloc 12) 0 12 (Some 99)).1
  = (inr 12, [xff] ++ Sample.patch ++ [xff]).
Proof.
  split; vm_compute; reflexivity.
Qed.

(** C2: the same write through the handle that [open('/f', 'w')] returned
    loses the rest of the page.  Handle 100 of [fs2] was opened with ['w']
    and wrote a page of 0xff; handle 101 is opened with ['r'] to look at the
    file.  Position 0 reads 0xff; after ten bytes are written at position
    100 through handle 100, position 0 reads 0x00, and so do positions 99
    and 110. *)
Theorem C2_write_only_handle_loses_page :
  let s := (Sample.open Sample.fs2 "/f" (inr "r"%string)).2 in
  let s1 := (Sample.write s 100 Sample.patch 0 10 (Some 100)).2 in
  EncryptedFS.flags (Sample.handle s 100) = "w"%string ∧
  EncryptedFS.encrypted (Sample.handle s 100) = true ∧
  (Sample.open Sample.fs2 "/f" (inr "r"%string)).1 = inr 101 ∧
  (Sample.read s 101 (Buffer_alloc 12) 0 12 (Some 99)).1
  = (inr 12, replicate 12 xff) ∧
  (Sample.read s 101 [x01] 0 1 (Some 0)).1 = (inr 1, [xff]) ∧
  (Sample.write s 100 Sample.patch 0 10 (Some 100)).1 = inr 10 ∧
  (Sample.read s1 101 [x01] 0 1 (Some 0)).1 = (inr 1, [x00]) ∧
  (Sample.read s1 101 (Buffer_alloc 12) 0 12 (Some 99)).1
  = (inr 12, [x00] ++ Sample.patch ++ [x00]).
Proof.
  repeat (apply conj); vm_compute; reflexivity.
Qed.

(** The one-page file of [fs4] is well-formed, so the frame lemma applies
    to the write of the repository's test: position 0 reads 0xff before and
    after ten bytes are written at position 100 through the ['r+'] handle. *)
Example write_frame_on_readable_handle :
  let s := Sample.fs4 in
  let s' := (Sample.write s 101 Sample.patch 0 10 (Some 100)).2 in
  let fid := EncryptedFS.fileId (Sample.handle s 101) in
  ∃ d' k',
    HostFs.files (EncryptedFS.host s') !! "/data/f"%string = Some d' ∧
    EncryptedFS.well_formed_file Sample.gcm_decrypt Sample.key1 fid d' k' ∧
    1 <= k' ∧
    EncryptedFS.logical_byte Sample.gcm_decrypt Sample.key1 fid d' 0 = Some xff.
Proof.
  intros s s' fid.
  pose (file := Sample.handle s 101).
  pose (d := Sample.host_get s "/data/f").
  assert (EncryptedFS.well_formed_file Sample.gcm_decrypt Sample.key1 fid d 1) as Hwf.
  { split; [lia|]. split; [vm_compute; reflexivity|].
    intros i Hi. assert (i = 0) as -> by lia.
    exists (Buffer_fill Crypto.PAGE_SIZE xff). split; vm_compute; reflexivity. }
  destruct (write_preserves_bytes_outside_window
              Sample.gcm_encrypt Sample.gcm_decrypt Sample.randomBytes Sample.ERRNO_CODES
              sample_gcm_lengths sample_random_lengths sample_gcm_roundtrip
              s 101 file (Sample.host_fd s 4) d 1 Sample.patch 0 10 (Some 100) 10 s')
    as (d' & k' & Hd' & Hwf' & Hk' & Hframe).
  - vm_compute; reflexivity.
  - vm_compute; reflexivity.
  - vm_compute; reflexivity.
  - vm_compute; reflexivity.
  - vm_compute; reflexivity.
  - vm_compute; reflexivity.
  - vm_compute; reflexivity.
  - exact Hwf.
  - lia.
  - vm_compute; discriminate.
  - vm_compute; discriminate.
  - vm_compute; reflexivity.
  - exists d', k'. split; [exact Hd'|]. split; [exact Hwf'|]. split; [exact Hk'|].
    etrans; [apply Hframe|].
    + vm_compute. split; [discriminate | reflexivity].
    + left. vm_compute. reflexivity.
    + vm_compute; reflexivity.
Qed.

(** * Further properties of the code *)

Local Set Default Proof Using "Type".

(** ** crypto.ts: the AAD, long plaintexts, key derivation *)

Ltac sizes :=
  unfold Crypto.ENCRYPTED_PAGE_SIZE, Crypto.FILE_HEADER_SIZE, Crypto.PAGE_SIZE,
         Crypto.IV_SIZE, Crypto.AUTH_TAG_SIZE, Crypto.SALT_SIZE,
         Crypto.FILE_ID_SIZE in *.

Lemma byte_of_Z_inj (a b : Z) : byte_of_Z a = byte_of_Z b → a mod 256 = b mod 256.
Proof.
  unfold byte_of_Z. intros H.
  assert (∀ z, ∃ x, Byte.of_N (Z.to_N (z mod 256)) = Some x ∧
                    Byte.to_N x = Z.to_N (z mod 256)) as Hex.
  { intros z. pose proof (Z.mod_pos_bound z 256 ltac:(lia)) as Hb.
    destruct (Byte.of_N (Z.to_N (z mod 256))) as [x|] eqn:Hx.
    - exists x. split; [done|]. by apply Byte.to_of_N.
    - apply Byte.of_N_None_iff in Hx. lia. }
  destruct (Hex a) as (x & Hx & Hxa), (Hex b) as (y & Hy & Hyb).
  rewrite Hx, Hy in H. subst y.
  pose proof (Z.mod_pos_bound a 256 ltac:(lia)).
  pose proof (Z.mod_pos_bound b 256 ltac:(lia)). lia.
Qed.

Lemma writeUInt32BE_inj (n m : Z) :
  0 <= n < 2 ^ 32 → 0 <= m < 2 ^ 32 →
  writeUInt32BE n = writeUInt32BE m → n = m.
Proof.
  intros Hn Hm. unfold writeUInt32BE. intros [= H3 H2 H1 H0].
  apply byte_of_Z_inj in H3, H2, H1, H0.
  rewrite !Z.shiftr_div_pow2 in * by lia.
  change (2 ^ 24) with 16777216 in *. change (2 ^ 16) with 65536 in *.
  change (2 ^ 8) with 256 in *. change (2 ^ 32) with 4294967296 in *.
  Z.div_mod_to_equations. lia.
Qed.

(** The additional authenticated data of a page is the file id followed
    by the page number in 4 big-endian bytes.  For file ids of one length
    and page numbers in range it determines both, so two pages share their
    AAD only when they are the same page of the same file. *)
Theorem aad_determines_file_and_page (fileId1 fileId2 : bytes) (pageNo1 pageNo2 : Z) :
  blen fileId1 = blen fileId2 →
  0 <= pageNo1 < 2 ^ 32 → 0 <= pageNo2 < 2 ^ 32 →
  Crypto.aad_of fileId1 pageNo1 = Crypto.aad_of fileId2 pageNo2 →
  fileId1 = fileId2 ∧ pageNo1 = pageNo2.
Proof.
  intros Hlen H1 H2. unfold Crypto.aad_of. intros Heq.
  apply app_inj_1 in Heq as [-> Hw]; [|unfold blen in Hlen; lia].
  split; [done|]. by apply writeUInt32BE_inj.
Qed.

Section Codec_more.

Context (gcm_encrypt : bytes → bytes → bytes → bytes → JsError + (bytes * bytes))
        (gcm_decrypt : bytes → bytes → bytes → bytes → bytes → JsError + bytes)
        (randomBytes : Z → Z → bytes)
        (pbkdf2Sync : string → bytes → Z → Z → string → bytes).

Import Crypto.

Hypothesis Hlengths : gcm_lengths gcm_encrypt.
Hypothesis Hroundtrip : gcm_roundtrip gcm_encrypt gcm_decrypt.
Hypothesis Hrandom : random_lengths randomBytes.

Local Abbreviation encryptPage := (Crypto.encryptPage gcm_encrypt randomBytes).
Local Abbreviation decryptPage := (Crypto.decryptPage gcm_decrypt).

(** [plaintext.copy(Buffer.alloc(PAGE_SIZE))] of a plaintext longer than a
    page keeps its first page. *)
Lemma Buffer_copy_cut (pt : bytes) :
  PAGE_SIZE < blen pt →
  Buffer_copy pt (Buffer_alloc PAGE_SIZE) 0 0 (blen pt)
  = inr (take (Z.to_nat PAGE_SIZE) pt).
Proof.
  intros Hlong. unfold Buffer_copy. rewrite blen_alloc by (sizes; lia).
  rewrite !bool_decide_eq_false_2 by (sizes; lia).
  rewrite bool_decide_eq_true_2 by lia.
  replace (Z.min (0 + (PAGE_SIZE - 0) - 0) (blen pt - 0)) with PAGE_SIZE by lia.
  change (Z.to_nat 0) with 0%nat. rewrite take_0, drop_0, Z.add_0_l. cbn [app].
  unfold Buffer_alloc. rewrite drop_replicate, Nat.sub_diag. by rewrite app_nil_r.
Qed.

(** [encryptPage] never fails on the length of the plaintext: a short one
    is zero-padded and a long one is cut, so for a 32-byte key and a page
    number in range the page it returns decrypts to the first PAGE_SIZE bytes
    of the plaintext followed by zeros. *)
Lemma encryptPage_first_page rng (pt : bytes) pageNo key fileId :
  blen key = 32 → 0 <= pageNo <= 4294967295 →
  ∃ page,
    encryptPage rng pt pageNo key fileId = (inr page, rng + 1) ∧
    blen page = ENCRYPTED_PAGE_SIZE ∧
    decryptPage page pageNo key fileId
    = inr (take (Z.to_nat PAGE_SIZE) (pt ++ replicate (Z.to_nat PAGE_SIZE) x00)).
Proof using Hlengths Hroundtrip Hrandom.
  intros Hkey Hp. pose proof (blen_nonneg pt) as Hpt.
  destruct (decide (blen pt <= PAGE_SIZE)) as [Hshort|Hlong].
  - destruct (encryptPage_decryptPage gcm_encrypt gcm_decrypt randomBytes
                Hlengths Hroundtrip Hrandom rng pt pageNo key fileId)
      as (page & Henc & Hlen & Hdec); [done..|].
    exists page. split; [done|]. split; [done|]. rewrite Hdec. f_equal.
    unfold padded_page. rewrite take_app_ge by (unfold blen in *; lia).
    f_equal. rewrite take_replicate. f_equal. unfold blen in *. sizes; lia.
  - assert (blen (take (Z.to_nat PAGE_SIZE) pt) = PAGE_SIZE) as Hcut
      by (rewrite blen_take by (sizes; lia); lia).
    destruct (encryptPage_decryptPage gcm_encrypt gcm_decrypt randomBytes
                Hlengths Hroundtrip Hrandom rng (take (Z.to_nat PAGE_SIZE) pt)
                pageNo key fileId)
      as (page & Henc & Hlen & Hdec); [done | done | lia |].
    exists page. split; [|split; [done|]].
    + rewrite <- Henc. unfold Crypto.encryptPage.
      rewrite !bool_decide_eq_false_2 by lia.
      rewrite bool_decide_eq_true_2 by lia.
      rewrite Buffer_copy_cut by lia.
      by rewrite (bool_decide_eq_false_2 (blen (take _ pt) ≠ PAGE_SIZE)) by (intros Hne; by apply Hne).
    + rewrite Hdec. f_equal. rewrite padded_page_full by done.
      rewrite take_app_le by (unfold blen in *; lia). done.
Qed.

(** A plaintext longer than a page is not refused: for a 32-byte key and a
    page number in range [encryptPage] returns a page of the usual size that
    decrypts to the first PAGE_SIZE bytes of the plaintext; the bytes after
    them are in no output. *)
Theorem encryptPage_cuts_long_plaintext rng (pt : bytes) pageNo key fileId :
  blen key = 32 → 0 <= pageNo <= 4294967295 → PAGE_SIZE < blen pt →
  ∃ page,
    encryptPage rng pt pageNo key fileId = (inr page, rng + 1) ∧
    blen page = ENCRYPTED_PAGE_SIZE ∧
    decryptPage page pageNo key fileId = inr (take (Z.to_nat PAGE_SIZE) pt) ∧
    encryptPage rng (take (Z.to_nat PAGE_SIZE) pt) pageNo key fileId
    = (inr page, rng + 1).
Proof using Hlengths Hroundtrip Hrandom.
  intros Hkey Hp Hlong.
  destruct (encryptPage_first_page rng pt pageNo key fileId Hkey Hp)
    as (page & Henc & Hlen & Hdec).
  exists page. split; [done|]. split; [done|]. split.
  - rewrite Hdec. f_equal. apply take_app_le. unfold blen in *. lia.
  - rewrite <- Henc. unfold Crypto.encryptPage.
    rewrite !bool_decide_eq_false_2 by lia.
    rewrite (bool_decide_eq_true_2 (blen pt ≠ PAGE_SIZE)) by lia.
    rewrite (Buffer_copy_cut pt) by lia.
    rewrite (bool_decide_eq_false_2 (blen (take _ pt) ≠ PAGE_SIZE)); [done|].
    intros Hne. apply Hne. rewrite blen_take by (sizes; lia). lia.
Qed.

(** [deriveKeys] accepts the salts of 16 bytes and no others, and a salt
    that [randomSalt] drew is one of them. *)
Theorem deriveKeys_accepts_randomSalt (passphrase : string) (rng : Z) (salt : bytes) :
  (blen salt ≠ SALT_SIZE →
   deriveKeys pbkdf2Sync passphrase salt = inl (new_Error "Invalid salt length")) ∧
  (blen salt = SALT_SIZE →
   deriveKeys pbkdf2Sync passphrase salt
   = inr (pbkdf2Sync passphrase salt KDF_ITERATIONS 32 "sha512")) ∧
  ∃ key, deriveKeys pbkdf2Sync passphrase (randomSalt randomBytes rng).1 = inr key.
Proof using Hrandom.
  unfold deriveKeys. split; [|split].
  - intros H. by rewrite bool_decide_eq_true_2.
  - intros H. by rewrite bool_decide_eq_false_2 by (intros Hne; by apply Hne).
  - eexists. cbn [randomSalt fst].
    rewrite bool_decide_eq_false_2; [done|].
    intros Hne. apply Hne. apply Hrandom. sizes; lia.
Qed.

End Codec_more.

(** ** encrypted-fs.ts: the open flags *)

(** Every numeric flag word is turned into one of the flag strings that
    [fs.openSync] knows, and the string depends on six bits only.  With
    rw, w, a, t, c, x for the bits O_RDWR, O_WRONLY, O_APPEND, O_TRUNC,
    O_CREAT, O_EXCL: the descriptor is readable when rw is set or none of w,
    a, t is; it is writable unless none of rw, w, a, t is set; it appends
    exactly when a is set; it truncates when a is clear and t, or w without
    rw, is set; it is exclusive when x and c are set and the string is not
    ['r'] or ['r+']; and every string other than ['r'] and ['r+'] creates
    the file. *)
Theorem emFlagsToNode_decodes (flags : Z) :
  let rw := Z.land flags EncryptedFS.O_RDWR =? EncryptedFS.O_RDWR in
  let w := Z.land flags EncryptedFS.O_WRONLY =? EncryptedFS.O_WRONLY in
  let a := Z.land flags EncryptedFS.O_APPEND =? EncryptedFS.O_APPEND in
  let t := Z.land flags EncryptedFS.O_TRUNC =? EncryptedFS.O_TRUNC in
  let c := Z.land flags EncryptedFS.O_CREAT =? EncryptedFS.O_CREAT in
  let x := Z.land flags EncryptedFS.O_EXCL =? EncryptedFS.O_EXCL in
  ∃ m, HostFs.parse_flags (EncryptedFS.emFlagsToNode flags) = Some m ∧
       HostFs.om_read m = rw || negb (w || a || t) ∧
       HostFs.om_write m = rw || w || a || t ∧
       HostFs.om_append m = a ∧
       HostFs.om_trunc m = negb a && (t || (w && negb rw)) ∧
       HostFs.om_create m = a || t || (w && negb rw) ∧
       HostFs.om_excl m = x && c && (a || t || (w && negb rw)).
Proof.
  unfold EncryptedFS.emFlagsToNode. cbv zeta.
  destruct (Z.land flags EncryptedFS.O_RDWR =? EncryptedFS.O_RDWR),
           (Z.land flags EncryptedFS.O_WRONLY =? EncryptedFS.O_WRONLY),
           (Z.land flags EncryptedFS.O_APPEND =? EncryptedFS.O_APPEND),
           (Z.land flags EncryptedFS.O_TRUNC =? EncryptedFS.O_TRUNC),
           (Z.land flags EncryptedFS.O_CREAT =? EncryptedFS.O_CREAT),
           (Z.land flags EncryptedFS.O_EXCL =? EncryptedFS.O_EXCL);
    (eexists; split; [reflexivity|]; repeat split).
Qed.

(** ** encrypted-fs.ts: handles, keys and the host across calls *)

Section Handle_properties.

Context (gcm_encrypt : bytes → bytes → bytes → bytes → JsError + (bytes * bytes))
        (gcm_decrypt : bytes → bytes → bytes → bytes → bytes → JsError + bytes)
        (randomBytes : Z → Z → bytes)
        (sha256 : bytes → bytes)
        (ERRNO_CODES : string → option Z).

Import Crypto HostFs EncryptedFS.

Local Abbreviation createError := (EncryptedFS.createError ERRNO_CODES).
Local Abbreviation getErrorCode := (EncryptedFS.getErrorCode ERRNO_CODES).
Local Abbreviation read := (EncryptedFS.read gcm_decrypt ERRNO_CODES).
Local Abbreviation write :=
  (EncryptedFS.write gcm_encrypt gcm_decrypt randomBytes ERRNO_CODES).
Local Abbreviation write_pages :=
  (EncryptedFS.write_pages gcm_encrypt gcm_decrypt randomBytes ERRNO_CODES).
Local Abbreviation open := (EncryptedFS.open randomBytes ERRNO_CODES).
Local Abbreviation open_body := (EncryptedFS.open_body randomBytes ERRNO_CODES).
Local Abbreviation close := (EncryptedFS.close ERRNO_CODES).
Local Abbreviation truncate :=
  (EncryptedFS.truncate gcm_encrypt randomBytes ERRNO_CODES).
Local Abbreviation fstat := (EncryptedFS.fstat ERRNO_CODES).
Local Abbreviation fsync := (EncryptedFS.fsync ERRNO_CODES).
Local Abbreviation constructor :=
  (EncryptedFS.constructor gcm_encrypt gcm_decrypt randomBytes sha256).
Local Abbreviation run_call :=
  (EncryptedFS.run_call gcm_encrypt gcm_decrypt randomBytes ERRNO_CODES).
Local Abbreviation run_calls :=
  (EncryptedFS.run_calls gcm_encrypt gcm_decrypt randomBytes ERRNO_CODES).

(** Drops the parameters that a statement does not mention. *)
Local Ltac tidy :=
  try clear sha256; try clear gcm_encrypt; try clear gcm_decrypt;
  try clear randomBytes; try clear ERRNO_CODES.

(** The fields of the instance that no call but [destroy] assigns. *)
Local Abbreviation same_instance s s' :=
  (encKey s' = encKey s ∧ salt s' = salt s ∧ dataDir s' = dataDir s ∧
   cwd s' = cwd s ∧ destroyed s' = destroyed s).

(** What [open] does to the table of handles: nothing when it throws, and
    one entry under the next descriptor when it returns. *)
Lemma open_body_handles (s : State) q nf :
  (∃ e s', open_body s q nf = (inl e, s') ∧
           openFiles s' = openFiles s ∧ nextFd s' = nextFd s ∧ same_instance s s') ∨
  (∃ file s', open_body s q nf = (inr (nextFd s), s') ∧
              openFiles s' = <[nextFd s := file]> (openFiles s) ∧
              nextFd s' = nextFd s + 1 ∧ same_instance s s').
Proof.
  unfold EncryptedFS.open_body.
  destruct (existsSync _ _ && _).
  { right. eexists _, _. split; [done|]. by simpl. }
  match goal with
  | |- context [if ?c then initializeEncryptedFile ?a1 ?a2 ?a3 ?a4 ?a5 else ?z] =>
      destruct (if c then initializeEncryptedFile a1 a2 a3 a4 a5 else z)
        as [[[e|fileId0] h1] r1]
  end.
  { left. eexists _, _. split; [done|]. by simpl. }
  destruct (openSync _ _ _) as [[e|fd] h2].
  { left. eexists _, _. split; [done|]. by simpl. }
  destruct (open_header _ _ _ _ _ _ _ _ _ _) as [[[e|fileId] h3] r3].
  { left. eexists _, _. split; [done|]. by simpl. }
  right. eexists _, _. split; [done|]. by simpl.
Qed.

Lemma open_handles (s : State) p f :
  (∃ e s', open s p f = (inl e, s') ∧
           openFiles s' = openFiles s ∧ nextFd s' = nextFd s ∧ same_instance s s') ∨
  (∃ file s', open s p f = (inr (nextFd s), s') ∧
              openFiles s' = <[nextFd s := file]> (openFiles s) ∧
              nextFd s' = nextFd s + 1 ∧ same_instance s s').
Proof.
  unfold EncryptedFS.open.
  destruct (open_body_handles s (normalizePath s p) (emFlagsToNode' f))
    as [(e & s' & -> & H)|(file & s' & -> & H)].
  - left. by eexists _, _.
  - right. by eexists _, _.
Qed.

Lemma close_handles (s : State) fd :
  let s' := (close s fd).2 in
  (openFiles s' = openFiles s ∨ openFiles s' = delete fd (openFiles s)) ∧
  nextFd s' = nextFd s ∧ same_instance s s'.
Proof. tidy.
  unfold EncryptedFS.close.
  destruct (openFiles s !! fd) as [file|]; [|simpl; tauto].
  match goal with
  | |- context [if ?c then closeSync ?h ?k else ?z] =>
      destruct (if c then closeSync h k else z) as [[e|[]] h']
  end; simpl; tauto.
Qed.

Lemma truncate_handles (s : State) p len :
  let s' := (truncate s p len).2 in
  openFiles s' = openFiles s ∧ nextFd s' = nextFd s ∧ same_instance s s'.
Proof.
  unfold EncryptedFS.truncate.
  destruct (negb (shouldEncrypt p)).
  { by destruct (truncateSync _ _ _) as [r h]. }
  case_bool_decide.
  - by destruct (truncate_grow _ _ _ _ _ _ _ _) as [[res h] r].
  - by destruct (truncateSync _ _ _) as [r h].
Qed.

(** The loop of [write] changes the host and the count of random draws
    only; on the host, only the file of its descriptor. *)
Lemma write_pages_handles file buffer offset length logicalPos (n : nat) :
  ∀ (s : State) pageNo total,
    let s' := (write_pages s file buffer offset length logicalPos n pageNo total).2 in
    openFiles s' = openFiles s ∧ nextFd s' = nextFd s ∧ same_instance s s' ∧
    dirs (host s') = dirs (host s) ∧ fds (host s') = fds (host s) ∧
    next_fd (host s') = next_fd (host s) ∧
    ∀ hfd p, fds (host s) !! realFd file = Some hfd → p ≠ fd_path hfd →
             files (host s') !! p = files (host s) !! p.
Proof.
  induction n as [|n IH]; intros s pageNo total; cbn [EncryptedFS.write_pages].
  { by simpl. }
  destruct (write_load_page _ _ _ _ _) as [e|pagePlain]; [by simpl|].
  destruct (Buffer_copy _ _ _ _ _) as [e|pagePlain']; [by simpl|].
  destruct (encryptPage _ _ _ _ _ _ _) as [[e|page] r]; [by simpl|].
  destruct (writeSync (host s) _ _ _ _ _) as [[e|k] h] eqn:Hw.
  - assert (h = host s) as ->.
    { unfold writeSync in Hw. repeat case_match; by simplify_eq. }
    by simpl.
  - assert (dirs h = dirs (host s) ∧ fds h = fds (host s) ∧
            next_fd h = next_fd (host s) ∧
            ∀ hfd p, fds (host s) !! realFd file = Some hfd → p ≠ fd_path hfd →
                     files h !! p = files (host s) !! p) as (Hdirs & Hfds & Hnext & Hfiles).
    { unfold writeSync in Hw. repeat case_match; simplify_eq; simpl;
        (split; [done|]; split; [done|]; split; [done|]; intros hfd p [= <-] Hp;
         by rewrite lookup_insert_ne). }
    match goal with
    | |- context [EncryptedFS.write_pages _ _ _ _ ?s1 _ _ _ _ _ _ _ _] =>
        specialize (IH s1 (pageNo + 1)
                      (total + Z.min (length - total)
                                 (PAGE_SIZE - (logicalPos + total - pageNo * PAGE_SIZE))))
    end.
    cbv zeta in IH. simpl in IH.
    destruct IH as (H1 & H2 & H3 & H4 & H5 & H5' & H6).
    split; [done|]. split; [done|]. split; [done|].
    split; [by rewrite H4|]. split; [by rewrite H5|]. split; [by rewrite H5'|].
    intros hfd p Hfd Hp. rewrite (H6 hfd p); [by eapply Hfiles| by rewrite Hfds | done].
Qed.

Lemma write_handles (s : State) fd buffer offset length pos :
  let s' := (write s fd buffer offset length pos).2 in
  (openFiles s' = openFiles s ∨
   ∃ file p, openFiles s !! fd = Some file ∧
             openFiles s' = <[fd := with_position file p]> (openFiles s)) ∧
  nextFd s' = nextFd s ∧ same_instance s s' ∧
  dirs (host s') = dirs (host s) ∧ fds (host s') = fds (host s) ∧
  next_fd (host s') = next_fd (host s) ∧
  ∀ file hfd p, openFiles s !! fd = Some file →
                fds (host s) !! realFd file = Some hfd → p ≠ fd_path hfd →
                files (host s') !! p = files (host s) !! p.
Proof. tidy.
  unfold EncryptedFS.write.
  destruct (openFiles s !! fd) as [file|] eqn:Hf; [|simpl; tauto].
  destruct (destroyed s) eqn:Hd; [simpl; tauto|].
  case_bool_decide; [simpl; tauto|]. case_bool_decide; [simpl; tauto|].
  destruct (negb (encrypted file)).
  - destruct (writeSync (host s) _ _ _ _ _) as [[e|k] h] eqn:Hw.
    + assert (h = host s) as ->.
      { unfold writeSync in Hw. repeat case_match; by simplify_eq. }
      simpl. rewrite Hd. tauto.
    + assert (dirs h = dirs (host s) ∧ fds h = fds (host s) ∧
              next_fd h = next_fd (host s) ∧
              ∀ hfd p, fds (host s) !! realFd file = Some hfd → p ≠ fd_path hfd →
                       files h !! p = files (host s) !! p) as (Hdirs & Hfds & Hnext & Hfiles).
      { unfold writeSync in Hw. repeat case_match; simplify_eq; simpl;
          (split; [done|]; split; [done|]; split; [done|]; intros hfd p [= <-] Hp;
           by rewrite lookup_insert_ne). }
      simpl. split; [right; by eexists _, _|]. rewrite Hd.
      repeat (split; [done|]). intros file' hfd p [= <-]. apply Hfiles.
  - pose proof (write_pages_handles file buffer offset length (logicalPos_of file pos)
                  (Z.to_nat ((logicalPos_of file pos + length - 1) / PAGE_SIZE
                             - logicalPos_of file pos / PAGE_SIZE + 1))
                  s (logicalPos_of file pos / PAGE_SIZE) 0) as Hw.
    cbv zeta in Hw.
    destruct (EncryptedFS.write_pages _ _ _ _ _ _ _ _ _ _ _ _ _) as [[e|k] s1];
      simpl in *; destruct Hw as (H1 & H2 & H3 & H4 & H5 & H5' & H6).
    + split; [by left|]. split; [done|].
      split; [destruct H3 as (?&?&?&?&?); repeat split; congruence|].
      split; [done|]. split; [done|]. split; [done|].
      intros file' hfd p [= <-]. apply H6.
    + split; [right; eexists _, _; by rewrite H1|]. split; [done|].
      split; [destruct H3 as (?&?&?&?&?); repeat split; congruence|].
      split; [done|]. split; [done|]. split; [done|].
      intros file' hfd p [= <-]. apply H6.
Qed.

(** [read] assigns the position of its handle and nothing else. *)
Lemma read_handles (s : State) fd buffer offset length pos :
  let s' := (read s fd buffer offset length pos).2 in
  (openFiles s' = openFiles s ∨
   ∃ file p, openFiles s !! fd = Some file ∧
             openFiles s' = <[fd := with_position file p]> (openFiles s)) ∧
  nextFd s' = nextFd s ∧ same_instance s s' ∧ host s' = host s ∧ rng s' = rng s.
Proof. tidy.
  unfold EncryptedFS.read.
  destruct (openFiles s !! fd) as [file|] eqn:Hf; [|simpl; tauto].
  destruct (destroyed s) eqn:Hd; [simpl; tauto|].
  case_bool_decide; [simpl; tauto|]. case_bool_decide; [simpl; tauto|].
  destruct (negb (encrypted file)).
  - destruct (readSync _ _ _ _ _ _) as [e|[k b]]; simpl; [rewrite Hd; tauto|].
    split; [right; by eexists _, _|]. by rewrite Hd.
  - destruct (read_pages _ _ _ _ _ _ _ _ _ _ _) as [[e|k] b]; simpl; [rewrite Hd; tauto|].
    split; [right; by eexists _, _|]. by rewrite Hd.
Qed.

(** Descriptors are handed out in increasing order from 100 on, so the
    table of handles holds descriptors from 100 up to [nextFd] only. *)
Lemma run_call_below (s : State) (c : Call) :
  (100 <= nextFd s ∧ ∀ fd, is_Some (openFiles s !! fd) → 100 <= fd < nextFd s) →
  100 <= nextFd (run_call s c) ∧
  ∀ fd, is_Some (openFiles (run_call s c) !! fd) → 100 <= fd < nextFd (run_call s c).
Proof.
  intros [Hn Hinv].
  destruct c as [p f|vfd|vfd b o l ps|vfd b o l ps|vfd|p len|]; simpl.
  - destruct (open_handles s p f)
      as [(e & s' & -> & Ho & Hn' & _)|(file & s' & -> & Ho & Hn' & _)]; simpl.
    + rewrite Ho, Hn'. done.
    + rewrite Ho, Hn'. split; [lia|]. intros fd.
      destruct (decide (fd = nextFd s)) as [->|Hne]; [lia|].
      rewrite lookup_insert_ne by done. intros H. specialize (Hinv fd H). lia.
  - destruct (close_handles s vfd) as ([Ho|Ho] & Hn' & _); rewrite Hn', Ho.
    + done.
    + split; [done|]. intros fd. destruct (decide (fd = vfd)) as [->|Hne].
      * rewrite lookup_delete_eq. by intros [? ?].
      * rewrite lookup_delete_ne by done. apply Hinv.
  - destruct (read_handles s vfd b o l ps)
      as ([Ho|(file & q & Hf & Ho)] & Hn' & _); rewrite Hn', Ho; [done|].
    split; [done|]. intros fd. destruct (decide (fd = vfd)) as [->|Hne].
    + intros _. apply Hinv. by eexists.
    + rewrite lookup_insert_ne by done. apply Hinv.
  - destruct (write_handles s vfd b o l ps)
      as ([Ho|(file & q & Hf & Ho)] & Hn' & _); rewrite Hn', Ho; [done|].
    split; [done|]. intros fd. destruct (decide (fd = vfd)) as [->|Hne].
    + intros _. apply Hinv. by eexists.
    + rewrite lookup_insert_ne by done. apply Hinv.
  - done.
  - destruct (truncate_handles s p len) as (Ho & Hn' & _). by rewrite Hn', Ho.
  - unfold destroy. by destruct (destroyed s).
Qed.

Lemma run_calls_below (cs : list Call) (s : State) :
  (100 <= nextFd s ∧ ∀ fd, is_Some (openFiles s !! fd) → 100 <= fd < nextFd s) →
  100 <= nextFd (run_calls s cs) ∧
  ∀ fd, is_Some (openFiles (run_calls s cs) !! fd) → 100 <= fd < nextFd (run_calls s cs).
Proof.
  revert s. induction cs as [|c cs IH]; intros s Hinv; [done|].
  apply IH. by apply run_call_below.
Qed.

(** On an instance that the constructor returned, whatever was called in
    between, [open] returns a descriptor of 100 or more that names no open
    handle, registers the new handle under it and leaves every other handle
    as it was. *)
Theorem open_returns_fresh_descriptor
    (h : Host) r dir key slt (s0 : State) (cs : list Call) p flags fd (s' : State) :
  constructor h r dir key slt = inr s0 →
  open (run_calls s0 cs) p flags = (inr fd, s') →
  100 <= fd ∧ fd = nextFd (run_calls s0 cs) ∧
  openFiles (run_calls s0 cs) !! fd = None ∧
  is_Some (openFiles s' !! fd) ∧
  ∀ fd', fd' ≠ fd → openFiles s' !! fd' = openFiles (run_calls s0 cs) !! fd'.
Proof.
  intros Hc Ho.
  assert (100 <= nextFd s0 ∧ ∀ fd, is_Some (openFiles s0 !! fd) → 100 <= fd < nextFd s0)
    as Hinv0.
  { unfold EncryptedFS.constructor in Hc.
    destruct (verifyOrCreateToken _ _ _ _ _ _ _) as [[[e|[]] h2] r2]; [done|].
    injection Hc as <-. simpl. split; [lia|]. intros fd'. rewrite lookup_empty.
    by intros [? ?]. }
  destruct (run_calls_below cs s0 Hinv0) as [Hn Hinv].
  destruct (open_handles (run_calls s0 cs) p flags)
    as [(e & s1 & Heq & _)|(file & s1 & Heq & Hopen & _)];
    rewrite Heq in Ho; [done|].
  injection Ho as <- <-. split; [done|]. split; [done|]. split; [|split].
  - destruct (openFiles (run_calls s0 cs) !! nextFd (run_calls s0 cs)) eqn:E; [|done].
    assert (100 <= nextFd (run_calls s0 cs) < nextFd (run_calls s0 cs)); [|lia].
    apply Hinv. by eexists.
  - rewrite Hopen, lookup_insert_eq. by eexists.
  - intros fd' Hne. rewrite Hopen. by rewrite lookup_insert_ne.
Qed.

(** While the instance is not destroyed its key and salt are the ones it
    was built with; once [destroy] ran they are all zeros, of the same
    lengths, and stay so whatever is called afterwards. *)
Theorem keys_are_kept_until_destroy_zeroes_them (s : State) (cs : list Call) :
  destroyed s = false →
  let s' := run_calls s cs in
  (destroyed s' = false ∧ encKey s' = encKey s ∧ salt s' = salt s) ∨
  (destroyed s' = true ∧
   encKey s' = replicate (Datatypes.length (encKey s)) x00 ∧
   salt s' = replicate (Datatypes.length (salt s)) x00).
Proof.
  intros Hd. cbv zeta.
  enough (∀ s1,
            ((destroyed s1 = false ∧ encKey s1 = encKey s ∧ salt s1 = salt s) ∨
             (destroyed s1 = true ∧
              encKey s1 = replicate (Datatypes.length (encKey s)) x00 ∧
              salt s1 = replicate (Datatypes.length (salt s)) x00)) →
            let s2 := run_calls s1 cs in
            (destroyed s2 = false ∧ encKey s2 = encKey s ∧ salt s2 = salt s) ∨
            (destroyed s2 = true ∧
             encKey s2 = replicate (Datatypes.length (encKey s)) x00 ∧
             salt s2 = replicate (Datatypes.length (salt s)) x00)) as H.
  { apply H. by left. }
  induction cs as [|c cs IH]; intros s1 H1; [done|].
  cbn. apply IH.
  assert (∀ s2, encKey s2 = encKey s1 ∧ salt s2 = salt s1 ∧ dataDir s2 = dataDir s1 ∧
                cwd s2 = cwd s1 ∧ destroyed s2 = destroyed s1 →
                (destroyed s2 = false ∧ encKey s2 = encKey s ∧ salt s2 = salt s) ∨
                (destroyed s2 = true ∧
                 encKey s2 = replicate (Datatypes.length (encKey s)) x00 ∧
                 salt s2 = replicate (Datatypes.length (salt s)) x00)) as Hsame.
  { intros s2 (-> & -> & _ & _ & ->). done. }
  destruct c as [p f|vfd|vfd b o l ps|vfd b o l ps|vfd|p len|]; simpl.
  - apply Hsame.
    destruct (open_handles s1 p f)
      as [(e & s' & -> & _ & _ & H)|(file & s' & -> & _ & _ & H)]; exact H.
  - apply Hsame. apply (close_handles s1 vfd).
  - apply Hsame. apply (read_handles s1 vfd b o l ps).
  - apply Hsame. apply (write_handles s1 vfd b o l ps).
  - done.
  - apply Hsame. apply (truncate_handles s1 p len).
  - unfold destroy. destruct H1 as [(Hd1 & Hk & Hs)|(Hd1 & Hk & Hs)]; rewrite Hd1.
    + right. simpl. by rewrite Hk, Hs.
    + by right.
Qed.

(** *** What a successful [open] leaves behind *)

(** The tests [/[wa]/] and [/w/] that [open] makes on a flag string agree
    with what [fs.openSync] does with it. *)
Lemma parse_flags_tests (nf : string) (m : OpenMode) :
  parse_flags nf = Some m →
  includes nf "w" = om_trunc m ∧
  includes nf "w" || includes nf "a" = om_create m ∧
  (om_create m = true → om_write m = true) ∧
  (om_create m = false → om_read m = true ∧ om_excl m = false).
Proof.
  unfold parse_flags.
  repeat match goal with
         | |- context [String.eqb nf ?x] =>
             destruct (String.eqb nf x) eqn:E;
             [apply String.eqb_eq in E; subst nf; intros [= <-]; clear;
              (split; [reflexivity|]); (split; [reflexivity|]);
              split; cbn; intros; (reflexivity || discriminate || (split; reflexivity))
             |clear E]
         end.
  discriminate.
Qed.

Lemma existsSync_dir (h : Host) p sz : dirs h !! p = Some sz → existsSync h p = true.
Proof.
  intros H. unfold existsSync. rewrite H.
  rewrite (bool_decide_eq_true_2 (is_Some (Some sz))) by (by eexists).
  apply orb_true_r.
Qed.

Lemma existsSync_absent (h : Host) p :
  existsSync h p = false → files h !! p = None ∧ dirs h !! p = None.
Proof.
  unfold existsSync. intros H. apply orb_false_iff in H as [H1 H2].
  apply bool_decide_eq_false in H1, H2.
  split.
  - destruct (files h !! p) eqn:E; [|done]. exfalso. apply H1. by eexists.
  - destruct (dirs h !! p) eqn:E; [|done]. exfalso. apply H2. by eexists.
Qed.

Lemma existsSync_a_file (h : Host) p d : files h !! p = Some d → existsSync h p = true.
Proof.
  intros H. unfold existsSync. rewrite H.
  by rewrite (bool_decide_eq_true_2 (is_Some (Some d))) by (by eexists).
Qed.

(** [fs.openSync] when it returns a descriptor. *)
Lemma openSync_ok (h : Host) p nf fd h2 :
  openSync h p nf = (inr fd, h2) →
  ∃ m, parse_flags nf = Some m ∧ dirs h !! p = None ∧ fd = next_fd h ∧
       (is_Some (files h !! p) → om_excl m = false) ∧
       (files h !! p = None → om_create m = true) ∧
       h2 = {| files := <[p := match files h !! p with
                               | Some d => if om_trunc m then [] else d
                               | None => []
                               end]> (files h);
               dirs := dirs h;
               fds := <[next_fd h := {| fd_path := p; fd_read := om_read m;
                                        fd_write := om_write m;
                                        fd_append := om_append m |}]> (fds h);
               next_fd := next_fd h + 1 |}.
Proof.
  unfold openSync. destruct (parse_flags nf) as [m|]; [|done].
  case_bool_decide as Hdir; [done|].
  assert (dirs h !! p = None) as Hnone.
  { destruct (dirs h !! p) eqn:E; [|done]. exfalso. apply Hdir. by eexists. }
  destruct (files h !! p) as [d|] eqn:Hf.
  - destruct (om_excl m) eqn:Hx; [done|]. intros [= <- <-].
    exists m. repeat split; done.
  - destruct (below_file h p); [done|].
    destruct (om_create m) eqn:Hc; [|done]. intros [= <- <-].
    exists m. repeat split; done.
Qed.

(** The directory step of [open] creates at most the parent directory. *)
Lemma open_mkdir (h : Host) dir :
  let h0 := if negb (existsSync h dir) then mkdirSync h dir else h in
  files h0 = files h ∧ fds h0 = fds h ∧ next_fd h0 = next_fd h ∧
  (dirs h0 = dirs h ∨ dirs h0 = <[dir := 4096]> (dirs h)).
Proof. tidy. destruct (existsSync h dir); simpl; tauto. Qed.

Hypothesis Hrandom : random_lengths randomBytes.

(** A whole-buffer [writeSync] through a writable descriptor, in append
    mode or not. *)
Lemma writeSync_whole_at (h : Host) fd hfd old buf pos :
  fds h !! fd = Some hfd → fd_write hfd = true →
  files h !! fd_path hfd = Some old → 0 <= pos →
  writeSync h fd buf 0 (blen buf) pos
  = (inr (blen buf),
     with_files h (<[fd_path hfd := pwrite old buf (if fd_append hfd then blen old else pos)]>
                     (files h))).
Proof.
  intros Hfd Hw Hold Hpos. pose proof (blen_nonneg buf). unfold writeSync.
  rewrite !bool_decide_eq_false_2 by lia.
  rewrite Hfd, Hw, Hold. simpl.
  change (Z.to_nat 0) with 0%nat. rewrite drop_0.
  rewrite take_ge by (unfold blen; lia). done.
Qed.

(** A whole-header [writeSync] into a file that was just emptied; the end
    of an empty file is position 0. *)
Lemma writeSync_header (h : Host) fd hfd (header : bytes) :
  fds h !! fd = Some hfd → fd_write hfd = true →
  files h !! fd_path hfd = Some [] → blen header = FILE_HEADER_SIZE →
  writeSync h fd header 0 FILE_HEADER_SIZE 0
  = (inr FILE_HEADER_SIZE, with_files h (<[fd_path hfd := header]> (files h))).
Proof.
  intros Hfd Hw Hf Hlen.
  rewrite <- Hlen at 1.
  rewrite (writeSync_whole_at h fd hfd [] header 0) by done.
  rewrite Hlen. do 3 f_equal.
  replace (if fd_append hfd then blen [] else 0) with 0 by (by destruct (fd_append hfd)).
  unfold pwrite. simpl.
  rewrite drop_nil. by rewrite app_nil_r.
Qed.

(** A successful [open] of a path that is no directory, on an instance
    with a 16-byte salt: the handle, the host descriptor behind it and the
    file it names.  For an encrypted path the file starts with a header whose
    file id is the one in the handle; a file that was created or truncated
    holds the header and nothing else. *)
Lemma open_body_file (s : State) q nf fd s' :
  dirs (host s) !! resolvePath s q = None →
  (shouldEncrypt q = true → blen (salt s) = SALT_SIZE) →
  open_body s q nf = (inr fd, s') →
  ∃ m fid d,
    parse_flags nf = Some m ∧ fd = nextFd s ∧
    openFiles s'
    = <[nextFd s := {| realFd := next_fd (host s); path := resolvePath s q;
                       flags := nf; position := 0; encrypted := shouldEncrypt q;
                       fileId := fid |}]> (openFiles s) ∧
    nextFd s' = nextFd s + 1 ∧ same_instance s s' ∧
    fds (host s')
    = <[next_fd (host s) := {| fd_path := resolvePath s q; fd_read := om_read m;
                               fd_write := om_write m;
                               fd_append := om_append m |}]> (fds (host s)) ∧
    next_fd (host s') = next_fd (host s) + 1 ∧
    files (host s') = <[resolvePath s q := d]> (files (host s)) ∧
    (dirs (host s') = dirs (host s) ∨
     dirs (host s') = <[Path.dirname (resolvePath s q) := 4096]> (dirs (host s))) ∧
    dirs (host s') !! resolvePath s q = None ∧
    (is_Some (files (host s) !! resolvePath s q) → om_excl m = false) ∧
    (files (host s) !! resolvePath s q = None → om_create m = true) ∧
    (om_trunc m = false →
     ∀ d0, files (host s) !! resolvePath s q = Some d0 → d = d0) ∧
    if shouldEncrypt q then
      blen fid = FILE_ID_SIZE ∧ FILE_HEADER_SIZE <= blen d ∧
      subarray d SALT_SIZE FILE_HEADER_SIZE = fid ∧
      (om_trunc m = true ∨ files (host s) !! resolvePath s q = None →
       d = salt s ++ fid)
    else
      fid = [] ∧
      (om_trunc m = true ∨ files (host s) !! resolvePath s q = None → d = []).
Proof using Hrandom. tidy.
  intros Hnodir Hsalt. unfold EncryptedFS.open_body.
  set (fullPath := resolvePath s q) in *.
  assert (existsSync (host s) fullPath &&
          match statSync (host s) fullPath with
          | inr stats => st_isDirectory stats
          | inl _ => false
          end = false) as ->.
  { unfold statSync. rewrite Hnodir. destruct (files (host s) !! fullPath); simpl;
      by rewrite ?andb_false_r. }
  pose proof (open_mkdir (host s) (Path.dirname fullPath)) as Hmk. cbv zeta in Hmk.
  set (h0 := if negb (existsSync (host s) (Path.dirname fullPath))
             then mkdirSync (host s) (Path.dirname fullPath) else host s) in *.
  destruct Hmk as (Hf0 & Hfd0 & Hn0 & Hd0).
  remember (shouldEncrypt q) as enc eqn:Henc.
  remember (includes nf "w") as tr eqn:Htrdef.
  remember (tr || includes nf "a") as wm eqn:Hwmdef.
  remember (existsSync h0 fullPath) as ex eqn:Hexdef.
  set (fid0 := randomBytes (rng s) FILE_ID_SIZE).
  assert (blen fid0 = FILE_ID_SIZE) as Hfid0 by (apply Hrandom; sizes; lia).
  (* the header that is written before the host opens a new file *)
  assert ((∃ fileId0 h1 r1,
             (if enc && wm && negb ex
              then initializeEncryptedFile randomBytes (salt s) h0 (rng s) fullPath
              else (inr [], h0, rng s)) = (inr fileId0, h1, r1) ∧
             fds h1 = fds h0 ∧ next_fd h1 = next_fd h0 ∧ dirs h1 = dirs h0 ∧
             ((enc && wm && negb ex = true ∧ fileId0 = fid0 ∧
               files h0 !! fullPath = None ∧
               files h1 = <[fullPath := salt s ++ fid0]> (files h0)) ∨
              (enc && wm && negb ex = false ∧ fileId0 = [] ∧ h1 = h0))) ∨
          (∃ e h1 r1,
             (if enc && wm && negb ex
              then initializeEncryptedFile randomBytes (salt s) h0 (rng s) fullPath
              else (inr [], h0, rng s)) = (inl e, h1, r1))) as Hinit0.
  { destruct (enc && wm && negb ex) eqn:Hc.
    - apply andb_true_iff in Hc as [_ Hex]. apply negb_true_iff in Hex.
      destruct (existsSync_absent h0 fullPath) as [Hfa Hda]; [congruence|].
      unfold initializeEncryptedFile. rewrite <- Hexdef, Hex. cbn [negb].
      unfold writeFileSync. rewrite bool_decide_eq_false_2 by (rewrite Hda; by intros [? ?]).
      destruct (bool_decide (files h0 !! fullPath = None) && below_file h0 fullPath).
      { (* the path leads through a regular file *)
        right. by eexists _, _, _. }
      left. eexists _, _, _. split; [done|]. simpl. repeat split; try done.
      left. done.
    - left. eexists _, _, _. split; [done|]. repeat split; try done. by right. }
  destruct Hinit0 as [(fileId0 & h1 & r1 & -> & Hfd1 & Hn1 & Hd1 & Hinit)|(e & h1 & r1 & ->)];
    [|done].
  destruct (openSync h1 fullPath nf) as [[e|rfd] h2] eqn:Hopen; [done|].
  destruct (openSync_ok h1 fullPath nf rfd h2 Hopen)
    as (m & Hm & Hdir1 & -> & Hexcl & Hcreate & ->).
  destruct (parse_flags_tests nf m Hm) as (Htr & Hwm & Hcw & Hcr).
  rewrite <- Htrdef in Htr, Hwm. rewrite <- Hwmdef in Hwm.
  assert (om_trunc m = true → om_create m = true) as Htc.
  { intros H. rewrite <- Htr in H. by rewrite <- Hwm, Hwmdef, H. }
  clear Htrdef Hwmdef. subst tr wm.
  set (hfd := {| fd_path := fullPath; fd_read := om_read m; fd_write := om_write m;
                 fd_append := om_append m |}) in *.
  set (d2 := match files h1 !! fullPath with
             | Some d => if om_trunc m then [] else d
             | None => []
             end) in *.
  set (h2 := {| files := <[fullPath := d2]> (files h1); dirs := dirs h1;
                fds := <[next_fd h1 := hfd]> (fds h1); next_fd := next_fd h1 + 1 |}) in *.
  assert (fds h2 !! next_fd h1 = Some hfd) as Hfd2 by (subst h2; simpl; by rewrite lookup_insert_eq).
  assert (files h2 !! fd_path hfd = Some d2) as Hf2 by (subst h2 hfd; simpl; by rewrite lookup_insert_eq).
  (* the header step *)
  assert ((∃ fid d h3 r3,
            open_header randomBytes ERRNO_CODES (salt s) h2 r1 (next_fd h1)
              enc (om_trunc m) ex fileId0 = (inr fid, h3, r3) ∧
            fds h3 = fds h2 ∧ next_fd h3 = next_fd h2 ∧ dirs h3 = dirs h2 ∧
            files h3 = <[fullPath := d]> (files h2) ∧
            (om_trunc m = false →
             ∀ d0, files (host s) !! fullPath = Some d0 → d = d0) ∧
            if enc then
              blen fid = FILE_ID_SIZE ∧ FILE_HEADER_SIZE <= blen d ∧
              subarray d SALT_SIZE FILE_HEADER_SIZE = fid ∧
              (om_trunc m = true ∨ files (host s) !! fullPath = None → d = salt s ++ fid)
            else
              fid = [] ∧
              (om_trunc m = true ∨ files (host s) !! fullPath = None → d = []))
         ∨ (∃ e h3 r3, open_header randomBytes ERRNO_CODES (salt s) h2 r1 (next_fd h1)
                         enc (om_trunc m) ex fileId0 = (inl e, h3, r3))) as Hhdr.
  { assert (om_create m = true → om_write m = true) as Hcw' by done.
    unfold open_header. destruct enc; cbn [andb].
    - specialize (Hsalt eq_refl). destruct (om_trunc m) eqn:Htrunc.
      + (* a truncating open writes the header *)
        left.
        assert (d2 = []) as Hd2 by (subst d2; by destruct (files h1 !! fullPath)).
        rewrite Hd2 in Hf2.
        assert (om_write m = true) as Hw.
        { apply Hcw. by apply Htc. }
        assert (∃ fid r3,
                  (if bool_decide (blen fileId0 = 0)
                   then (randomBytes r1 FILE_ID_SIZE, r1 + 1) else (fileId0, r1))
                  = (fid, r3) ∧ blen fid = FILE_ID_SIZE) as (fid & r3 & -> & Hfid).
        { case_bool_decide as Hz.
          - eexists _, _. split; [done|]. apply Hrandom. sizes; lia.
          - eexists _, _. split; [done|].
            destruct Hinit as [(_ & -> & _)|(_ & -> & _)]; done. }
        rewrite (writeSync_header h2 (next_fd h1) hfd (salt s ++ fid))
          by (done || rewrite blen_app, Hsalt, Hfid; sizes; lia).
        eexists fid, (salt s ++ fid), _, r3. split; [reflexivity|].
        simpl. split; [done|]. split; [done|]. split; [done|].
        split; [by rewrite insert_insert_eq|].
        split; [done|]. split; [done|].
        split; [rewrite blen_app, Hsalt, Hfid; sizes; lia|].
        split; [|done].
        unfold subarray. rewrite drop_app_length' by (unfold blen in Hsalt; sizes; lia).
        apply take_ge. unfold blen in Hfid. sizes; lia.
      + destruct ex eqn:Hex; cbn [andb].
        * (* an existing file: the id is read from its header *)
          destruct Hinit as [(Hc & _)|(_ & -> & ->)].
          { by rewrite andb_false_r in Hc. }
          assert (∃ d0, files h0 !! fullPath = Some d0) as [d0 Hd0'].
          { symmetry in Hexdef. unfold existsSync in Hexdef.
            apply orb_true_iff in Hexdef as [H|H]; apply bool_decide_eq_true in H.
            - destruct H as [d0 H]. by exists d0.
            - rewrite Hdir1 in H. by destruct H. }
          assert (d2 = d0) as Hd2 by (subst d2; by rewrite Hd0').
          rewrite Hd2 in Hf2.
          destruct (readFileId ERRNO_CODES h2 (next_fd h0)) as [e|fid] eqn:Hid.
          { right. by eexists _, _, _. }
          left.
          destruct (readFileId_ok ERRNO_CODES h2 (next_fd h0) hfd d0 fid Hfd2 Hf2 Hid)
            as [Hlen ->].
          eexists _, d0, _, _. split; [done|].
          split; [done|]. split; [done|]. split; [done|].
          split; [subst h2; simpl; by rewrite Hd2, insert_insert_eq|].
          split; [intros _ d0' Hd0''; rewrite Hf0 in Hd0'; congruence|].
          split; [|split; [done|split; [done|]]].
          -- unfold subarray. rewrite blen_take by (sizes; lia).
             rewrite blen_drop by (sizes; lia). sizes; lia.
          -- intros [?|Hnone]; [done|]. rewrite Hf0 in Hd0'. congruence.
        * (* a file that the header step just created *)
          left.
          destruct (existsSync_absent h0 fullPath) as [Hfa Hda]; [done|].
          destruct Hinit as [(Hc & -> & _ & Hf1)|(Hc & -> & ->)].
          -- assert (d2 = salt s ++ fid0) as Hd2
               by (subst d2; by rewrite Hf1, lookup_insert_eq).
             eexists fid0, (salt s ++ fid0), h2, r1. split; [done|].
             split; [done|]. split; [done|]. split; [done|].
             split; [subst h2; simpl; by rewrite Hd2, insert_insert_eq|].
             split; [intros _ d0' Hd0''; rewrite Hf0 in Hfa; congruence|].
             split; [done|].
             split; [rewrite blen_app, Hsalt, Hfid0; sizes; lia|].
             split; [|done].
             unfold subarray. rewrite drop_app_length' by (unfold blen in Hsalt; sizes; lia).
             apply take_ge. unfold blen in Hfid0. sizes; lia.
          -- (* no header step: the host had to create the file *)
             exfalso. cbn [andb negb] in Hc. rewrite andb_true_r in Hc.
             specialize (Hcreate Hfa). congruence.
    - (* a file that is not encrypted *)
      left.
      destruct Hinit as [(Hc & _)|(_ & -> & ->)]; [done|].
      eexists [], d2, h2, r1. split; [done|].
      split; [done|]. split; [done|]. split; [done|].
      split; [subst h2; simpl; by rewrite insert_insert_eq|].
      split; [|split; [done|]].
      + intros Htrunc d0 Hd0'. subst d2. by rewrite Hf0, Hd0', Htrunc.
      + intros [Htrunc|Hnone]; subst d2.
        * rewrite Htrunc. by destruct (files h0 !! fullPath).
        * by rewrite Hf0, Hnone. }
  destruct Hhdr as [(fid & d & h3 & r3 & -> & Hfd3 & Hn3 & Hd3 & Hf3 & Hkeep & Hcontent)
                   |(e & h3 & r3 & ->)]; [|done].
  intros [= <- <-]. exists m, fid, d. cbn [openFiles nextFd host encKey EncryptedFS.salt
                                            dataDir cwd destroyed].
  assert (files h1 = files h0 ∨ files h1 = <[fullPath := salt s ++ fid0]> (files h0))
    as Hf1.
  { destruct Hinit as [(_ & _ & _ & ->)|(_ & _ & ->)]; tauto. }
  split; [done|]. split; [done|].
  split; [by rewrite Hn1, Hn0|].
  split; [done|]. split; [done|].
  split; [rewrite Hfd3; subst h2; simpl; by rewrite Hn1, Hn0, Hfd1, Hfd0|].
  split; [rewrite Hn3; subst h2; simpl; by rewrite Hn1, Hn0|].
  split.
  { rewrite Hf3. subst h2. simpl. rewrite insert_insert_eq.
    destruct Hf1 as [->| ->]; by rewrite ?insert_insert_eq, Hf0. }
  split; [rewrite Hd3; subst h2; simpl; by rewrite Hd1|].
  split; [rewrite Hd3; subst h2; simpl; done|].
  split.
  { intros Hsome. apply Hexcl. destruct Hf1 as [->| ->].
    - by rewrite Hf0.
    - rewrite lookup_insert_eq. by eexists. }
  split.
  { intros Hnone. destruct Hinit as [(Hc & _)|(_ & _ & ->)].
    - apply andb_true_iff in Hc as [Hc _]. by apply andb_true_iff in Hc as [_ Hc].
    - apply Hcreate. by rewrite Hf0. }
  split; [done|]. done.
Qed.

(** *** Properties of the handle table *)

(** After a [close] that returned, the descriptor names nothing: [read],
    [write], [fstat], [fsync] and a second [close] fail with EBADF and
    change nothing.  The close removed that one handle and left the files of
    the host as they were. *)
Theorem closed_descriptor_is_EBADF (s : State) fd (s' : State) :
  close s fd = (inr (), s') →
  openFiles s' = delete fd (openFiles s) ∧
  files (host s') = files (host s) ∧
  (∀ buffer offset length pos,
     read s' fd buffer offset length pos
     = (inl (createError "EBADF" ("read '" +:+ show_Z fd +:+ "'") None), buffer, s')) ∧
  (∀ buffer offset length pos,
     write s' fd buffer offset length pos
     = (inl (createError "EBADF" ("write '" +:+ show_Z fd +:+ "'") None), s')) ∧
  fstat s' fd = inl (createError "EBADF" ("fstat '" +:+ show_Z fd +:+ "'") None) ∧
  fsync s' fd = inl (createError "EBADF" ("fsync '" +:+ show_Z fd +:+ "'") None) ∧
  close s' fd = (inl (createError "EBADF" ("close '" +:+ show_Z fd +:+ "'") None), s').
Proof.
  unfold EncryptedFS.close at 1.
  destruct (openFiles s !! fd) as [file|]; [|done].
  assert (∃ res h, (if bool_decide (realFd file ≠ -1)
                    then closeSync (host s) (realFd file) else (inr (), host s))
                   = (res, h) ∧ files h = files (host s)) as (res & h & -> & Hfiles).
  { case_bool_decide; [|by eexists _, _].
    unfold closeSync. destruct (fds (host s) !! realFd file); by eexists _, _. }
  destruct res as [e|[]]; [done|]. intros [= <-].
  assert (openFiles (with_openFiles (with_host s h) (delete fd (openFiles s))) !! fd = None)
    as Hgone by (simpl; apply lookup_delete_eq).
  split; [done|]. split; [done|].
  unfold EncryptedFS.read, EncryptedFS.write, EncryptedFS.fstat, EncryptedFS.fsync,
    EncryptedFS.close.
  rewrite Hgone. done.
Qed.

(** [open] throws nothing but errors of its own making: the code is EIO
    or a code of ERRNO_CODES (then the code of the error it caught), the errno
    is a number, the message names the normalised path, the error caught is
    attached as the cause, and no handle was registered. *)
Theorem open_failure_is_a_filesystem_error (s : State) p flags e (s' : State) :
  open s p flags = (inl e, s') →
  ∃ c e0,
    code e = Some c ∧ cause e = Some e0 ∧
    (c = "EIO"%string ∨ (is_Some (ERRNO_CODES c) ∧ code e0 = Some c)) ∧
    is_Some (errno e) ∧
    message e = c +:+ ": open '" +:+ normalizePath s p +:+ "'" ∧
    openFiles s' = openFiles s ∧ nextFd s' = nextFd s.
Proof.
  intros Hopen.
  assert (openFiles s' = openFiles s ∧ nextFd s' = nextFd s) as [Ho Hn].
  { destruct (open_handles s p flags)
      as [(e1 & s1 & Heq & Ho & Hn & _)|(file & s1 & Heq & _)];
      rewrite Heq in Hopen; [|done].
    by injection Hopen as <- <-. }
  unfold EncryptedFS.open in Hopen.
  destruct (open_body s (normalizePath s p) (emFlagsToNode' flags)) as [[e0|fd] s2];
    [|done].
  injection Hopen as <- <-.
  exists (getErrorCode e0), e0.
  assert (getErrorCode e0 = "EIO"%string ∨
          (is_Some (ERRNO_CODES (getErrorCode e0)) ∧ code e0 = Some (getErrorCode e0)))
    as Hcode.
  { unfold EncryptedFS.getErrorCode. destruct (code e0) as [c|]; [|by left].
    destruct (String.eqb c "EIO") eqn:Heio; [by left|].
    case_bool_decide; [by right|by left]. }
  repeat split; try done.
  cbn. destruct Hcode as [->|[Hsome _]]; [by eexists|].
  destruct (String.eqb _ "EIO"); [by eexists|done].
Qed.

(** A directory is opened without a host descriptor: the handle has
    [realFd = -1] and is not encrypted, the host and the random generator
    are untouched.  Through such a handle [read] and [write] of a length
    other than 0 fail with EISDIR, of length 0 they return 0; [fstat] reports
    what the host says of the directory; [close] removes the handle and
    leaves the host alone. *)
Theorem directory_handle (s : State) p flags sz :
  dirs (host s) !! resolvePath s (normalizePath s p) = Some sz →
  destroyed s = false →
  ∃ s',
    open s p flags = (inr (nextFd s), s') ∧
    host s' = host s ∧ rng s' = rng s ∧
    openFiles s' !! nextFd s
    = Some {| realFd := -1; path := resolvePath s (normalizePath s p);
              flags := emFlagsToNode' flags; position := 0; encrypted := false;
              fileId := [] |} ∧
    (∀ buffer offset length pos, length ≠ 0 →
       read s' (nextFd s) buffer offset length pos
       = (inl (createError "EISDIR" "read from directory" None), buffer, s') ∧
       write s' (nextFd s) buffer offset length pos
       = (inl (createError "EISDIR" "write to directory" None), s')) ∧
    (∀ buffer offset pos,
       read s' (nextFd s) buffer offset 0 pos = (inr 0, buffer, s') ∧
       write s' (nextFd s) buffer offset 0 pos = (inr 0, s')) ∧
    fstat s' (nextFd s) = inr {| size := sz |} ∧
    (close s' (nextFd s)).1 = inr () ∧
    host (close s' (nextFd s)).2 = host s ∧
    openFiles (close s' (nextFd s)).2 = delete (nextFd s) (openFiles s).
Proof.
  intros Hdir Hlive. unfold EncryptedFS.open, EncryptedFS.open_body.
  rewrite (existsSync_dir _ _ _ Hdir). unfold statSync at 1. rewrite Hdir. cbn [andb st_isDirectory].
  eexists. split; [reflexivity|]. cbn [host rng openFiles].
  split; [done|]. split; [done|]. split; [by rewrite lookup_insert_eq|].
  unfold EncryptedFS.read, EncryptedFS.write, EncryptedFS.fstat, EncryptedFS.close.
  cbn [openFiles destroyed host]. rewrite lookup_insert_eq, Hlive. cbn [realFd].
  split; [|split; [|split]].
  - intros buffer offset length pos Hlen.
    by rewrite !(bool_decide_eq_false_2 (length = 0)) by done.
  - done.
  - rewrite (bool_decide_eq_true_2 (-1 = -1)) by done.
    cbn [path]. unfold statSync. by rewrite Hdir.
  - rewrite (bool_decide_eq_false_2 (-1 ≠ -1)) by (intros H; by apply H).
    cbn. split; [done|]. split; [done|]. by rewrite delete_insert_eq.
Qed.

(** A [write] changes, on the host, the file behind its descriptor and
    nothing else: every other file, the directories and the descriptors stay
    as they were; every other handle keeps its position.  A [read] changes
    nothing on the host.  This holds also when the call throws. *)
Theorem write_touches_one_file (s : State) fd file hfd buffer offset length pos :
  openFiles s !! fd = Some file →
  fds (host s) !! realFd file = Some hfd →
  let s' := (write s fd buffer offset length pos).2 in
  (∀ p, p ≠ fd_path hfd → files (host s') !! p = files (host s) !! p) ∧
  dirs (host s') = dirs (host s) ∧ fds (host s') = fds (host s) ∧
  (∀ fd', fd' ≠ fd → openFiles s' !! fd' = openFiles s !! fd') ∧
  host (read s fd buffer offset length pos).2 = host s.
Proof.
  intros Hf Hfd.
  destruct (write_handles s fd buffer offset length pos)
    as (Ho & _ & _ & Hdirs & Hfds & _ & Hfiles).
  cbv zeta. split; [|split; [done|split; [done|split]]].
  - intros p Hp. by apply (Hfiles file hfd).
  - intros fd' Hne. destruct Ho as [->|(file' & q & _ & ->)]; [done|].
    by rewrite lookup_insert_ne.
  - apply (read_handles s fd buffer offset length pos).
Qed.

(** *** The header and the file id *)

(** After a successful [open] of an encrypted path that is no directory,
    on an instance with a 16-byte salt, the handle is marked encrypted and
    its file id is the 32 bytes at offset 16 of the file on the host: the id
    that the pages of the file are bound to is the one in the header.  The
    host descriptor of the handle names that file.  A file that was created
    or opened with a truncating flag consists of the header alone, salt
    followed by file id. *)
Theorem open_binds_handle_to_header (s : State) p flags fd (s' : State) :
  blen (salt s) = SALT_SIZE →
  shouldEncrypt (normalizePath s p) = true →
  dirs (host s) !! resolvePath s (normalizePath s p) = None →
  open s p flags = (inr fd, s') →
  ∃ file hfd d,
    openFiles s' !! fd = Some file ∧ encrypted file = true ∧
    path file = resolvePath s (normalizePath s p) ∧
    fds (host s') !! realFd file = Some hfd ∧ fd_path hfd = path file ∧
    files (host s') !! path file = Some d ∧
    FILE_HEADER_SIZE <= blen d ∧
    blen (fileId file) = FILE_ID_SIZE ∧
    subarray d SALT_SIZE FILE_HEADER_SIZE = fileId file ∧
    (includes (emFlagsToNode' flags) "w" = true ∨
     files (host s) !! resolvePath s (normalizePath s p) = None →
     d = salt s ++ fileId file).
Proof using Hrandom.
  intros Hsalt Henc Hnodir Hopen. unfold EncryptedFS.open in Hopen.
  destruct (open_body s _ _) as [[e|fd'] s1] eqn:Hob; [done|].
  injection Hopen as <- <-.
  destruct (open_body_file s _ _ fd' s1 Hnodir (λ _, Hsalt) Hob)
    as (m & fid & d & Hm & -> & Ho & _ & _ & Hfds & _ & Hfiles & _ & _ & _ & _ & _ & Hcontent).
  rewrite Henc in Hcontent, Ho. destruct Hcontent as (Hfid & Hlen & Hsub & Hnew).
  destruct (parse_flags_tests _ m Hm) as (Htr & _).
  eexists _, _, d. split; [by rewrite Ho, lookup_insert_eq|]. cbn.
  split; [done|]. split; [done|].
  split; [by rewrite Hfds, lookup_insert_eq|]. split; [done|].
  split; [by rewrite Hfiles, lookup_insert_eq|].
  split; [done|]. split; [done|]. split; [done|].
  intros [Hw|Hnone]; apply Hnew; [left; by rewrite <- Htr|by right].
Qed.

(** A path that is exempt from encryption is stored as it is written: a
    successful [open] that creates or truncates the file leaves it empty,
    without a header, and a [write] of [data] at position 0 through the
    handle makes [data] the content of the file on the host. *)
Theorem exempt_file_is_stored_in_clear
    (s : State) p flags fd (s1 : State) (data : bytes) :
  destroyed s = false →
  shouldEncrypt (normalizePath s p) = false →
  dirs (host s) !! resolvePath s (normalizePath s p) = None →
  0 <= next_fd (host s) →
  (includes (emFlagsToNode' flags) "w" = true ∨
   files (host s) !! resolvePath s (normalizePath s p) = None) →
  open s p flags = (inr fd, s1) →
  files (host s1) !! resolvePath s (normalizePath s p) = Some [] ∧
  ∃ file s2,
    openFiles s1 !! fd = Some file ∧ encrypted file = false ∧ fileId file = [] ∧
    write s1 fd data 0 (blen data) (Some 0) = (inr (blen data), s2) ∧
    files (host s2) !! resolvePath s (normalizePath s p) = Some data.
Proof using Hrandom.
  intros Hlive Henc Hnodir Hnext Hnew Hopen. unfold EncryptedFS.open in Hopen.
  destruct (open_body s _ _) as [[e|fd'] sa] eqn:Hob; [done|].
  injection Hopen as <- <-.
  destruct (open_body_file s _ _ fd' sa Hnodir
              ltac:(rewrite Henc; discriminate) Hob)
    as (m & fid & d & Hm & -> & Ho & _ & (_ & _ & _ & _ & Hlivea) & Hfds & _ & Hfiles
        & _ & _ & _ & Hcreate & _ & Hcontent).
  rewrite Henc in Hcontent, Ho. destruct Hcontent as (-> & Hempty).
  destruct (parse_flags_tests _ m Hm) as (Htr & _ & Hcw & _).
  assert (d = []) as ->.
  { apply Hempty. destruct Hnew as [Hw|Hnone]; [left; by rewrite <- Htr|by right]. }
  assert (om_write m = true) as Hw.
  { apply Hcw. destruct Hnew as [Hw|Hnone]; [|by apply Hcreate].
    destruct (om_create m) eqn:Hc; [done|].
    destruct (files (host s) !! resolvePath s (normalizePath s p)) eqn:Hf;
      [|by apply Hcreate].
    exfalso. clear Hcreate. rewrite Htr in Hw.
    unfold parse_flags in Hm.
    repeat match type of Hm with
           | (if ?c then _ else _) = _ => destruct c
           end; simplify_eq; done. }
  split; [by rewrite Hfiles, lookup_insert_eq|].
  destruct (decide (blen data = 0)) as [Hzero|Hpos].
  - eexists _, sa. split; [by rewrite Ho, lookup_insert_eq|]. cbn [encrypted fileId].
    split; [done|]. split; [done|].
    unfold EncryptedFS.write. rewrite Ho, lookup_insert_eq, Hlivea, Hlive.
    rewrite bool_decide_eq_true_2 by done. rewrite Hzero.
    split; [reflexivity|]. rewrite Hfiles, lookup_insert_eq.
    by rewrite (blen_nil_inv data Hzero).
  - eexists _, _. split; [by rewrite Ho, lookup_insert_eq|]. cbn [encrypted fileId].
    split; [done|]. split; [done|].
    unfold EncryptedFS.write. rewrite Ho, lookup_insert_eq, Hlivea, Hlive.
    cbn [realFd encrypted negb].
    rewrite bool_decide_eq_false_2 by done.
    rewrite bool_decide_eq_false_2 by lia.
    cbn [logicalPos_of]. rewrite bool_decide_eq_false_2 by lia.
    erewrite (writeSync_whole_at (host sa) _ _ [] data 0);
      [|by rewrite Hfds, lookup_insert_eq | done
       |by rewrite Hfiles, lookup_insert_eq | lia].
    split; [by rewrite Z.add_0_l|].
    (* the file is empty, so its end is position 0 *)
    cbn. rewrite lookup_insert_eq. f_equal.
    replace (if om_append m then blen [] else 0) with 0 by (by destruct (om_append m)).
    unfold pwrite. cbn. by rewrite drop_nil, app_nil_r.
Qed.

(** *** [writeFile] and its handle *)

Local Abbreviation writeFile :=
  (EncryptedFS.writeFile gcm_encrypt gcm_decrypt randomBytes ERRNO_CODES).

(** [open] of a directory. *)
Lemma open_body_dir (s : State) q nf sz :
  dirs (host s) !! resolvePath s q = Some sz →
  open_body s q nf
  = (inr (nextFd s),
     {| dataDir := dataDir s; encKey := encKey s; salt := salt s;
        openFiles :=
          <[nextFd s := {| realFd := -1; path := resolvePath s q; flags := nf;
                           position := 0; encrypted := false; fileId := [] |}]>
            (openFiles s);
        cwd := cwd s; nextFd := nextFd s + 1; destroyed := destroyed s;
        host := host s; rng := rng s |}).
Proof.
  intros Hdir. unfold EncryptedFS.open_body.
  rewrite (existsSync_dir _ _ _ Hdir). unfold statSync. by rewrite Hdir.
Qed.

(** [writeFile] keeps no handle: whether the write returns or throws, the
    [finally] block closes what [open] returned, so the table of handles is
    afterwards what it was before, and when [open] returned, so is the
    host's table of descriptors.  Stated for an instance whose next
    descriptor and whose host's next descriptor are free, as they are on
    every instance the constructor made. *)
Theorem writeFile_keeps_no_handle (s : State) p (data : bytes) flag :
  openFiles s !! nextFd s = None →
  fds (host s) !! next_fd (host s) = None → 0 <= next_fd (host s) →
  (shouldEncrypt (normalizePath s p) = true → blen (salt s) = SALT_SIZE) →
  openFiles (writeFile s p data flag).2 = openFiles s ∧
  ∀ fd s1,
    open s p (inr match flag with
                  | Some f => if String.eqb f "" then "w"%string else f
                  | None => "w"%string
                  end) = (inr fd, s1) →
    fds (host (writeFile s p data flag).2) = fds (host s).
Proof using Hrandom.
  intros Hfree Hhfree Hnext Hsalt. unfold EncryptedFS.writeFile.
  set (f := match flag with
            | Some f => if String.eqb f "" then "w"%string else f
            | None => "w"%string
            end).
  destruct (open s p (inr f)) as [[e|fd] s1] eqn:Hopen.
  { split; [|done]. cbn [snd].
    destruct (open_handles s p (inr f)) as [(e1 & s1' & Heq & Ho & _)|(? & ? & Heq & _)];
      rewrite Heq in Hopen; [|done].
    by injection Hopen as <- <-. }
  (* the handle and the host descriptor behind it *)
  assert (∃ file,
            fd = nextFd s ∧ openFiles s1 = <[nextFd s := file]> (openFiles s) ∧
            ((realFd file = -1 ∧ fds (host s1) = fds (host s)) ∨
             (realFd file = next_fd (host s) ∧
              ∃ hfd, fds (host s1) = <[next_fd (host s) := hfd]> (fds (host s)))))
    as (file & -> & Ho1 & Hreal).
  { unfold EncryptedFS.open in Hopen. cbn [emFlagsToNode'] in Hopen.
    destruct (open_body s (normalizePath s p) f) as [[e|fd'] s1'] eqn:Hob; [done|].
    injection Hopen as <- <-.
    destruct (dirs (host s) !! resolvePath s (normalizePath s p)) as [sz|] eqn:Hdir.
    - rewrite (open_body_dir s _ f sz Hdir) in Hob. injection Hob as <- <-.
      eexists. split; [done|]. split; [done|]. left. done.
    - destruct (open_body_file s _ f fd' s1' Hdir Hsalt Hob)
        as (m & fid & d & _ & -> & Ho & _ & _ & Hfds & _).
      eexists. split; [done|]. split; [exact Ho|]. right. split; [done|].
      by eexists. }
  (* the write keeps the handle and the descriptors *)
  pose proof (write_handles s1 (nextFd s) data 0 (blen data) (Some 0)) as Hw.
  cbv zeta in Hw.
  destruct (write s1 (nextFd s) data 0 (blen data) (Some 0)) as [res s2].
  cbn [snd] in Hw. destruct Hw as (Ho2 & _ & _ & _ & Hfds2 & _).
  assert (∃ file2, openFiles s2 !! nextFd s = Some file2 ∧ realFd file2 = realFd file ∧
                   delete (nextFd s) (openFiles s2) = openFiles s)
    as (file2 & Hf2 & Hreal2 & Hdel).
  { destruct Ho2 as [->|(file' & q & Hf' & ->)].
    - exists file. rewrite Ho1, lookup_insert_eq. split; [done|]. split; [done|].
      rewrite delete_insert_eq. by apply delete_id.
    - rewrite Ho1, lookup_insert_eq in Hf'. injection Hf' as <-.
      eexists. rewrite lookup_insert_eq. split; [done|]. split; [done|].
      rewrite Ho1, !delete_insert_eq. by apply delete_id. }
  (* the close *)
  unfold EncryptedFS.close. rewrite Hf2, Hreal2.
  destruct Hreal as [(Hr & Hfds1)|(Hr & hfd & Hfds1)]; rewrite Hr.
  - rewrite (bool_decide_eq_false_2 (-1 ≠ -1)) by (intros H; by apply H).
    cbn. split; [done|]. intros _ _ _. by rewrite Hfds2.
  - rewrite (bool_decide_eq_true_2 (next_fd (host s) ≠ -1)) by lia.
    unfold closeSync. rewrite Hfds2, Hfds1, lookup_insert_eq.
    cbn. split; [done|]. intros _ _ _.
    rewrite delete_insert_eq. by apply delete_id.
Qed.

End Handle_properties.

(** ** encrypted-fs.ts: what [read] returns and what [write] leaves *)

(** [copy] of a range that fits source and target: the target holds the
    range at [targetStart] and is otherwise unchanged. *)
Lemma Buffer_copy_fits (src tgt : bytes) (ts ss n : Z) :
  0 <= ts → 0 <= ss → 0 <= n → ss + n <= blen src → ts + n <= blen tgt →
  ∃ r, Buffer_copy src tgt ts ss (ss + n) = inr r ∧ blen r = blen tgt ∧
       (∀ j, 0 <= j < n → r !! Z.to_nat (ts + j) = src !! Z.to_nat (ss + j)) ∧
       (∀ j : nat, Z.of_nat j < ts ∨ ts + n <= Z.of_nat j → r !! j = tgt !! j).
Proof.
  intros Hts Hss Hn Hsrc Htgt.
  destruct (Buffer_copy src tgt ts ss (ss + n)) as [e|r] eqn:Hcopy.
  { exfalso. unfold Buffer_copy in Hcopy.
    repeat case_bool_decide; try done; lia. }
  exists r. split; [done|]. split; [by eapply Buffer_copy_length|]. split.
  - intros j Hj. unfold Buffer_copy in Hcopy.
    repeat case_bool_decide; try lia.
    replace (Z.min (ss + n - ss) (blen src - ss)) with n in Hcopy by lia.
    injection Hcopy as <-. unfold blen in *.
    rewrite lookup_app_r by (rewrite length_take; lia).
    rewrite length_take.
    rewrite lookup_app_l by (rewrite length_take, length_drop; lia).
    rewrite lookup_take_lt by lia. rewrite lookup_drop. f_equal. lia.
  - intros j Hj. eapply Buffer_copy_outside; [done|]. lia.
Qed.

Section Page_io.

Context (gcm_encrypt : bytes → bytes → bytes → bytes → JsError + (bytes * bytes))
        (gcm_decrypt : bytes → bytes → bytes → bytes → bytes → JsError + bytes)
        (randomBytes : Z → Z → bytes)
        (sha256 : bytes → bytes)
        (ERRNO_CODES : string → option Z).

Import Crypto HostFs EncryptedFS.

Local Ltac tidy :=
  try clear sha256; try clear gcm_encrypt; try clear gcm_decrypt;
  try clear randomBytes; try clear ERRNO_CODES.

Local Abbreviation encryptPage := (Crypto.encryptPage gcm_encrypt randomBytes).
Local Abbreviation decryptPage := (Crypto.decryptPage gcm_decrypt).
Local Abbreviation read := (EncryptedFS.read gcm_decrypt ERRNO_CODES).
Local Abbreviation read_pages := (EncryptedFS.read_pages gcm_decrypt ERRNO_CODES).
Local Abbreviation write :=
  (EncryptedFS.write gcm_encrypt gcm_decrypt randomBytes ERRNO_CODES).
Local Abbreviation write_pages :=
  (EncryptedFS.write_pages gcm_encrypt gcm_decrypt randomBytes ERRNO_CODES).
Local Abbreviation write_load_page :=
  (EncryptedFS.write_load_page gcm_decrypt ERRNO_CODES).
Local Abbreviation open := (EncryptedFS.open randomBytes ERRNO_CODES).
Local Abbreviation close := (EncryptedFS.close ERRNO_CODES).
Local Abbreviation logical_byte := (EncryptedFS.logical_byte gcm_decrypt).
Local Abbreviation well_formed_file := (EncryptedFS.well_formed_file gcm_decrypt).

(** A page-sized [readSync] at a page that the file holds in full returns
    that page, and past the end of the file it returns nothing. *)
Lemma readSync_whole_page (h : Host) fd hfd (d : bytes) i :
  fds h !! fd = Some hfd → fd_read hfd = true → files h !! fd_path hfd = Some d →
  0 <= i → FILE_HEADER_SIZE + (i + 1) * ENCRYPTED_PAGE_SIZE <= blen d →
  readSync h fd (Buffer_alloc ENCRYPTED_PAGE_SIZE) 0 ENCRYPTED_PAGE_SIZE
    (FILE_HEADER_SIZE + i * ENCRYPTED_PAGE_SIZE)
  = inr (ENCRYPTED_PAGE_SIZE, page_at d i).
Proof.
  intros Hfd Hr Hd Hi Hsize.
  rewrite (readSync_page h fd hfd d) by (done || sizes; lia).
  replace (Z.max 0 (Z.min ENCRYPTED_PAGE_SIZE
                      (blen d - (FILE_HEADER_SIZE + i * ENCRYPTED_PAGE_SIZE))))
    with ENCRYPTED_PAGE_SIZE by (sizes; lia).
  assert (drop (Z.to_nat ENCRYPTED_PAGE_SIZE) (Buffer_alloc ENCRYPTED_PAGE_SIZE) = [])
    as -> by (unfold Buffer_alloc; by rewrite drop_replicate, Nat.sub_diag).
  rewrite app_nil_r. unfold page_at, subarray.
  replace (FILE_HEADER_SIZE + (i + 1) * ENCRYPTED_PAGE_SIZE
           - (FILE_HEADER_SIZE + i * ENCRYPTED_PAGE_SIZE))
    with ENCRYPTED_PAGE_SIZE by (sizes; lia).
  done.
Qed.

Lemma readSync_past_end (h : Host) fd hfd (d : bytes) pos :
  fds h !! fd = Some hfd → fd_read hfd = true → files h !! fd_path hfd = Some d →
  0 <= pos → blen d <= pos →
  ∃ b, readSync h fd (Buffer_alloc ENCRYPTED_PAGE_SIZE) 0 ENCRYPTED_PAGE_SIZE pos
       = inr (0, b).
Proof.
  intros Hfd Hr Hd Hpos Hend.
  rewrite (readSync_page h fd hfd d) by done.
  replace (Z.max 0 (Z.min ENCRYPTED_PAGE_SIZE (blen d - pos))) with 0 by (sizes; lia).
  by eexists.
Qed.

(** The byte at a logical position, from the page that holds it. *)
Lemma logical_byte_in_page (key fid d page : bytes) (i off : Z) :
  0 <= i → 0 <= off < PAGE_SIZE →
  decryptPage (page_at d i) i key fid = inr page →
  logical_byte key fid d (i * PAGE_SIZE + off) = page !! Z.to_nat off.
Proof.
  intros Hi Hoff Hdec. unfold EncryptedFS.logical_byte.
  assert ((i * PAGE_SIZE + off) / PAGE_SIZE = i) as ->.
  { symmetry. apply (Z.div_unique _ _ i off); sizes; lia. }
  assert ((i * PAGE_SIZE + off) mod PAGE_SIZE = off) as ->.
  { symmetry. apply (Z.mod_unique _ _ i off); sizes; lia. }
  by rewrite Hdec.
Qed.

(** The loop of [read] over a well-formed file, through a readable
    descriptor: it stops at the end of the request or at the end of the file,
    whichever comes first, and the buffer holds the logical bytes it passed.
    [E] is the last page of the request. *)
Lemma read_pages_spec (s : State) file hfd (d : bytes) k offset length p E :
  fds (host s) !! realFd file = Some hfd → fd_read hfd = true →
  files (host s) !! fd_path hfd = Some d →
  well_formed_file (encKey s) (fileId file) d k →
  0 <= offset → 0 <= p →
  E * PAGE_SIZE <= p + length - 1 < (E + 1) * PAGE_SIZE →
  ∀ (n : nat) pageNo total (buffer : bytes),
    Z.of_nat n = E + 1 - pageNo → 0 <= pageNo →
    0 <= total <= length → offset + length <= blen buffer →
    (n = 0%nat → total = length) →
    (n ≠ 0%nat → total < length ∧
                 pageNo * PAGE_SIZE <= p + total < (pageNo + 1) * PAGE_SIZE) →
    ∃ buffer',
      read_pages s file offset length p n pageNo total buffer
      = (inr (Z.max total (Z.min length (k * PAGE_SIZE - p))), buffer') ∧
      blen buffer' = blen buffer ∧
      (∀ j, total <= j < Z.max total (Z.min length (k * PAGE_SIZE - p)) →
            buffer' !! Z.to_nat (offset + j)
            = logical_byte (encKey s) (fileId file) d (p + j)) ∧
      (∀ i : nat, Z.of_nat i < offset + total ∨
                  offset + Z.max total (Z.min length (k * PAGE_SIZE - p)) <= Z.of_nat i →
                  buffer' !! i = buffer !! i).
Proof.
  intros Hfd Hr Hd (Hk & Hsize & Hpages) Hoff Hp HE n.
  induction n as [|n IH]; intros pageNo total buffer Hn Hpage Htot Hbuf Hzero Hmore.
  { cbn [EncryptedFS.read_pages]. exists buffer.
    rewrite (Hzero eq_refl).
    replace (Z.max length (Z.min length (k * PAGE_SIZE - p))) with length by lia.
    split; [done|]. split; [done|]. split; [intros j Hj; lia|done]. }
  destruct (Hmore ltac:(done)) as (Hlt & Hlo & Hhi).
  cbn [EncryptedFS.read_pages].
  destruct (decide (pageNo < k)) as [Hin|Hout].
  - (* a page of the file *)
    rewrite (readSync_whole_page (host s) (realFd file) hfd d pageNo)
      by (done || sizes; lia).
    rewrite !bool_decide_eq_false_2 by (sizes; lia).
    destruct (Hpages pageNo ltac:(lia)) as (page & Hdec & Hpagelen).
    rewrite Hdec.
    set (pageOffset := p + total - pageNo * PAGE_SIZE) in *.
    set (btc := Z.min (length - total) (PAGE_SIZE - pageOffset)) in *.
    assert (0 < btc) as Hbtc by (subst btc pageOffset; lia).
    destruct (Buffer_copy_fits page buffer (offset + total) pageOffset btc)
      as (buffer1 & Hcopy & Hlen1 & Hin1 & Hout1);
      [lia | subst pageOffset; lia | lia | subst btc; lia | subst btc; lia |].
    rewrite Hcopy.
    destruct (IH (pageNo + 1) (total + btc) buffer1)
      as (buffer' & Hrun & Hlen' & Hin' & Hout').
    + lia.
    + lia.
    + subst btc. lia.
    + lia.
    + intros ->. subst btc pageOffset. sizes; lia.
    + intros Hn'. subst btc pageOffset. sizes; lia.
    + assert (Z.max (total + btc) (Z.min length (k * PAGE_SIZE - p))
              = Z.max total (Z.min length (k * PAGE_SIZE - p))) as Hsame
        by (subst btc pageOffset; sizes; lia).
      rewrite Hsame in *.
      exists buffer'. split; [done|]. split; [lia|]. split.
      * intros j Hj. destruct (decide (total + btc <= j)) as [Hhigh|Hlow].
        { apply Hin'. lia. }
        rewrite Hout' by (left; rewrite Z2Nat.id by lia; lia).
        replace (offset + j) with (offset + total + (j - total)) by lia.
        rewrite Hin1 by lia.
        replace (p + j) with (pageNo * PAGE_SIZE + (pageOffset + (j - total)))
          by (subst pageOffset; lia).
        symmetry. apply logical_byte_in_page; [lia | subst btc; lia | done].
      * intros i Hi. rewrite Hout' by lia. apply Hout1. lia.
  - (* past the end of the file *)
    destruct (readSync_past_end (host s) (realFd file) hfd d
                (FILE_HEADER_SIZE + pageNo * ENCRYPTED_PAGE_SIZE))
      as (b & ->); [done | done | done | sizes; lia | sizes; lia |].
    rewrite bool_decide_eq_true_2 by done.
    replace (Z.max total (Z.min length (k * PAGE_SIZE - p))) with total
      by (sizes; lia).
    exists buffer. split; [done|]. split; [done|]. split; [intros j Hj; lia|done].
Qed.

(** [read] and [write] on a live instance, through the handle of an
    encrypted file and for a length other than 0, are their loops. *)
Lemma read_unfold (s : State) fd file buffer offset length pos :
  openFiles s !! fd = Some file → destroyed s = false → encrypted file = true →
  realFd file ≠ -1 → length ≠ 0 →
  read s fd buffer offset length pos
  = match read_pages s file offset length (logicalPos_of file pos)
            (Z.to_nat ((logicalPos_of file pos + length - 1) / PAGE_SIZE
                       - logicalPos_of file pos / PAGE_SIZE + 1))
            (logicalPos_of file pos / PAGE_SIZE) 0 buffer with
    | (inl e, buffer') => (inl e, buffer', s)
    | (inr n, buffer') =>
        (inr n, buffer', set_position s fd file (logicalPos_of file pos + n))
    end.
Proof.
  intros Hf Hlive Henc Hfd Hlen. unfold EncryptedFS.read.
  rewrite Hf, Hlive, Henc. cbn [negb].
  by rewrite !bool_decide_eq_false_2 by done.
Qed.

Lemma write_unfold (s : State) fd file buffer offset length pos :
  openFiles s !! fd = Some file → destroyed s = false → encrypted file = true →
  realFd file ≠ -1 → length ≠ 0 →
  write s fd buffer offset length pos
  = match write_pages s file buffer offset length (logicalPos_of file pos)
            (Z.to_nat ((logicalPos_of file pos + length - 1) / PAGE_SIZE
                       - logicalPos_of file pos / PAGE_SIZE + 1))
            (logicalPos_of file pos / PAGE_SIZE) 0 with
    | (inl e, s') => (inl e, s')
    | (inr n, s') =>
        (inr n, set_position s' fd file (logicalPos_of file pos + n))
    end.
Proof.
  intros Hf Hlive Henc Hfd Hlen. unfold EncryptedFS.write.
  rewrite Hf, Hlive, Henc. cbn [negb].
  by rewrite !bool_decide_eq_false_2 by done.
Qed.

(** The first and the last page of a request. *)
Lemma request_pages (p length : Z) :
  0 <= p → 0 < length →
  let S := p / PAGE_SIZE in
  let E := (p + length - 1) / PAGE_SIZE in
  0 <= S <= E ∧ S * PAGE_SIZE <= p < (S + 1) * PAGE_SIZE ∧
  E * PAGE_SIZE <= p + length - 1 < (E + 1) * PAGE_SIZE.
Proof.
  intros Hp Hlen. cbv zeta.
  pose proof (Z.div_mod p PAGE_SIZE ltac:(sizes; lia)).
  pose proof (Z.mod_pos_bound p PAGE_SIZE ltac:(sizes; lia)).
  pose proof (Z.div_mod (p + length - 1) PAGE_SIZE ltac:(sizes; lia)).
  pose proof (Z.mod_pos_bound (p + length - 1) PAGE_SIZE ltac:(sizes; lia)).
  sizes. lia.
Qed.

(** [read] on a well-formed file, through a readable descriptor. *)
Lemma read_spec
    (s : State) fd file hfd (d : bytes) k (buffer : bytes) offset length pos :
  openFiles s !! fd = Some file → destroyed s = false →
  encrypted file = true → realFd file ≠ -1 →
  fds (host s) !! realFd file = Some hfd → fd_read hfd = true →
  files (host s) !! fd_path hfd = Some d →
  well_formed_file (encKey s) (fileId file) d k →
  0 < length → 0 <= offset → offset + length <= blen buffer →
  0 <= logicalPos_of file pos →
  ∃ buffer',
    read s fd buffer offset length pos
    = (inr (Z.max 0 (Z.min length (k * PAGE_SIZE - logicalPos_of file pos))), buffer',
       set_position s fd file
         (logicalPos_of file pos
          + Z.max 0 (Z.min length (k * PAGE_SIZE - logicalPos_of file pos)))) ∧
    blen buffer' = blen buffer ∧
    (∀ j, 0 <= j < Z.min length (k * PAGE_SIZE - logicalPos_of file pos) →
          buffer' !! Z.to_nat (offset + j)
          = logical_byte (encKey s) (fileId file) d (logicalPos_of file pos + j)) ∧
    (∀ i : nat,
       Z.of_nat i < offset ∨
       offset + Z.max 0 (Z.min length (k * PAGE_SIZE - logicalPos_of file pos))
         <= Z.of_nat i →
       buffer' !! i = buffer !! i).
Proof.
  intros Hf Hlive Henc Hreal Hfd Hr Hd Hwf Hlen Hoff Hbuf Hp.
  rewrite (read_unfold s fd file) by (done || lia).
  destruct (request_pages (logicalPos_of file pos) length Hp Hlen) as (HS & HSp & HE).
  destruct (read_pages_spec s file hfd d k offset length (logicalPos_of file pos)
              ((logicalPos_of file pos + length - 1) / PAGE_SIZE)
              Hfd Hr Hd Hwf Hoff Hp HE
              (Z.to_nat ((logicalPos_of file pos + length - 1) / PAGE_SIZE
                         - logicalPos_of file pos / PAGE_SIZE + 1))
              (logicalPos_of file pos / PAGE_SIZE) 0 buffer)
    as (buffer' & -> & Hlen' & Hin & Hout); [lia | lia | lia | lia | lia | lia |].
  exists buffer'. split; [done|]. split; [done|]. split.
  - intros j Hj. apply Hin. lia.
  - intros i Hi. apply Hout. lia.
Qed.

(** On a well-formed encrypted file of [k] pages, through a readable
    descriptor, [read] returns the bytes from the position up to the end of
    the request or of the file, whichever comes first: the count is
    [min(length, k * PAGE_SIZE - p)], never below 0; the buffer holds that
    many logical bytes from [offset] on and is unchanged elsewhere; the
    position of the handle is moved behind the last byte read. *)
Theorem read_returns_logical_bytes
    (s : State) fd file hfd (d : bytes) k (buffer : bytes) offset length pos :
  openFiles s !! fd = Some file → destroyed s = false →
  encrypted file = true → realFd file ≠ -1 →
  fds (host s) !! realFd file = Some hfd → fd_read hfd = true →
  files (host s) !! fd_path hfd = Some d →
  well_formed_file (encKey s) (fileId file) d k →
  0 < length → 0 <= offset → offset + length <= blen buffer →
  0 <= logicalPos_of file pos →
  ∃ buffer',
    read s fd buffer offset length pos
    = (inr (Z.max 0 (Z.min length (k * PAGE_SIZE - logicalPos_of file pos))), buffer',
       set_position s fd file
         (logicalPos_of file pos
          + Z.max 0 (Z.min length (k * PAGE_SIZE - logicalPos_of file pos)))) ∧
    blen buffer' = blen buffer ∧
    (∀ j, 0 <= j < Z.min length (k * PAGE_SIZE - logicalPos_of file pos) →
          buffer' !! Z.to_nat (offset + j)
          = logical_byte (encKey s) (fileId file) d (logicalPos_of file pos + j)) ∧
    (∀ i : nat,
       Z.of_nat i < offset ∨
       offset + Z.max 0 (Z.min length (k * PAGE_SIZE - logicalPos_of file pos))
         <= Z.of_nat i →
       buffer' !! i = buffer !! i).
Proof. apply read_spec. Qed.

Hypothesis Hlengths : gcm_lengths gcm_encrypt.
Hypothesis Hrandom : random_lengths randomBytes.
Hypothesis Hroundtrip : gcm_roundtrip gcm_encrypt gcm_decrypt.

(** The loop of [write] on a well-formed file of [k] pages, through a
    writable descriptor that is readable or stands at the end of the file,
    and that is not in append mode or stands at the end of the file (where
    the host appends to is then where the page belongs): it writes the whole
    request; the file stays well-formed and ends after the last page
    written; the logical bytes of the request are those of the buffer, those
    outside it are as before, and what was added to the file outside the
    request is zero.  [E] is the last page of the request. *)
Lemma write_pages_spec file hfd (buffer : bytes) offset length p E :
  fd_write hfd = true →
  0 <= offset → offset + length <= blen buffer → 0 <= p →
  E * PAGE_SIZE <= p + length - 1 < (E + 1) * PAGE_SIZE → E <= 4294967295 →
  ∀ (n : nat) (s : State) pageNo total (d : bytes) k,
    fds (host s) !! realFd file = Some hfd →
    files (host s) !! fd_path hfd = Some d →
    blen (encKey s) = 32 →
    well_formed_file (encKey s) (fileId file) d k →
    (fd_read hfd = true ∨ k <= pageNo) →
    (fd_append hfd = false ∨ k <= pageNo) →
    Z.of_nat n = E + 1 - pageNo → 0 <= pageNo <= k →
    0 <= total <= length →
    (n = 0%nat → total = length) →
    (n ≠ 0%nat → total < length ∧
                 pageNo * PAGE_SIZE <= p + total < (pageNo + 1) * PAGE_SIZE) →
    ∃ s' d',
      write_pages s file buffer offset length p n pageNo total = (inr length, s') ∧
      files (host s') = <[fd_path hfd := d']> (files (host s)) ∧
      rng s' = rng s + Z.of_nat n ∧
      take (Z.to_nat FILE_HEADER_SIZE) d' = take (Z.to_nat FILE_HEADER_SIZE) d ∧
      well_formed_file (encKey s) (fileId file) d' (Z.max k (pageNo + Z.of_nat n)) ∧
      (∀ j, total <= j < length →
            logical_byte (encKey s) (fileId file) d' (p + j)
            = buffer !! Z.to_nat (offset + j)) ∧
      (∀ q, 0 <= q < Z.max k (pageNo + Z.of_nat n) * PAGE_SIZE →
            q < p + total ∨ p + length <= q →
            logical_byte (encKey s) (fileId file) d' q
            = if bool_decide (q < k * PAGE_SIZE)
              then logical_byte (encKey s) (fileId file) d q else Some x00).
Proof using Hlengths Hrandom Hroundtrip.
  intros Hw Hoff Hbuf Hp HE Hrange n.
  induction n as [|n IH];
    intros s pageNo total d k Hfd Hd Hkey Hwf Hmode Happ Hn Hpage Htot Hzero Hmore.
  { cbn [EncryptedFS.write_pages]. exists s, d. rewrite (Hzero eq_refl).
    split; [done|]. split; [by rewrite insert_id|]. split; [lia|]. split; [done|].
    replace (Z.max k (pageNo + Z.of_nat 0)) with k by lia.
    split; [done|]. split; [intros j Hj; lia|].
    intros q Hq _. by rewrite bool_decide_eq_true_2 by lia. }
  destruct (Hmore ltac:(done)) as (Hlt & Hlo & Hhi).
  cbn [EncryptedFS.write_pages].
  destruct Hwf as (Hk & Hsize & Hpages).
  set (pos := FILE_HEADER_SIZE + pageNo * ENCRYPTED_PAGE_SIZE) in *.
  set (pageOffset := p + total - pageNo * PAGE_SIZE) in *.
  set (btw := Z.min (length - total) (PAGE_SIZE - pageOffset)) in *.
  assert (0 < btw) as Hbtw by (subst btw pageOffset; lia).
  (* the page the iteration starts from *)
  assert (∃ pg, write_load_page s file pageNo = inr pg ∧ blen pg = PAGE_SIZE ∧
                (pageNo < k → decryptPage (page_at d pageNo) pageNo (encKey s)
                                (fileId file) = inr pg) ∧
                (k <= pageNo → pg = Buffer_alloc PAGE_SIZE))
    as (pg & Hload & Hpg & Hold & Hfresh).
  { destruct (decide (pageNo < k)) as [Hin|Hout].
    - destruct Hmode as [Hr|?]; [|lia].
      destruct (Hpages pageNo ltac:(lia)) as (pg & Hdec & Hlen).
      exists pg. split; [|split; [done|split; [done|lia]]].
      rewrite (write_load_page_existing gcm_decrypt ERRNO_CODES
                 s file hfd d pageNo) by (done || sizes; lia).
      by rewrite Hdec.
    - exists (Buffer_alloc PAGE_SIZE). split; [|split; [|split; [lia|done]]].
      + apply (write_load_page_at_end gcm_decrypt ERRNO_CODES
                 s file hfd d pageNo); (done || sizes; lia).
      + apply blen_alloc. sizes; lia. }
  rewrite Hload.
  destruct (Buffer_copy_fits buffer pg pageOffset (offset + total) btw)
    as (pg' & Hcopy & Hpg' & Hin1 & Hout1);
    [subst pageOffset; lia | lia | lia | subst btw; lia | subst btw; lia |].
  rewrite Hcopy. rewrite Hpg in Hpg'.
  (* the page it writes *)
  destruct (encryptPage_decryptPage gcm_encrypt gcm_decrypt randomBytes
              Hlengths Hroundtrip Hrandom (rng s) pg' pageNo (encKey s) (fileId file))
    as (page' & Henc & Hpage' & Hdec'); [done | lia | lia |].
  rewrite padded_page_full in Hdec' by done.
  rewrite Henc.
  assert (writeSync (host s) (realFd file) page' 0 ENCRYPTED_PAGE_SIZE pos
          = (inr ENCRYPTED_PAGE_SIZE,
             with_files (host s) (<[fd_path hfd := pwrite d page' pos]> (files (host s)))))
    as ->.
  { rewrite <- Hpage'.
    rewrite (writeSync_whole_at (host s) (realFd file) hfd d page' pos)
      by (done || subst pos; sizes; lia).
    replace (if fd_append hfd then blen d else pos) with pos; [done|].
    (* at the end of the file an append lands where the page belongs *)
    destruct (fd_append hfd); [|done].
    destruct Happ as [?|?]; [done|]. subst pos. sizes; lia. }
  set (d1 := pwrite d page' pos) in *.
  assert (0 <= pos <= blen d) as Hpos by (subst pos; sizes; lia).
  assert (page_at d1 pageNo = page') as Hnew.
  { unfold page_at. fold pos.
    replace (FILE_HEADER_SIZE + (pageNo + 1) * ENCRYPTED_PAGE_SIZE)
      with (pos + blen page') by (subst pos; sizes; lia).
    by apply subarray_pwrite. }
  assert (∀ i, 0 <= i → i ≠ pageNo → page_at d1 i = page_at d i) as Hother.
  { intros i Hi Hne. unfold page_at. destruct (decide (i < pageNo)).
    - apply subarray_pwrite_before; subst pos; sizes; lia.
    - apply subarray_pwrite_after; [done|]. rewrite Hpage'. subst pos. sizes; lia. }
  (* the rest of the loop *)
  match goal with
  | |- context [EncryptedFS.write_pages _ _ _ _ ?s1 _ _ _ _ _ _ _ _] =>
      destruct (IH s1 (pageNo + 1) (total + btw) d1 (Z.max k (pageNo + 1)))
        as (s' & d' & Hrun & Hfiles & Hrng & Hhdr & Hwf' & Hwin & Hframe)
  end.
  - done.
  - simpl. by rewrite lookup_insert_eq.
  - done.
  - split; [lia|]. split.
    + subst d1. rewrite blen_pwrite by done. rewrite Hpage'. subst pos. sizes; lia.
    + intros i Hi. destruct (decide (i = pageNo)) as [->|Hne].
      * exists pg'. split; [|done]. simpl. by rewrite Hnew.
      * destruct (Hpages i ltac:(lia)) as (pgi & Hdeci & Hleni).
        exists pgi. split; [|done]. simpl. rewrite Hother by lia. done.
  - destruct Hmode as [?|?]; [by left|right; lia].
  - destruct Happ as [?|?]; [by left|right; lia].
  - lia.
  - lia.
  - subst btw. lia.
  - intros ->. subst btw pageOffset. sizes; lia.
  - intros Hn'. subst btw pageOffset. sizes; lia.
  - simpl in Hrun, Hfiles, Hrng, Hwf', Hwin, Hframe.
    replace (Z.max (Z.max k (pageNo + 1)) (pageNo + 1 + Z.of_nat n))
      with (Z.max k (pageNo + Z.of_nat (S n))) in * by lia.
    (* the logical bytes of the page just written *)
    assert (∀ off, 0 <= off < PAGE_SIZE →
                   logical_byte (encKey s) (fileId file) d1 (pageNo * PAGE_SIZE + off)
                   = pg' !! Z.to_nat off) as Hpage1.
    { intros off Hoff'. apply logical_byte_in_page; [lia | done |]. by rewrite Hnew. }
    exists s', d'. split; [done|]. split; [by rewrite Hfiles, insert_insert_eq|].
    split; [lia|].
    split; [rewrite Hhdr; subst d1; apply take_pwrite; subst pos; sizes; lia|].
    split; [done|]. split.
    + intros j Hj. destruct (decide (total + btw <= j)) as [Hhigh|Hlow].
      { apply Hwin. lia. }
      rewrite Hframe by (subst btw pageOffset; sizes; lia).
      rewrite bool_decide_eq_true_2 by (subst btw pageOffset; sizes; lia).
      replace (p + j) with (pageNo * PAGE_SIZE + (pageOffset + (j - total)))
        by (subst pageOffset; lia).
      rewrite Hpage1 by (subst btw; lia).
      replace (offset + j) with (offset + total + (j - total)) by lia.
      apply Hin1. lia.
    + intros q Hq Hout.
      rewrite Hframe by (subst btw; lia).
      pose proof (Z.div_mod q PAGE_SIZE ltac:(sizes; lia)) as Hdm.
      pose proof (Z.mod_pos_bound q PAGE_SIZE ltac:(sizes; lia)) as Hmb.
      destruct (decide (q / PAGE_SIZE = pageNo)) as [Hhere|Hnothere].
      * (* in the page just written, outside the request *)
        rewrite bool_decide_eq_true_2 by (sizes; lia).
        replace q with (pageNo * PAGE_SIZE + q mod PAGE_SIZE) at 1 by (sizes; lia).
        rewrite Hpage1 by lia.
        rewrite Hout1
          by (rewrite Z2Nat.id by lia; subst btw pageOffset; sizes; lia).
        case_bool_decide as Hq'.
        -- unfold EncryptedFS.logical_byte. rewrite Hhere.
           by rewrite (Hold ltac:(sizes; lia)).
        -- rewrite (Hfresh ltac:(sizes; lia)). unfold Buffer_alloc.
           apply lookup_replicate_2. sizes; lia.
      * (* in another page *)
        assert (logical_byte (encKey s) (fileId file) d1 q
                = logical_byte (encKey s) (fileId file) d q) as Hsame.
        { apply (logical_byte_page gcm_decrypt).
          apply Hother; [apply Z.div_pos; sizes; lia | done]. }
        case_bool_decide as Hq1; case_bool_decide as Hq'; try done; sizes; lia.
Qed.

(** [write] on a well-formed file: at its end, or through a readable
    descriptor that is not in append mode. *)
Lemma write_spec
    (s : State) fd file hfd (d : bytes) k (buffer : bytes) offset length pos :
  openFiles s !! fd = Some file → destroyed s = false →
  encrypted file = true → realFd file ≠ -1 →
  fds (host s) !! realFd file = Some hfd → fd_write hfd = true →
  files (host s) !! fd_path hfd = Some d →
  blen (encKey s) = 32 →
  well_formed_file (encKey s) (fileId file) d k →
  0 < length → 0 <= offset → offset + length <= blen buffer →
  0 <= logicalPos_of file pos → logicalPos_of file pos / PAGE_SIZE <= k →
  (fd_read hfd = true ∨ k * PAGE_SIZE <= logicalPos_of file pos) →
  (fd_append hfd = false ∨ k * PAGE_SIZE <= logicalPos_of file pos) →
  logicalPos_of file pos + length <= 4294967296 * PAGE_SIZE →
  ∃ s' d',
    write s fd buffer offset length pos = (inr length, s') ∧
    openFiles s'
    = <[fd := with_position file (logicalPos_of file pos + length)]> (openFiles s) ∧
    files (host s') = <[fd_path hfd := d']> (files (host s)) ∧
    fds (host s') = fds (host s) ∧
    take (Z.to_nat FILE_HEADER_SIZE) d' = take (Z.to_nat FILE_HEADER_SIZE) d ∧
    well_formed_file (encKey s) (fileId file) d'
      (Z.max k ((logicalPos_of file pos + length - 1) / PAGE_SIZE + 1)) ∧
    (∀ j, 0 <= j < length →
          logical_byte (encKey s) (fileId file) d' (logicalPos_of file pos + j)
          = buffer !! Z.to_nat (offset + j)) ∧
    (∀ q, 0 <= q < Z.max k ((logicalPos_of file pos + length - 1) / PAGE_SIZE + 1)
                   * PAGE_SIZE →
          q < logicalPos_of file pos ∨ logicalPos_of file pos + length <= q →
          logical_byte (encKey s) (fileId file) d' q
          = if bool_decide (q < k * PAGE_SIZE)
            then logical_byte (encKey s) (fileId file) d q else Some x00).
Proof using Hlengths Hrandom Hroundtrip.
  intros Hf Hlive Henc Hreal Hfd Hw Hd Hkey Hwf Hlen Hoff Hbuf Hp Hstart Hmode Happ Hmax.
  rewrite (write_unfold s fd file) by (done || lia).
  destruct (request_pages (logicalPos_of file pos) length Hp Hlen) as (HS & HSp & HE).
  set (p := logicalPos_of file pos) in *.
  set (n := Z.to_nat ((p + length - 1) / PAGE_SIZE - p / PAGE_SIZE + 1)).
  assert ((p + length - 1) / PAGE_SIZE <= 4294967295) as HEmax by (sizes; lia).
  assert (fd_read hfd = true ∨ k <= p / PAGE_SIZE) as Hmode'.
  { destruct Hmode as [?|?]; [by left|right; sizes; lia]. }
  assert (fd_append hfd = false ∨ k <= p / PAGE_SIZE) as Happ'.
  { destruct Happ as [?|?]; [by left|right; sizes; lia]. }
  destruct (write_pages_spec file hfd buffer offset length p ((p + length - 1) / PAGE_SIZE)
              Hw Hoff Hbuf Hp HE HEmax n s (p / PAGE_SIZE) 0 d k
              Hfd Hd Hkey Hwf Hmode' Happ')
    as (s1 & d' & Hrun & Hfiles & _ & Hhdr & Hwf' & Hwin & Hframe);
    [subst n; lia | lia | lia | subst n; lia | subst n; lia |].
  pose proof (write_pages_handles gcm_encrypt gcm_decrypt randomBytes ERRNO_CODES
                file buffer offset length p n s (p / PAGE_SIZE) 0) as Hh.
  cbv zeta in Hh. rewrite Hrun in Hh. cbn [snd] in Hh.
  destruct Hh as (Ho & _ & _ & _ & Hfds & _ & _).
  rewrite Hrun.
  replace (p / PAGE_SIZE + Z.of_nat n) with ((p + length - 1) / PAGE_SIZE + 1)
    in * by (subst n; lia).
  exists (set_position s1 fd file (p + length)), d'.
  split; [done|]. split; [simpl; by rewrite Ho|].
  split; [done|]. split; [done|]. split; [done|]. split; [done|]. split.
  - intros j Hj. apply Hwin. lia.
  - intros q Hq Hout. apply Hframe; [done|lia].
Qed.

(** [write] on a well-formed encrypted file of [k] pages, starting no
    further than the page after the last one, through a writable descriptor.
    A request that starts inside the file needs a descriptor that is
    readable (or the old page is taken for zeros) and not in append mode (or
    the host puts the page at the end of the file); a request that starts at
    the end of the file needs neither.  The call writes the whole request
    and moves the position of the handle behind it.
    The file stays well-formed and grows to the last page of the request;
    its header is untouched; its logical bytes are those of the buffer
    inside the request, the old ones outside it, and zero where the request
    left a new page untouched. *)
Theorem write_stores_the_buffer
    (s : State) fd file hfd (d : bytes) k (buffer : bytes) offset length pos :
  openFiles s !! fd = Some file → destroyed s = false →
  encrypted file = true → realFd file ≠ -1 →
  fds (host s) !! realFd file = Some hfd → fd_write hfd = true →
  files (host s) !! fd_path hfd = Some d →
  blen (encKey s) = 32 →
  well_formed_file (encKey s) (fileId file) d k →
  0 < length → 0 <= offset → offset + length <= blen buffer →
  0 <= logicalPos_of file pos → logicalPos_of file pos / PAGE_SIZE <= k →
  (fd_read hfd = true ∨ k * PAGE_SIZE <= logicalPos_of file pos) →
  (fd_append hfd = false ∨ k * PAGE_SIZE <= logicalPos_of file pos) →
  logicalPos_of file pos + length <= 4294967296 * PAGE_SIZE →
  ∃ s' d',
    write s fd buffer offset length pos = (inr length, s') ∧
    openFiles s'
    = <[fd := with_position file (logicalPos_of file pos + length)]> (openFiles s) ∧
    files (host s') = <[fd_path hfd := d']> (files (host s)) ∧
    fds (host s') = fds (host s) ∧
    take (Z.to_nat FILE_HEADER_SIZE) d' = take (Z.to_nat FILE_HEADER_SIZE) d ∧
    well_formed_file (encKey s) (fileId file) d'
      (Z.max k ((logicalPos_of file pos + length - 1) / PAGE_SIZE + 1)) ∧
    (∀ j, 0 <= j < length →
          logical_byte (encKey s) (fileId file) d' (logicalPos_of file pos + j)
          = buffer !! Z.to_nat (offset + j)) ∧
    (∀ q, 0 <= q < Z.max k ((logicalPos_of file pos + length - 1) / PAGE_SIZE + 1)
                   * PAGE_SIZE →
          q < logicalPos_of file pos ∨ logicalPos_of file pos + length <= q →
          logical_byte (encKey s) (fileId file) d' q
          = if bool_decide (q < k * PAGE_SIZE)
            then logical_byte (encKey s) (fileId file) d q else Some x00).
Proof using Hlengths Hrandom Hroundtrip. apply write_spec. Qed.

(** What was written is what is read: after a [write] of [data] at the
    position [p] through a descriptor open for reading and writing, a [read]
    of as many bytes at [p] through the same handle returns [data].  For a
    descriptor that is not in append mode; through one that is, for a write
    that starts at the end of the file. *)
Theorem write_then_read_returns_the_data
    (s : State) fd file hfd (d : bytes) k (data : bytes) p :
  openFiles s !! fd = Some file → destroyed s = false →
  encrypted file = true → realFd file ≠ -1 →
  fds (host s) !! realFd file = Some hfd →
  fd_read hfd = true → fd_write hfd = true →
  files (host s) !! fd_path hfd = Some d →
  blen (encKey s) = 32 →
  well_formed_file (encKey s) (fileId file) d k →
  0 < blen data → 0 <= p → p / PAGE_SIZE <= k →
  (fd_append hfd = false ∨ k * PAGE_SIZE <= p) →
  p + blen data <= 4294967296 * PAGE_SIZE →
  ∃ s1 s2,
    write s fd data 0 (blen data) (Some p) = (inr (blen data), s1) ∧
    read s1 fd (Buffer_alloc (blen data)) 0 (blen data) (Some p)
    = (inr (blen data), data, s2).
Proof using Hlengths Hrandom Hroundtrip.
  intros Hf Hlive Henc Hreal Hfd Hr Hw Hd Hkey Hwf Hlen Hp Hstart Happ Hmax.
  assert (logicalPos_of file (Some p) = p) as Hpos
    by (unfold logicalPos_of; by rewrite bool_decide_eq_false_2 by lia).
  destruct (write_spec s fd file hfd d k data 0 (blen data) (Some p))
    as (s1 & d' & Hwrite & Ho & Hfiles & Hfds & _ & Hwf' & Hwin & _);
    [done | done | done | done | done | done | done | done | done | done | lia | lia
    | rewrite Hpos; lia | by rewrite Hpos | by left | by rewrite Hpos
    | rewrite Hpos; lia |].
  rewrite Hpos in *.
  set (k' := Z.max k ((p + blen data - 1) / PAGE_SIZE + 1)) in *.
  set (file1 := with_position file (p + blen data)).
  assert (encKey s1 = encKey s ∧ destroyed s1 = false) as [Hkey1 Hlive1].
  { pose proof (write_handles gcm_encrypt gcm_decrypt randomBytes ERRNO_CODES
                  s fd data 0 (blen data) (Some p)) as Hh.
    cbv zeta in Hh. rewrite Hwrite in Hh. cbn [snd] in Hh.
    destruct Hh as (_ & _ & (? & _ & _ & _ & ?) & _). split; congruence. }
  destruct (request_pages p (blen data) Hp Hlen) as (HS & HSp & HE).
  destruct (read_spec s1 fd file1 hfd d' k' (Buffer_alloc (blen data)) 0 (blen data)
              (Some p))
    as (buffer' & Hread & Hlen' & Hin & _).
  - by rewrite Ho, lookup_insert_eq.
  - done.
  - done.
  - done.
  - by rewrite Hfds.
  - done.
  - by rewrite Hfiles, lookup_insert_eq.
  - by rewrite Hkey1.
  - done.
  - lia.
  - rewrite blen_alloc by lia. lia.
  - cbn [logicalPos_of]. rewrite bool_decide_eq_false_2 by lia. lia.
  - assert (logicalPos_of file1 (Some p) = p) as Hpos1
      by (unfold logicalPos_of; by rewrite bool_decide_eq_false_2 by lia).
    rewrite Hpos1 in *.
    assert (Z.min (blen data) (k' * PAGE_SIZE - p) = blen data) as Hall
      by (subst k'; sizes; lia).
    rewrite Hall in *. rewrite Z.max_r in Hread by lia.
    exists s1, (set_position s1 fd file1 (p + blen data)).
    split; [done|]. rewrite Hread. do 2 f_equal.
    rewrite blen_alloc in Hlen' by lia.
    apply list_eq. intros i.
    destruct (decide (Z.of_nat i < blen data)) as [Hi|Hi].
    + specialize (Hin (Z.of_nat i) ltac:(lia)).
      rewrite Z.add_0_l, Nat2Z.id in Hin. rewrite Hin, Hkey1.
      change (fileId file1) with (fileId file).
      rewrite (Hwin (Z.of_nat i)) by lia. by rewrite Z.add_0_l, Nat2Z.id.
    + rewrite !lookup_ge_None_2; [done | unfold blen in *; lia | unfold blen in *; lia].
Qed.

(** *** Writing a file and reading it back *)

Local Abbreviation open_body := (EncryptedFS.open_body randomBytes ERRNO_CODES).
Local Abbreviation writeFile :=
  (EncryptedFS.writeFile gcm_encrypt gcm_decrypt randomBytes ERRNO_CODES).

(** [readFileId] through a readable descriptor on a file that holds a
    header returns bytes 16..48. *)
Lemma readFileId_header (h : Host) fd hfd (d : bytes) :
  fds h !! fd = Some hfd → fd_read hfd = true → files h !! fd_path hfd = Some d →
  FILE_HEADER_SIZE <= blen d →
  readFileId ERRNO_CODES h fd = inr (subarray d SALT_SIZE FILE_HEADER_SIZE).
Proof.
  intros Hfd Hr Hd Hlen. unfold readFileId, readSync.
  rewrite blen_alloc by (sizes; lia).
  rewrite !bool_decide_eq_false_2 by (sizes; lia).
  rewrite Hfd, Hr, Hd. cbn [negb].
  assert (blen (take (Z.to_nat FILE_ID_SIZE) (drop (Z.to_nat SALT_SIZE) d)) = FILE_ID_SIZE)
    as Hgot by (rewrite blen_take, blen_drop by (sizes; lia); sizes; lia).
  rewrite Hgot. rewrite bool_decide_eq_false_2 by (intros Hne; by apply Hne).
  f_equal. unfold subarray, Buffer_alloc.
  rewrite drop_replicate, Z.add_0_l, Nat.sub_diag. simpl. rewrite app_nil_r.
  repeat f_equal; sizes; lia.
Qed.

(** [open] of an encrypted file that exists and holds a header, with a
    flag that reads and neither truncates nor insists on creating (['r'],
    ['r+'], ['a+']): it returns the next descriptor, the handle carries the
    file id of the header, and the file is as it was. *)
Lemma open_body_existing (s : State) q nf m (d : bytes) :
  parse_flags nf = Some m →
  om_read m = true → om_trunc m = false → om_excl m = false →
  shouldEncrypt q = true →
  dirs (host s) !! resolvePath s q = None →
  files (host s) !! resolvePath s q = Some d →
  FILE_HEADER_SIZE <= blen d →
  ∃ s',
    open_body s q nf = (inr (nextFd s), s') ∧
    openFiles s'
    = <[nextFd s := {| realFd := next_fd (host s); path := resolvePath s q;
                       flags := nf; position := 0; encrypted := true;
                       fileId := subarray d SALT_SIZE FILE_HEADER_SIZE |}]>
        (openFiles s) ∧
    encKey s' = encKey s ∧ destroyed s' = destroyed s ∧
    fds (host s') !! next_fd (host s)
    = Some {| fd_path := resolvePath s q; fd_read := true; fd_write := om_write m;
              fd_append := om_append m |} ∧
    files (host s') !! resolvePath s q = Some d.
Proof.
  intros Hm Hr Htrunc Hexcl Henc Hnodir Hfile Hlen.
  unfold EncryptedFS.open_body.
  set (fullPath := resolvePath s q) in *.
  assert (existsSync (host s) fullPath &&
          match statSync (host s) fullPath with
          | inr stats => st_isDirectory stats
          | inl _ => false
          end = false) as ->.
  { unfold statSync. rewrite Hnodir, Hfile. apply andb_false_r. }
  set (h0 := if negb (existsSync (host s) (Path.dirname fullPath))
             then mkdirSync (host s) (Path.dirname fullPath) else host s).
  assert (files h0 = files (host s) ∧ fds h0 = fds (host s) ∧
          next_fd h0 = next_fd (host s) ∧ dirs h0 !! fullPath = None)
    as (Hf0 & Hfd0 & Hn0 & Hd0).
  { subst h0. destruct (existsSync (host s) (Path.dirname fullPath)) eqn:Hex; cbn [negb].
    - done.
    - simpl. repeat split; try done.
      destruct (decide (Path.dirname fullPath = fullPath)) as [Heq|Hne].
      + rewrite Heq in Hex. by rewrite (existsSync_a_file _ _ _ Hfile) in Hex.
      + by rewrite lookup_insert_ne. }
  assert (existsSync h0 fullPath = true) as Hex0
    by (apply (existsSync_a_file h0 fullPath d); by rewrite Hf0).
  rewrite Hex0, Henc. rewrite andb_false_r. cbn [andb].
  unfold openSync. rewrite Hm.
  rewrite bool_decide_eq_false_2 by (rewrite Hd0; by intros [? ?]).
  rewrite Hf0, Hfile, Hexcl, Htrunc.
  destruct (parse_flags_tests nf m Hm) as (Htr & _).
  rewrite Htr, Htrunc. unfold open_header. cbn [andb].
  set (hfd := {| fd_path := fullPath; fd_read := om_read m; fd_write := om_write m;
                 fd_append := om_append m |}).
  match goal with
  | |- context [readFileId ERRNO_CODES ?h2 ?fd] =>
      rewrite (readFileId_header h2 fd hfd d)
  end.
  - eexists. split; [reflexivity|]. simpl.
    split; [by rewrite Hn0|]. split; [done|]. split; [done|].
    rewrite Hn0, !lookup_insert_eq. subst hfd. by rewrite Hr.
  - simpl. by rewrite lookup_insert_eq.
  - subst hfd. done.
  - simpl. by rewrite lookup_insert_eq.
  - done.
Qed.

(** [Math.ceil(len / PAGE_SIZE)] is the number of pages that hold [len]
    bytes. *)
Lemma ceil_div_pages (len : Z) :
  0 < len → ceil_div len PAGE_SIZE = (len - 1) / PAGE_SIZE + 1.
Proof.
  intros Hlen. unfold ceil_div.
  pose proof (Z.div_mod (- len) PAGE_SIZE ltac:(sizes; lia)).
  pose proof (Z.mod_pos_bound (- len) PAGE_SIZE ltac:(sizes; lia)).
  pose proof (Z.div_mod (len - 1) PAGE_SIZE ltac:(sizes; lia)).
  pose proof (Z.mod_pos_bound (len - 1) PAGE_SIZE ltac:(sizes; lia)).
  sizes. lia.
Qed.

(** [writeFile] of an encrypted path, then [open] for reading and [read]:
    when [writeFile] returned, the file on the host is a header and
    [ceil(length / PAGE_SIZE)] encrypted pages, the file opens, and reading
    as many bytes as were written from position 0 returns them. *)
Theorem writeFile_then_read_returns_the_data
    (s : State) p (data : bytes) (s1 : State) :
  destroyed s = false → blen (encKey s) = 32 → blen (salt s) = SALT_SIZE →
  shouldEncrypt (normalizePath s p) = true →
  dirs (host s) !! resolvePath s (normalizePath s p) = None →
  0 <= next_fd (host s) →
  blen data <= 4294967296 * PAGE_SIZE →
  writeFile s p data None = (inr (), s1) →
  ∃ d' s2 s3,
    files (host s1) !! resolvePath s (normalizePath s p) = Some d' ∧
    blen d' = FILE_HEADER_SIZE
              + ceil_div (blen data) PAGE_SIZE * ENCRYPTED_PAGE_SIZE ∧
    open s1 p (inr "r"%string) = (inr (nextFd s1), s2) ∧
    read s2 (nextFd s1) (Buffer_alloc (blen data)) 0 (blen data) (Some 0)
    = (inr (blen data), data, s3).
Proof using Hlengths Hrandom Hroundtrip.
  intros Hlive Hkey Hsalt Henc Hnodir Hnext Hmax Hrun.
  pose proof (blen_nonneg data) as Hdata.
  unfold EncryptedFS.writeFile in Hrun.
  destruct (open s p (inr "w"%string)) as [[e|fd] sa] eqn:Hopen; [done|].
  unfold EncryptedFS.open in Hopen. cbn [emFlagsToNode'] in Hopen.
  set (q := normalizePath s p) in *.
  set (fullPath := resolvePath s q) in *.
  destruct (open_body s q "w") as [[e|fd'] sa'] eqn:Hob; [done|].
  injection Hopen as <- <-.
  destruct (open_body_file randomBytes ERRNO_CODES Hrandom s q "w" fd' sa' Hnodir
              (λ _, Hsalt) Hob)
    as (m & fid & d0 & Hm & -> & Hoa & Hna & Hinst & Hfdsa & Hnfa & Hfilesa & Hdirsa
        & Hdira & _ & _ & _ & Hcontent).
  fold q fullPath in Hoa, Hfdsa, Hfilesa, Hdirsa, Hdira, Hcontent.
  cbn in Hm. injection Hm as <-. cbn [om_read om_write om_trunc om_append] in *.
  rewrite Henc in Hcontent, Hoa.
  destruct Hcontent as (Hfid & _ & _ & Hd0). specialize (Hd0 (or_introl eq_refl)).
  subst d0.
  destruct Hinst as (Hkeya & _ & Hdda & Hcwda & Hlivea).
  set (file0 := {| realFd := next_fd (host s); path := fullPath; flags := "w";
                   position := 0; encrypted := true; fileId := fid |}) in *.
  set (hfd := {| fd_path := fullPath; fd_read := false; fd_write := true;
                 fd_append := false |}) in *.
  assert (openFiles sa' !! nextFd s = Some file0) as Hf0
    by (by rewrite Hoa, lookup_insert_eq).
  assert (fds (host sa') !! realFd file0 = Some hfd) as Hfd0
    by (by rewrite Hfdsa, lookup_insert_eq).
  assert (files (host sa') !! fd_path hfd = Some (salt s ++ fid)) as Hd0
    by (by rewrite Hfilesa, lookup_insert_eq).
  assert (blen (salt s ++ fid) = FILE_HEADER_SIZE) as Hhdrlen
    by (rewrite blen_app, Hsalt, Hfid; sizes; lia).
  (* the write *)
  assert (∃ res sb fileb d' k',
            write sa' (nextFd s) data 0 (blen data) (Some 0) = (inr res, sb) ∧
            openFiles sb !! nextFd s = Some fileb ∧ realFd fileb = next_fd (host s) ∧
            openFiles sb = <[nextFd s := fileb]> (openFiles s) ∧
            encKey sb = encKey s ∧ dataDir sb = dataDir s ∧ cwd sb = cwd s ∧
            destroyed sb = false ∧ nextFd sb = nextFd s + 1 ∧
            fds (host sb) = fds (host sa') ∧ dirs (host sb) = dirs (host sa') ∧
            next_fd (host sb) = next_fd (host sa') ∧
            files (host sb) !! fullPath = Some d' ∧
            well_formed_file (encKey s) fid d' k' ∧
            take (Z.to_nat FILE_HEADER_SIZE) d' = salt s ++ fid ∧
            k' = ceil_div (blen data) PAGE_SIZE ∧
            (∀ j, 0 <= j < blen data →
                  logical_byte (encKey s) fid d' j = data !! Z.to_nat j))
    as (res & sb & fileb & d' & k' & Hwrite & Hfb & Hrealb & Hob' & Hkeyb & Hddb & Hcwdb
        & Hliveb & Hnb & Hfdsb & Hdirsb & Hnfb & Hfilesb & Hwfb & Hhdrb & Hk' & Hbytes).
  { destruct (decide (blen data = 0)) as [Hzero|Hpos].
    - exists 0, sa', file0, (salt s ++ fid), 0.
      split.
      { unfold EncryptedFS.write. rewrite Hf0, Hlivea, Hlive.
        by rewrite bool_decide_eq_true_2 by done. }
      split; [done|]. split; [done|]. split; [done|].
      split; [done|]. split; [done|]. split; [done|]. split; [congruence|].
      split; [done|]. split; [done|]. split; [done|]. split; [done|].
      split; [done|].
      split; [split; [lia|split; [rewrite Hhdrlen; lia|intros i Hi; lia]]|].
      split; [apply take_ge; unfold blen in Hhdrlen; lia|].
      split; [by rewrite Hzero|]. intros j Hj. lia.
    - assert (logicalPos_of file0 (Some 0) = 0) as Hp0 by done.
      destruct (write_spec sa' (nextFd s) file0 hfd (salt s ++ fid) 0 data 0 (blen data)
                  (Some 0))
        as (sb & d' & Hwrite & Ho' & Hfiles' & Hfds' & Hhdr' & Hwf' & Hwin & _);
        [done | congruence | done | simpl; lia | done | done | done | congruence
        | rewrite Hkeya; split; [lia|split; [rewrite Hhdrlen; lia|intros i Hi; lia]]
        | lia | lia | lia | rewrite Hp0; lia | rewrite Hp0; done
        | right; rewrite Hp0; lia | by left | rewrite Hp0; lia |].
      rewrite Hp0, Hkeya in *. cbn [fileId file0] in *.
      pose proof (write_handles gcm_encrypt gcm_decrypt randomBytes ERRNO_CODES
                    sa' (nextFd s) data 0 (blen data) (Some 0)) as Hh.
      cbv zeta in Hh. rewrite Hwrite in Hh. cbn [snd] in Hh.
      destruct Hh as (_ & Hnb & (Hk1 & _ & Hdd1 & Hcwd1 & Hlive1) & Hdirs1 & _ & Hnf1 & _).
      exists (blen data), sb, (with_position file0 (0 + blen data)), d',
        (Z.max 0 ((0 + blen data - 1) / PAGE_SIZE + 1)).
      split; [done|]. split; [by rewrite Ho', lookup_insert_eq|]. split; [done|].
      split; [by rewrite Ho', Hoa, insert_insert_eq|].
      split; [congruence|]. split; [congruence|]. split; [congruence|].
      split; [congruence|]. split; [congruence|]. split; [done|]. split; [done|].
      split; [done|]. split; [by rewrite Hfiles', lookup_insert_eq|].
      split; [done|].
      split; [rewrite Hhdr'; apply take_ge; unfold blen in Hhdrlen; lia|].
      split.
      { rewrite ceil_div_pages by lia. rewrite Z.add_0_l.
        assert (0 <= (blen data - 1) / PAGE_SIZE) by (apply Z.div_pos; sizes; lia). lia. }
      intros j Hj. specialize (Hwin j Hj). by rewrite !Z.add_0_l in Hwin. }
  (* the close *)
  rewrite Hwrite in Hrun. unfold EncryptedFS.close in Hrun.
  rewrite Hfb, Hrealb in Hrun.
  rewrite (bool_decide_eq_true_2 (next_fd (host s) ≠ -1)) in Hrun by lia.
  unfold closeSync in Hrun. rewrite Hfdsb, Hfdsa, lookup_insert_eq in Hrun.
  injection Hrun as <-.
  cbn [host with_host with_openFiles files dirs fds next_fd nextFd openFiles].
  destruct Hwfb as (Hk0 & Hsize & Hpages).
  (* the open for reading *)
  match goal with
  | |- context [EncryptedFS.open _ _ ?x p _] => set (s1 := x) in *
  end.
  change (files (host sb)) with (files (host s1)).
  change (nextFd sb) with (nextFd s1).
  assert (normalizePath s1 p = q) as Hq1.
  { unfold normalizePath. subst s1 q. cbn [cwd with_openFiles with_host].
    by rewrite Hcwdb. }
  assert (resolvePath s1 q = fullPath) as Hfull1.
  { unfold resolvePath. subst s1 fullPath. cbn [dataDir with_openFiles with_host].
    by rewrite Hddb. }
  destruct (open_body_existing s1 q "r"
              {| om_read := true; om_write := false; om_create := false;
                 om_trunc := false; om_excl := false; om_append := false |} d')
    as (s2 & Hopen2 & Ho2 & Hkey2 & Hlive2 & Hfds2 & Hfiles2);
    [done | done | done | done | done
    | rewrite Hfull1; subst s1; simpl; by rewrite Hdirsb
    | rewrite Hfull1; subst s1; simpl; done
    | rewrite Hsize; sizes; lia |].
  rewrite Hfull1 in *.
  exists d', s2.
  assert (open s1 p (inr "r"%string) = (inr (nextFd s1), s2)) as Hopen.
  { unfold EncryptedFS.open. cbn [emFlagsToNode']. by rewrite Hq1, Hopen2. }
  assert (subarray d' SALT_SIZE FILE_HEADER_SIZE = fid) as Hid.
  { rewrite <- (subarray_take d' SALT_SIZE FILE_HEADER_SIZE FILE_HEADER_SIZE)
      by (sizes; lia).
    rewrite Hhdrb. unfold subarray.
    rewrite drop_app_length' by (unfold blen in Hsalt; sizes; lia).
    apply take_ge. unfold blen in Hfid. sizes; lia. }
  rewrite Hid in Ho2.
  set (file2 := {| realFd := next_fd (host s1); path := fullPath; flags := "r";
                   position := 0; encrypted := true; fileId := fid |}) in *.
  (* the read *)
  destruct (decide (blen data = 0)) as [Hzero|Hpos].
  - exists s2. split; [done|]. split; [rewrite Hsize, Hk'; done|]. split; [done|].
    unfold EncryptedFS.read. rewrite Ho2, lookup_insert_eq.
    assert (destroyed s2 = false) as -> by (rewrite Hlive2; done).
    rewrite bool_decide_eq_true_2 by done. rewrite Hzero.
    by rewrite (blen_nil_inv data Hzero).
  - destruct (read_spec s2 (nextFd s1) file2
                {| fd_path := fullPath; fd_read := true; fd_write := false;
                   fd_append := false |}
                d' k' (Buffer_alloc (blen data)) 0 (blen data) (Some 0))
      as (buffer' & Hread & Hlen' & Hin & _).
    + by rewrite Ho2, lookup_insert_eq.
    + by rewrite Hlive2.
    + done.
    + subst file2 s1. simpl. lia.
    + done.
    + done.
    + done.
    + rewrite Hkey2. subst s1. simpl. rewrite Hkeyb. done.
    + lia.
    + lia.
    + rewrite blen_alloc by lia. lia.
    + done.
    + assert (logicalPos_of file2 (Some 0) = 0) as Hp0 by done.
      rewrite Hp0 in *.
      assert (blen data <= k' * PAGE_SIZE) as Hfits.
      { rewrite Hk', ceil_div_pages by lia.
        pose proof (Z.div_mod (blen data - 1) PAGE_SIZE ltac:(sizes; lia)).
        pose proof (Z.mod_pos_bound (blen data - 1) PAGE_SIZE ltac:(sizes; lia)).
        sizes. lia. }
      replace (Z.min (blen data) (k' * PAGE_SIZE - 0)) with (blen data) in * by lia.
      rewrite Z.max_r in Hread by lia.
      eexists. split; [done|]. split; [rewrite Hsize, Hk'; done|]. split; [done|].
      rewrite Hread. do 2 f_equal.
      rewrite blen_alloc in Hlen' by lia.
      apply list_eq. intros i.
      destruct (decide (Z.of_nat i < blen data)) as [Hi|Hi].
      * specialize (Hin (Z.of_nat i) ltac:(lia)).
        rewrite !Z.add_0_l, Nat2Z.id in Hin. rewrite Hin.
        assert (encKey s2 = encKey s) as -> by (rewrite Hkey2; subst s1; simpl; done).
        change (fileId file2) with fid.
        rewrite (Hbytes (Z.of_nat i)) by lia. by rewrite Nat2Z.id.
      * rewrite !lookup_ge_None_2; [done | unfold blen in *; lia | unfold blen in *; lia].
Qed.

End Page_io.

(** ** encrypted-fs.ts: sizes, [truncate], [lstat] and [access] *)

Section Size_properties.

Context (gcm_encrypt : bytes → bytes → bytes → bytes → JsError + (bytes * bytes))
        (gcm_decrypt : bytes → bytes → bytes → bytes → bytes → JsError + bytes)
        (randomBytes : Z → Z → bytes)
        (sha256 : bytes → bytes)
        (ERRNO_CODES : string → option Z).

Import Crypto HostFs EncryptedFS.

Local Ltac tidy :=
  try clear sha256; try clear gcm_encrypt; try clear gcm_decrypt;
  try clear randomBytes; try clear ERRNO_CODES.

Local Abbreviation createError := (EncryptedFS.createError ERRNO_CODES).
Local Abbreviation encryptPage := (Crypto.encryptPage gcm_encrypt randomBytes).
Local Abbreviation decryptPage := (Crypto.decryptPage gcm_decrypt).
Local Abbreviation truncate :=
  (EncryptedFS.truncate gcm_encrypt randomBytes ERRNO_CODES).
Local Abbreviation lstat := (EncryptedFS.lstat ERRNO_CODES).
Local Abbreviation access := (EncryptedFS.access ERRNO_CODES).
Local Abbreviation logicalSizeFromPhysical :=
  (EncryptedFS.logicalSizeFromPhysical ERRNO_CODES).
Local Abbreviation logical_byte := (EncryptedFS.logical_byte gcm_decrypt).
Local Abbreviation well_formed_file := (EncryptedFS.well_formed_file gcm_decrypt).

(** The logical size of a file that is a header and [n] encrypted pages. *)
Lemma logicalSizeFromPhysical_pages (n : Z) :
  0 <= n →
  logicalSizeFromPhysical (FILE_HEADER_SIZE + n * ENCRYPTED_PAGE_SIZE)
  = inr (n * PAGE_SIZE).
Proof.
  intros Hn. unfold EncryptedFS.logicalSizeFromPhysical.
  rewrite bool_decide_eq_false_2 by (sizes; lia).
  replace (FILE_HEADER_SIZE + n * ENCRYPTED_PAGE_SIZE - FILE_HEADER_SIZE)
    with (n * ENCRYPTED_PAGE_SIZE) by lia.
  case_bool_decide as Hz.
  { assert (n = 0) as -> by (sizes; lia). done. }
  rewrite Z.rem_mul by (sizes; lia).
  rewrite bool_decide_eq_false_2 by (intros H; by apply H).
  rewrite Z.div_mul by (sizes; lia). done.
Qed.

(** [lstat] agrees with the host on directories and on files that are
    exempt from encryption; of an encrypted file it reports the logical
    size, 0 for a file shorter than the header, and fails with EIO when the
    file ends inside an encrypted page.  Of a path that names nothing it
    fails with an ENOENT of its own, whose message names the normalised path,
    unless the path leads through a regular file: then the host's ENOTDIR is
    thrown on as it is.  [access] returns 0 where [lstat] returns and -1
    where it throws, so it returns -1 for a file that ends inside a page, and
    whatever [mode] is. *)
Theorem lstat_reports (s : State) p mode :
  let q := normalizePath s p in
  let full := resolvePath s q in
  (∀ sz, dirs (host s) !! full = Some sz →
     lstat s p = inr {| size := sz |} ∧ access s p mode = 0) ∧
  (dirs (host s) !! full = None → files (host s) !! full = None →
     (below_file (host s) full = false →
        lstat s p = inl (createError "ENOENT" ("stat '" +:+ q +:+ "'") None)) ∧
     (below_file (host s) full = true →
        ∃ e, lstat s p = inl e ∧ lstatSync (host s) full = inl e ∧
             code e = Some "ENOTDIR"%string) ∧
     access s p mode = -1) ∧
  (∀ d, dirs (host s) !! full = None → files (host s) !! full = Some d →
     (shouldEncrypt q = false →
        lstat s p = inr {| size := blen d |} ∧ access s p mode = 0) ∧
     (shouldEncrypt q = true → blen d < FILE_HEADER_SIZE →
        lstat s p = inr {| size := 0 |} ∧ access s p mode = 0) ∧
     (shouldEncrypt q = true → FILE_HEADER_SIZE <= blen d →
      (blen d - FILE_HEADER_SIZE) mod ENCRYPTED_PAGE_SIZE = 0 →
        lstat s p
        = inr {| size := (blen d - FILE_HEADER_SIZE) / ENCRYPTED_PAGE_SIZE * PAGE_SIZE |} ∧
        access s p mode = 0) ∧
     (shouldEncrypt q = true → FILE_HEADER_SIZE <= blen d →
      (blen d - FILE_HEADER_SIZE) mod ENCRYPTED_PAGE_SIZE ≠ 0 →
        (∃ e, lstat s p = inl e ∧ code e = Some "EIO"%string ∧ errno e = Some EIO) ∧
        access s p mode = -1)).
Proof.
  cbv zeta. unfold EncryptedFS.access, EncryptedFS.lstat, lstatSync.
  split; [|split].
  - intros sz Hdir. rewrite Hdir. done.
  - intros Hdir Hfile. rewrite Hdir, Hfile. unfold not_found.
    destruct (below_file (host s) (resolvePath s (normalizePath s p))).
    + split; [done|]. split; [|done]. intros _. by eexists.
    + done.
  - intros d Hdir Hfile. rewrite Hdir, Hfile. cbn [st_isFile st_size andb].
    pose proof (logicalSizeFromPhysical_cases ERRNO_CODES (blen d)) as (Hlt & Hok & Hbad).
    split; [|split; [|split]].
    + intros ->. done.
    + intros -> Hshort. by rewrite (Hlt Hshort).
    + intros -> Hlen Hmod. by rewrite (Hok Hlen Hmod).
    + intros -> Hlen Hmod. destruct (Hbad Hlen Hmod) as (e & -> & Hcode & Herrno).
      rewrite Hcode. rewrite bool_decide_eq_false_2 by done.
      split; [by exists e|done].
Qed.

Hypothesis Hlengths : gcm_lengths gcm_encrypt.
Hypothesis Hrandom : random_lengths randomBytes.

(** The loop of [truncate] leaves the directories of the host alone. *)
Lemma truncate_extend_dirs key fileId fd (n : nat) :
  ∀ (h : Host) r pageNo res h' r',
    EncryptedFS.truncate_extend gcm_encrypt randomBytes h r key fileId fd n pageNo
    = (res, h', r') →
    dirs h' = dirs h.
Proof.
  induction n as [|n IH]; intros h r pageNo res h' r'; cbn [EncryptedFS.truncate_extend].
  - intros H. by simplify_eq.
  - destruct (Crypto.encryptPage _ _ _ _ _ _ _) as [[e|page] r1].
    { intros H. by simplify_eq. }
    destruct (writeSync h fd page 0 (blen page) _) as [[e|k] hc] eqn:Hw.
    + intros H. simplify_eq. unfold writeSync in Hw. repeat case_match; by simplify_eq.
    + intros Hrest. rewrite (IH _ _ _ _ _ _ Hrest).
      unfold writeSync in Hw. repeat case_match; by simplify_eq.
Qed.

(** What a [truncate] of an encrypted file that returned has done.  With
    more pages asked for than the file holds, the old file is a prefix of the
    new one and every page added is an encryption of the zero page under
    the file id of the header; otherwise the host cut the file. *)
Lemma truncate_result (s : State) p len (s' : State) :
  shouldEncrypt p = true → 0 <= len →
  dirs (host s) !! resolvePath s p = None →
  truncate s p len = (inr (), s') →
  ∃ d d',
    files (host s) !! resolvePath s p = Some d ∧
    files (host s') !! resolvePath s p = Some d' ∧
    dirs (host s') = dirs (host s) ∧
    cwd s' = cwd s ∧ dataDir s' = dataDir s ∧ encKey s' = encKey s ∧
    blen d' = FILE_HEADER_SIZE + ceil_div len PAGE_SIZE * ENCRYPTED_PAGE_SIZE ∧
    (currentPageCount_of (blen d) < ceil_div len PAGE_SIZE →
     FILE_HEADER_SIZE <= blen d ∧
     take (Z.to_nat (FILE_HEADER_SIZE
                     + currentPageCount_of (blen d) * ENCRYPTED_PAGE_SIZE)) d'
     = take (Z.to_nat (FILE_HEADER_SIZE
                       + currentPageCount_of (blen d) * ENCRYPTED_PAGE_SIZE)) d ∧
     ∀ i, currentPageCount_of (blen d) <= i < ceil_div len PAGE_SIZE →
          ∃ ri, encryptPage ri (Buffer_fill PAGE_SIZE x00) i (encKey s)
                  (subarray d SALT_SIZE FILE_HEADER_SIZE)
                = (inr (page_at d' i), ri + 1)) ∧
    (ceil_div len PAGE_SIZE <= currentPageCount_of (blen d) →
     d' = take (Z.to_nat (FILE_HEADER_SIZE + ceil_div len PAGE_SIZE * ENCRYPTED_PAGE_SIZE))
            (d ++ replicate (Z.to_nat (FILE_HEADER_SIZE
                                       + ceil_div len PAGE_SIZE * ENCRYPTED_PAGE_SIZE)
                             - length d)%nat x00)).
Proof using Hlengths Hrandom.
  intros Henc Hlen Hnodir Hrun.
  unfold EncryptedFS.truncate in Hrun. rewrite Henc in Hrun. cbn [negb] in Hrun.
  pose proof (ceil_div_nonneg len Hlen) as Hnew.
  set (fullPath := resolvePath s p) in *.
  set (new_pages := ceil_div len PAGE_SIZE) in *.
  assert (∀ d, files (host s) !! fullPath = Some d →
               currentPhysical_of (host s) fullPath = blen d) as Hphys.
  { intros d Hd. unfold currentPhysical_of, existsSync, statSync.
    rewrite Hd, Hnodir. done. }
  case_bool_decide as Hgrow.
  - (* more pages than the file has *)
    unfold truncate_grow in Hrun.
    unfold openSync in Hrun. cbn [parse_flags String.eqb Ascii.eqb Bool.eqb] in Hrun.
    simpl in Hrun.
    rewrite bool_decide_eq_false_2 in Hrun by (rewrite Hnodir; by intros [? ?]).
    destruct (files (host s) !! fullPath) as [d|] eqn:Hd;
      [|by destruct (below_file (host s) fullPath)].
    simpl in Hrun. rewrite (Hphys d eq_refl) in Hrun, Hgrow.
    set (fd := next_fd (host s)) in *.
    set (hfd := {| fd_path := fullPath; fd_read := true; fd_write := true;
                   fd_append := false |}) in *.
    set (h0 := {| files := <[fullPath := d]> (files (host s)); dirs := dirs (host s);
                  fds := <[fd := hfd]> (fds (host s)); next_fd := fd + 1 |}) in *.
    assert (fds h0 !! fd = Some hfd) as Hfd0 by (subst h0; simpl; by rewrite lookup_insert_eq).
    assert (files h0 !! fd_path hfd = Some d) as Hd0
      by (subst h0 hfd; simpl; by rewrite lookup_insert_eq).
    unfold truncate_try in Hrun.
    destruct (readFileId ERRNO_CODES h0 fd) as [e|fileId] eqn:Hid.
    { destruct (closeSync h0 fd) as [[e'|[]] h2]; done. }
    destruct (readFileId_ok ERRNO_CODES h0 fd hfd d fileId Hfd0 Hd0 Hid) as [Hhdr ->].
    destruct (currentPageCount_bounds (blen d) Hhdr) as [Hcur0 Hcur].
    destruct (EncryptedFS.truncate_extend _ _ h0 _ _ _ _ _ _) as [[res h1] r1] eqn:Hext.
    destruct res as [e|[]].
    { destruct (closeSync h1 fd) as [[e'|[]] h2]; done. }
    destruct (truncate_extend_spec gcm_encrypt randomBytes Hlengths Hrandom
                fd hfd (encKey s)
                (subarray d SALT_SIZE (SALT_SIZE + FILE_ID_SIZE))
                (Z.to_nat (new_pages - currentPageCount_of (blen d))) eq_refl eq_refl
                h0 (rng s) (currentPageCount_of (blen d)) d h1 r1)
      as (d' & Hd' & Hfds & Hsize & Hpre & Hpages); [done | done | done | lia | done |].
    unfold closeSync in Hrun. rewrite Hfds, Hfd0 in Hrun.
    injection Hrun as <-. simpl.
    pose proof (truncate_extend_dirs _ _ _ _ _ _ _ _ _ _ Hext) as Hdirs1.
    exists d, d'. split; [done|]. split; [done|]. split; [by rewrite Hdirs1|].
    split; [done|]. split; [done|]. split; [done|].
    assert (blen d' = FILE_HEADER_SIZE + new_pages * ENCRYPTED_PAGE_SIZE) as Hd'len.
    { rewrite Hsize. rewrite Z2Nat.id by lia. sizes; lia. }
    split; [done|]. split; [|intros; lia].
    intros _. split; [done|]. split; [done|].
    intros i Hi. apply Hpages. lia.
  - (* not more pages: the host cuts the file *)
    unfold truncateSync in Hrun.
    destruct (files (host s) !! fullPath) as [d|] eqn:Hd; [|done].
    rewrite (Hphys d eq_refl) in Hgrow.
    injection Hrun as <-. simpl. rewrite lookup_insert_eq.
    eexists d, _. split; [done|]. split; [done|]. split; [done|].
    split; [done|]. split; [done|]. split; [done|].
    assert (∀ n (b : bytes), blen (take n (b ++ replicate (n - length b) x00)) = Z.of_nat n)
      as Htake.
    { intros n b. unfold blen. rewrite length_take, length_app, length_replicate. lia. }
    rewrite Htake.
    split; [sizes; lia|]. split; [intros; lia|]. intros _.
    replace (Z.max 0 (FILE_HEADER_SIZE + new_pages * ENCRYPTED_PAGE_SIZE))
      with (FILE_HEADER_SIZE + new_pages * ENCRYPTED_PAGE_SIZE) by (sizes; lia).
    done.
Qed.

Lemma ceil_div_bounds (len : Z) :
  0 <= len →
  len <= ceil_div len PAGE_SIZE * PAGE_SIZE < len + PAGE_SIZE.
Proof.
  intros Hlen. unfold ceil_div.
  pose proof (Z.div_mod (- len) PAGE_SIZE ltac:(sizes; lia)).
  pose proof (Z.mod_pos_bound (- len) PAGE_SIZE ltac:(sizes; lia)).
  sizes. lia.
Qed.

(** The size that [lstat] reports after [truncate]: the length asked for
    rounded up to whole pages.  For a path in normal form ([lstat]
    normalises its argument, [truncate] does not) that names an encrypted
    file. *)
Theorem truncate_then_lstat_reports_whole_pages (s : State) p len (s' : State) :
  normalizePath s p = p → shouldEncrypt p = true → 0 <= len →
  dirs (host s) !! resolvePath s p = None →
  truncate s p len = (inr (), s') →
  lstat s' p = inr {| size := ceil_div len PAGE_SIZE * PAGE_SIZE |} ∧
  len <= ceil_div len PAGE_SIZE * PAGE_SIZE < len + PAGE_SIZE.
Proof using Hlengths Hrandom.
  intros Hnorm Henc Hlen Hnodir Hrun.
  destruct (truncate_result s p len s' Henc Hlen Hnodir Hrun)
    as (d & d' & _ & Hd' & Hdirs & Hcwd & Hdd & _ & Hsize & _).
  split; [|by apply ceil_div_bounds].
  assert (normalizePath s' p = p) as Hnorm'.
  { unfold normalizePath in *. by rewrite Hcwd. }
  assert (resolvePath s' p = resolvePath s p) as Hres.
  { unfold resolvePath. by rewrite Hdd. }
  unfold EncryptedFS.lstat, lstatSync. rewrite Hnorm', Hres, Hdirs, Hnodir, Hd'.
  cbn [st_isFile st_size andb]. rewrite Henc, Hsize.
  by rewrite logicalSizeFromPhysical_pages by (by apply ceil_div_nonneg).
Qed.

Hypothesis Hroundtrip : gcm_roundtrip gcm_encrypt gcm_decrypt.

Lemma currentPageCount_of_pages (k : Z) :
  0 <= k → currentPageCount_of (FILE_HEADER_SIZE + k * ENCRYPTED_PAGE_SIZE) = k.
Proof.
  intros Hk. unfold currentPageCount_of. case_bool_decide as Hgt.
  - replace (FILE_HEADER_SIZE + k * ENCRYPTED_PAGE_SIZE - FILE_HEADER_SIZE)
      with (k * ENCRYPTED_PAGE_SIZE) by lia.
    apply Z.div_mul. sizes; lia.
  - sizes; lia.
Qed.

(** [truncate] of a well-formed encrypted file, whose pages are bound to
    the file id of its header: the file stays well-formed, with
    [ceil(len / PAGE_SIZE)] pages and the same header; the logical bytes that
    were there read as before, and the bytes of the pages added are zero.
    The length is rounded up to whole pages, so bytes between [len] and the
    end of its page are kept. *)
Theorem truncate_keeps_bytes_and_adds_zeros
    (s : State) p len (s' : State) (d : bytes) k :
  shouldEncrypt p = true → 0 <= len →
  dirs (host s) !! resolvePath s p = None →
  blen (encKey s) = 32 →
  files (host s) !! resolvePath s p = Some d →
  well_formed_file (encKey s) (subarray d SALT_SIZE FILE_HEADER_SIZE) d k →
  truncate s p len = (inr (), s') →
  ∃ d',
    files (host s') !! resolvePath s p = Some d' ∧
    take (Z.to_nat FILE_HEADER_SIZE) d' = take (Z.to_nat FILE_HEADER_SIZE) d ∧
    well_formed_file (encKey s) (subarray d SALT_SIZE FILE_HEADER_SIZE) d'
      (ceil_div len PAGE_SIZE) ∧
    ∀ q, 0 <= q < ceil_div len PAGE_SIZE * PAGE_SIZE →
         logical_byte (encKey s) (subarray d SALT_SIZE FILE_HEADER_SIZE) d' q
         = if bool_decide (q < k * PAGE_SIZE)
           then logical_byte (encKey s) (subarray d SALT_SIZE FILE_HEADER_SIZE) d q
           else Some x00.
Proof using Hlengths Hrandom Hroundtrip.
  intros Henc Hlen Hnodir Hkey Hd (Hk & Hsize & Hpages) Hrun.
  destruct (truncate_result s p len s' Henc Hlen Hnodir Hrun)
    as (d0 & d' & Hd0 & Hd' & _ & _ & _ & _ & Hsize' & Hgrow & Hshrink).
  rewrite Hd in Hd0. injection Hd0 as <-.
  rewrite Hsize, (currentPageCount_of_pages k Hk) in Hgrow, Hshrink.
  pose proof (ceil_div_nonneg len Hlen) as Hnew.
  set (new_pages := ceil_div len PAGE_SIZE) in *.
  set (fid := subarray d SALT_SIZE FILE_HEADER_SIZE) in *.
  (* the pages that are kept, and the pages that are added *)
  assert (take (Z.to_nat (FILE_HEADER_SIZE + Z.min k new_pages * ENCRYPTED_PAGE_SIZE)) d'
          = take (Z.to_nat (FILE_HEADER_SIZE + Z.min k new_pages * ENCRYPTED_PAGE_SIZE)) d)
    as Hprefix.
  { destruct (decide (k < new_pages)) as [Hlt|Hge].
    - destruct (Hgrow Hlt) as (_ & Hpre & _).
      replace (Z.min k new_pages) with k by lia. done.
    - rewrite (Hshrink ltac:(lia)).
      replace (Z.min k new_pages) with new_pages by lia.
      rewrite take_take, Nat.min_id.
      rewrite take_app_le by (unfold blen in Hsize; sizes; lia). done. }
  assert (∀ i, 0 <= i < Z.min k new_pages → page_at d' i = page_at d i) as Hkept.
  { intros i Hi. unfold page_at.
    rewrite <- (subarray_take d' _ _
                  (FILE_HEADER_SIZE + Z.min k new_pages * ENCRYPTED_PAGE_SIZE))
      by (sizes; lia).
    rewrite Hprefix. apply subarray_take; sizes; lia. }
  assert (∀ i, k <= i < new_pages →
               decryptPage (page_at d' i) i (encKey s) fid
               = inr (Buffer_fill PAGE_SIZE x00)) as Hadded.
  { intros i Hi. destruct (Hgrow ltac:(lia)) as (_ & _ & Hzero).
    destruct (Hzero i Hi) as (ri & Henc').
    by apply (encrypted_zero_page_decrypts gcm_encrypt gcm_decrypt randomBytes
                Hlengths Hrandom Hroundtrip ri). }
  exists d'. split; [done|]. split.
  { apply (f_equal (take (Z.to_nat FILE_HEADER_SIZE))) in Hprefix.
    rewrite !take_take in Hprefix.
    rewrite Nat.min_l in Hprefix by (sizes; lia). done. }
  split.
  { split; [done|]. split; [done|]. intros i Hi.
    destruct (decide (i < k)) as [Hold|Hnewp].
    - destruct (Hpages i ltac:(lia)) as (page & Hdec & Hplen).
      exists page. by rewrite Hkept by lia.
    - exists (Buffer_fill PAGE_SIZE x00). split; [apply Hadded; lia|].
      unfold Buffer_fill. rewrite blen_replicate. sizes; lia. }
  intros q Hq.
  pose proof (Z.div_mod q PAGE_SIZE ltac:(sizes; lia)) as Hdm.
  pose proof (Z.mod_pos_bound q PAGE_SIZE ltac:(sizes; lia)) as Hmb.
  assert (0 <= q / PAGE_SIZE < new_pages) as Hpage.
  { split; [apply Z.div_pos; sizes; lia|]. apply Z.div_lt_upper_bound; sizes; lia. }
  case_bool_decide as Hold.
  - apply (logical_byte_page gcm_decrypt). apply Hkept. sizes; lia.
  - unfold EncryptedFS.logical_byte. rewrite Hadded by (sizes; lia).
    unfold Buffer_fill. apply lookup_replicate_2. sizes; lia.
Qed.

End Size_properties.

(** ** encrypted-fs.ts: the constructor and its token *)

Section Token_properties.

Context (gcm_encrypt : bytes → bytes → bytes → bytes → JsError + (bytes * bytes))
        (gcm_decrypt : bytes → bytes → bytes → bytes → bytes → JsError + bytes)
        (randomBytes : Z → Z → bytes)
        (sha256 : bytes → bytes).

Import Crypto HostFs EncryptedFS.

Hypothesis Hlengths : gcm_lengths gcm_encrypt.
Hypothesis Hroundtrip : gcm_roundtrip gcm_encrypt gcm_decrypt.
Hypothesis Hrandom : random_lengths randomBytes.

Local Abbreviation constructor :=
  (EncryptedFS.constructor gcm_encrypt gcm_decrypt randomBytes sha256).
Local Abbreviation verifyOrCreateToken :=
  (EncryptedFS.verifyOrCreateToken gcm_encrypt gcm_decrypt randomBytes sha256).
Local Abbreviation VERIFICATION_FILE_ID := (Crypto.VERIFICATION_FILE_ID sha256).

(** The page that the constructor encrypts as the token. *)
Lemma magic_page :
  ∃ magic,
    Buffer_copy VERIFICATION_MAGIC (Buffer_alloc PAGE_SIZE) 0 0 (blen VERIFICATION_MAGIC)
    = inr magic ∧
    blen magic = PAGE_SIZE ∧
    subarray magic 0 (blen VERIFICATION_MAGIC) = VERIFICATION_MAGIC.
Proof. eexists. split; [vm_compute; reflexivity|]. split; vm_compute; reflexivity. Qed.

(** A data directory that the constructor has accepted is accepted again:
    when [new EncryptedFS(dir, keys, salt)] returns an instance for a 32-byte
    key, the directory holds a token of one encrypted page, no file but the
    token was written, and a second constructor over the host as the first
    left it, with the same key and any salt, returns a fresh instance and
    leaves the host as it is.  The salt plays no part in the check. *)
Theorem constructor_accepts_its_own_token (h : Host) r dir key slt (s : State) :
  blen key = 32 →
  constructor h r dir key slt = inr s →
  (∃ token,
     files (host s) !! Path.join dir ".encryption-verify" = Some token ∧
     blen token = ENCRYPTED_PAGE_SIZE) ∧
  (∀ p, p ≠ Path.join dir ".encryption-verify" →
        files (host s) !! p = files h !! p) ∧
  ∀ r' slt',
    constructor (host s) r' dir key slt'
    = inr {| dataDir := dir; encKey := key; salt := slt'; openFiles := ∅;
             cwd := "/"; nextFd := 100; destroyed := false;
             host := host s; rng := r' |}.
Proof using Hlengths Hroundtrip Hrandom.
  intros Hkey Hnew.
  set (tokenPath := Path.join dir ".encryption-verify") in *.
  (* what the first constructor leaves: the directory, and a good token *)
  assert (existsSync (host s) dir = true ∧
          (∀ p, p ≠ tokenPath → files (host s) !! p = files h !! p) ∧
          ∃ token, files (host s) !! tokenPath = Some token ∧
                   blen token = ENCRYPTED_PAGE_SIZE ∧
                   ∃ pt, Crypto.decryptPage gcm_decrypt token 0 key VERIFICATION_FILE_ID
                         = inr pt ∧
                         subarray pt 0 (blen VERIFICATION_MAGIC) = VERIFICATION_MAGIC)
    as (Hdir & Hothers & token & Htoken & Hlen & pt & Hdec & Hpt).
  { unfold EncryptedFS.constructor in Hnew.
    set (h1 := if negb (existsSync h dir) then mkdirSync h dir else h) in *.
    assert (files h1 = files h) as Hfiles by (subst h1; by destruct (negb _)).
    assert (existsSync h1 dir = true) as Hdir1.
    { subst h1. destruct (existsSync h dir) eqn:Hex; simpl; [done|].
      unfold existsSync, mkdirSync. simpl. rewrite lookup_insert_eq.
      rewrite (bool_decide_eq_true_2 (is_Some (Some 4096))) by done.
      apply orb_true_r. }
    destruct (files h1 !! tokenPath) as [data|] eqn:Hdata.
    - (* the token was there *)
      rewrite (verifyOrCreateToken_present gcm_encrypt gcm_decrypt randomBytes sha256
                 h1 r key dir data Hdata) in Hnew.
      case_bool_decide as Hl; [discriminate|].
      destruct (Crypto.decryptPage _ _ _ _ _) as [e|pt] eqn:Hd; [discriminate|].
      case_bool_decide as Hm; [discriminate|].
      injection Hnew as <-. cbn [host].
      split; [done|]. split; [by rewrite Hfiles|].
      exists data. split; [done|]. split; [lia|].
      exists pt. split; [done|].
      by destruct (decide (subarray pt 0 (blen VERIFICATION_MAGIC) = VERIFICATION_MAGIC)).
    - (* the token is written *)
      unfold EncryptedFS.verifyOrCreateToken in Hnew.
      fold tokenPath in Hnew.
      destruct (existsSync h1 tokenPath) eqn:Hex.
      { (* a directory in the token's place *)
        cbn [negb] in Hnew. unfold readFileSync in Hnew. rewrite Hdata in Hnew.
        discriminate. }
      cbn [negb] in Hnew.
      assert (dirs h1 !! tokenPath = None) as Hnodir.
      { unfold existsSync in Hex. apply orb_false_iff in Hex as [_ Hex].
        apply bool_decide_eq_false in Hex.
        destruct (dirs h1 !! tokenPath); [|done]. by destruct Hex. }
      destruct magic_page as (magic & Hcopy & Hmlen & Hmagic).
      rewrite Hcopy in Hnew.
      destruct (encryptPage_decryptPage gcm_encrypt gcm_decrypt randomBytes
                  Hlengths Hroundtrip Hrandom r magic 0 key VERIFICATION_FILE_ID)
        as (token & Henc & Hlen & Hdec); [exact Hkey | lia | lia |].
      rewrite padded_page_full in Hdec by exact Hmlen.
      rewrite Henc in Hnew. unfold writeFileSync in Hnew.
      rewrite Hnodir in Hnew.
      rewrite (bool_decide_eq_false_2 (is_Some None)) in Hnew by (by intros [? ?]).
      destruct (bool_decide (files h1 !! tokenPath = None) && below_file h1 tokenPath);
        [discriminate|].
      injection Hnew as <-. cbn [host with_files files dirs].
      split.
      { unfold existsSync in *. cbn [files dirs with_files].
        apply orb_true_iff in Hdir1 as [Hf|Hd].
        - apply orb_true_iff. left. apply bool_decide_eq_true in Hf.
          apply bool_decide_eq_true. destruct (decide (tokenPath = dir)) as [->|Hne].
          + rewrite lookup_insert_eq. by eexists.
          + by rewrite lookup_insert_ne.
        - apply orb_true_iff. by right. }
      split.
      { intros p Hp. rewrite lookup_insert_ne by done. by rewrite Hfiles. }
      exists token. split; [apply lookup_insert_eq|]. split; [exact Hlen|].
      exists magic. split; [exact Hdec | exact Hmagic]. }
  split; [by exists token|]. split; [exact Hothers|].
  intros r' slt'. unfold EncryptedFS.constructor.
  rewrite Hdir. cbn [negb].
  rewrite (verifyOrCreateToken_present gcm_encrypt gcm_decrypt randomBytes sha256
             (host s) r' key dir token Htoken).
  rewrite bool_decide_eq_false_2 by (intros Hne; by apply Hne).
  rewrite Hdec. rewrite bool_decide_eq_false_2 by (intros Hne; by apply Hne).
  done.
Qed.

End Token_properties.

(** ** Further examples on the sample instance *)

(** Page 7 of the file [fileId1]. *)
Lemma aad_determines_file_and_page_witness :
  blen Sample.fileId1 = blen Sample.fileId1 ∧
  0 <= 7 < 2 ^ 32 ∧
  Crypto.aad_of Sample.fileId1 7 = Crypto.aad_of Sample.fileId1 7 ∧
  Sample.fileId1 = Sample.fileId1 ∧ 7 = 7.
Proof.
  split; [reflexivity|]. split; [lia|]. split; [reflexivity|].
  apply (aad_determines_file_and_page Sample.fileId1 Sample.fileId1 7 7);
    [reflexivity | lia | lia | reflexivity].
Defined.

(** A plaintext of PAGE_SIZE + 1 bytes, encrypted for page 3 under [key1]. *)
Lemma encryptPage_cuts_long_plaintext_witness :
  let pt := Buffer_fill (Crypto.PAGE_SIZE + 1) xff in
  blen Sample.key1 = 32 ∧ 0 <= 3 <= 4294967295 ∧ Crypto.PAGE_SIZE < blen pt ∧
  ∃ page,
    Sample.encryptPage 0 pt 3 Sample.key1 Sample.fileId1 = (inr page, 0 + 1) ∧
    blen page = Crypto.ENCRYPTED_PAGE_SIZE ∧
    Sample.decryptPage page 3 Sample.key1 Sample.fileId1
    = inr (take (Z.to_nat Crypto.PAGE_SIZE) pt) ∧
    Sample.encryptPage 0 (take (Z.to_nat Crypto.PAGE_SIZE) pt) 3 Sample.key1 Sample.fileId1
    = (inr page, 0 + 1).
Proof.
  intros pt.
  assert (blen Sample.key1 = 32) as Hkey by reflexivity.
  assert (Crypto.PAGE_SIZE < blen pt) as Hlong by (vm_compute; reflexivity).
  split; [exact Hkey|]. split; [lia|]. split; [exact Hlong|].
  exact (encryptPage_cuts_long_plaintext Sample.gcm_encrypt Sample.gcm_decrypt
           Sample.randomBytes sample_gcm_lengths sample_gcm_roundtrip
           sample_random_lengths 0 pt 3 Sample.key1 Sample.fileId1
           Hkey ltac:(lia) Hlong).
Defined.

(** [deriveKeys] with a stand-in for PBKDF2, on the 32 bytes of [fileId1]
    and on a drawn salt. *)
Lemma deriveKeys_accepts_randomSalt_witness :
  let kdf := λ (pw : string) (salt : bytes) (iterations keylen : Z) (digest : string),
               Sample.sha256 (Crypto.bytes_of_string pw ++ salt) in
  random_lengths Sample.randomBytes ∧
  Crypto.deriveKeys kdf "secret" Sample.fileId1 = inl (new_Error "Invalid salt length") ∧
  ∃ key,
    Crypto.deriveKeys kdf "secret" (Crypto.randomSalt Sample.randomBytes 0).1 = inr key.
Proof.
  intros kdf. split; [exact sample_random_lengths|].
  destruct (deriveKeys_accepts_randomSalt Sample.randomBytes kdf sample_random_lengths
              "secret" 0 Sample.fileId1) as (Hbad & _ & Hgood).
  split; [|exact Hgood]. apply Hbad. vm_compute. discriminate.
Defined.

(** The second [open] of an instance: descriptor 101, after 100 was
    opened and closed. *)
Lemma open_returns_fresh_descriptor_witness :
  let cs := [EncryptedFS.CallOpen "/f" (inr "w"%string); EncryptedFS.CallClose 100] in
  let s := EncryptedFS.run_calls Sample.gcm_encrypt Sample.gcm_decrypt
             Sample.randomBytes Sample.ERRNO_CODES Sample.fs0 cs in
  let s' := (Sample.open s "/g" (inr "w"%string)).2 in
  Sample.constructor Sample.host0 0 "/data" Sample.key1 Sample.salt1 = inr Sample.fs0 ∧
  Sample.open s "/g" (inr "w"%string) = (inr 101, s') ∧
  100 <= 101 ∧ 101 = EncryptedFS.nextFd s ∧
  EncryptedFS.openFiles s !! 101 = None ∧
  is_Some (EncryptedFS.openFiles s' !! 101) ∧
  ∀ fd', fd' ≠ 101 → EncryptedFS.openFiles s' !! fd' = EncryptedFS.openFiles s !! fd'.
Proof.
  intros cs s s'.
  assert (Sample.constructor Sample.host0 0 "/data" Sample.key1 Sample.salt1
          = inr Sample.fs0) as Hnew by (vm_compute; reflexivity).
  assert (Sample.open s "/g" (inr "w"%string) = (inr 101, s')) as Hopen
    by (vm_compute; reflexivity).
  split; [exact Hnew|]. split; [exact Hopen|].
  exact (open_returns_fresh_descriptor Sample.gcm_encrypt Sample.gcm_decrypt
           Sample.randomBytes Sample.sha256 Sample.ERRNO_CODES Sample.host0 0 "/data"
           Sample.key1 Sample.salt1 Sample.fs0 cs "/g" (inr "w"%string) 101 s'
           Hnew Hopen).
Defined.

(** [fs0] through an [open], a [destroy] and a [close]. *)
Lemma keys_are_kept_until_destroy_zeroes_them_witness :
  let cs := [EncryptedFS.CallOpen "/f" (inr "w"%string); EncryptedFS.CallDestroy;
             EncryptedFS.CallClose 100] in
  let s' := EncryptedFS.run_calls Sample.gcm_encrypt Sample.gcm_decrypt
              Sample.randomBytes Sample.ERRNO_CODES Sample.fs0 cs in
  EncryptedFS.destroyed Sample.fs0 = false ∧
  ((EncryptedFS.destroyed s' = false ∧
    EncryptedFS.encKey s' = EncryptedFS.encKey Sample.fs0 ∧
    EncryptedFS.salt s' = EncryptedFS.salt Sample.fs0) ∨
   (EncryptedFS.destroyed s' = true ∧
    EncryptedFS.encKey s' = replicate (length (EncryptedFS.encKey Sample.fs0)) x00 ∧
    EncryptedFS.salt s' = replicate (length (EncryptedFS.salt Sample.fs0)) x00)).
Proof.
  intros cs s'.
  assert (EncryptedFS.destroyed Sample.fs0 = false) as Hlive by (vm_compute; reflexivity).
  split; [exact Hlive|].
  exact (keys_are_kept_until_destroy_zeroes_them Sample.gcm_encrypt Sample.gcm_decrypt
           Sample.randomBytes Sample.ERRNO_CODES Sample.fs0 cs Hlive).
Defined.

(** Descriptor 100 of [fs2], closed in [fs3]. *)
Lemma closed_descriptor_is_EBADF_witness :
  Sample.close Sample.fs2 100 = (inr (), Sample.fs3) ∧
  EncryptedFS.openFiles Sample.fs3 = delete 100 (EncryptedFS.openFiles Sample.fs2) ∧
  HostFs.files (EncryptedFS.host Sample.fs3) = HostFs.files (EncryptedFS.host Sample.fs2) ∧
  (∀ buffer offset length pos,
     Sample.read Sample.fs3 100 buffer offset length pos
     = (inl (EncryptedFS.createError Sample.ERRNO_CODES "EBADF"
               ("read '" +:+ show_Z 100 +:+ "'") None), buffer, Sample.fs3)) ∧
  (∀ buffer offset length pos,
     Sample.write Sample.fs3 100 buffer offset length pos
     = (inl (EncryptedFS.createError Sample.ERRNO_CODES "EBADF"
               ("write '" +:+ show_Z 100 +:+ "'") None), Sample.fs3)) ∧
  Sample.fstat Sample.fs3 100
  = inl (EncryptedFS.createError Sample.ERRNO_CODES "EBADF"
           ("fstat '" +:+ show_Z 100 +:+ "'") None) ∧
  Sample.fsync Sample.fs3 100
  = inl (EncryptedFS.createError Sample.ERRNO_CODES "EBADF"
           ("fsync '" +:+ show_Z 100 +:+ "'") None) ∧
  Sample.close Sample.fs3 100
  = (inl (EncryptedFS.createError Sample.ERRNO_CODES "EBADF"
            ("close '" +:+ show_Z 100 +:+ "'") None), Sample.fs3).
Proof.
  assert (Sample.close Sample.fs2 100 = (inr (), Sample.fs3)) as Hclose
    by (vm_compute; reflexivity).
  split; [exact Hclose|].
  exact (closed_descriptor_is_EBADF Sample.gcm_encrypt Sample.gcm_decrypt
           Sample.randomBytes Sample.ERRNO_CODES Sample.fs2 100 Sample.fs3 Hclose).
Defined.

(** [open('/missing', 'r')] on [fs0]: ENOENT, errno 44. *)
Lemma open_failure_is_a_filesystem_error_witness :
  let e := MkErr "ENOENT: open '/missing'" (Some "ENOENT"%string) (Some 44)
             (Some (MkErr "ENOENT: open" (Some "ENOENT"%string) None None)) in
  let s' := (Sample.open Sample.fs0 "/missing" (inr "r"%string)).2 in
  Sample.open Sample.fs0 "/missing" (inr "r"%string) = (inl e, s') ∧
  ∃ c e0,
    code e = Some c ∧ cause e = Some e0 ∧
    (c = "EIO"%string ∨ (is_Some (Sample.ERRNO_CODES c) ∧ code e0 = Some c)) ∧
    is_Some (errno e) ∧
    message e = c +:+ ": open '" +:+ EncryptedFS.normalizePath Sample.fs0 "/missing" +:+ "'" ∧
    EncryptedFS.openFiles s' = EncryptedFS.openFiles Sample.fs0 ∧
    EncryptedFS.nextFd s' = EncryptedFS.nextFd Sample.fs0.
Proof.
  intros e s'.
  assert (Sample.open Sample.fs0 "/missing" (inr "r"%string) = (inl e, s')) as Hopen
    by (vm_compute; reflexivity).
  split; [exact Hopen|].
  exact (open_failure_is_a_filesystem_error Sample.randomBytes Sample.ERRNO_CODES
           Sample.fs0 "/missing" (inr "r"%string) e s' Hopen).
Defined.

(** [open('/', 'r')] on [fs0]: the data directory itself. *)
Lemma directory_handle_witness :
  let s := Sample.fs0 in
  let fd := EncryptedFS.nextFd s in
  HostFs.dirs (EncryptedFS.host s)
    !! EncryptedFS.resolvePath s (EncryptedFS.normalizePath s "/") = Some 4096 ∧
  EncryptedFS.destroyed s = false ∧
  ∃ s',
    Sample.open s "/" (inr "r"%string) = (inr fd, s') ∧
    EncryptedFS.host s' = EncryptedFS.host s ∧ EncryptedFS.rng s' = EncryptedFS.rng s ∧
    EncryptedFS.openFiles s' !! fd
    = Some {| EncryptedFS.realFd := -1;
              EncryptedFS.path := EncryptedFS.resolvePath s (EncryptedFS.normalizePath s "/");
              EncryptedFS.flags := EncryptedFS.emFlagsToNode' (inr "r"%string);
              EncryptedFS.position := 0; EncryptedFS.encrypted := false;
              EncryptedFS.fileId := [] |} ∧
    (∀ buffer offset length pos, length ≠ 0 →
       Sample.read s' fd buffer offset length pos
       = (inl (EncryptedFS.createError Sample.ERRNO_CODES "EISDIR"
                 "read from directory" None), buffer, s') ∧
       Sample.write s' fd buffer offset length pos
       = (inl (EncryptedFS.createError Sample.ERRNO_CODES "EISDIR"
                 "write to directory" None), s')) ∧
    (∀ buffer offset pos,
       Sample.read s' fd buffer offset 0 pos = (inr 0, buffer, s') ∧
       Sample.write s' fd buffer offset 0 pos = (inr 0, s')) ∧
    Sample.fstat s' fd = inr {| EncryptedFS.size := 4096 |} ∧
    (Sample.close s' fd).1 = inr () ∧
    EncryptedFS.host (Sample.close s' fd).2 = EncryptedFS.host s ∧
    EncryptedFS.openFiles (Sample.close s' fd).2 = delete fd (EncryptedFS.openFiles s).
Proof.
  intros s fd.
  assert (HostFs.dirs (EncryptedFS.host s)
            !! EncryptedFS.resolvePath s (EncryptedFS.normalizePath s "/") = Some 4096)
    as Hdir by (vm_compute; reflexivity).
  assert (EncryptedFS.destroyed s = false) as Hlive by (vm_compute; reflexivity).
  split; [exact Hdir|]. split; [exact Hlive|].
  exact (directory_handle Sample.gcm_encrypt Sample.gcm_decrypt Sample.randomBytes
           Sample.ERRNO_CODES s "/" (inr "r"%string) 4096 Hdir Hlive).
Defined.

(** A write of ten bytes through descriptor 100 of [fs1], the host's
    descriptor 3. *)
Lemma write_touches_one_file_witness :
  let s := Sample.fs1 in
  let file := Sample.handle s 100 in
  let hfd := Sample.host_fd s 3 in
  let s' := (Sample.write s 100 Sample.patch 0 10 (Some 0)).2 in
  EncryptedFS.openFiles s !! 100 = Some file ∧
  HostFs.fds (EncryptedFS.host s) !! EncryptedFS.realFd file = Some hfd ∧
  (∀ p, p ≠ HostFs.fd_path hfd →
        HostFs.files (EncryptedFS.host s') !! p = HostFs.files (EncryptedFS.host s) !! p) ∧
  HostFs.dirs (EncryptedFS.host s') = HostFs.dirs (EncryptedFS.host s) ∧
  HostFs.fds (EncryptedFS.host s') = HostFs.fds (EncryptedFS.host s) ∧
  (∀ fd', fd' ≠ 100 →
          EncryptedFS.openFiles s' !! fd' = EncryptedFS.openFiles s !! fd') ∧
  EncryptedFS.host (Sample.read s 100 Sample.patch 0 10 (Some 0)).2 = EncryptedFS.host s.
Proof.
  intros s file hfd s'.
  assert (EncryptedFS.openFiles s !! 100 = Some file) as Hfile
    by (vm_compute; reflexivity).
  assert (HostFs.fds (EncryptedFS.host s) !! EncryptedFS.realFd file = Some hfd) as Hfd
    by (vm_compute; reflexivity).
  split; [exact Hfile|]. split; [exact Hfd|].
  exact (write_touches_one_file Sample.gcm_encrypt Sample.gcm_decrypt Sample.randomBytes
           Sample.ERRNO_CODES s 100 file hfd Sample.patch 0 10 (Some 0) Hfile Hfd).
Defined.

(** [open('/f', 'w')] on [fs0], which gives [fs1]. *)
Lemma open_binds_handle_to_header_witness :
  let s := Sample.fs0 in
  let full := EncryptedFS.resolvePath s (EncryptedFS.normalizePath s "/f") in
  blen (EncryptedFS.salt s) = Crypto.SALT_SIZE ∧
  EncryptedFS.shouldEncrypt (EncryptedFS.normalizePath s "/f") = true ∧
  HostFs.dirs (EncryptedFS.host s) !! full = None ∧
  Sample.open s "/f" (inr "w"%string) = (inr 100, Sample.fs1) ∧
  ∃ file hfd d,
    EncryptedFS.openFiles Sample.fs1 !! 100 = Some file ∧
    EncryptedFS.encrypted file = true ∧
    EncryptedFS.path file = full ∧
    HostFs.fds (EncryptedFS.host Sample.fs1) !! EncryptedFS.realFd file = Some hfd ∧
    HostFs.fd_path hfd = EncryptedFS.path file ∧
    HostFs.files (EncryptedFS.host Sample.fs1) !! EncryptedFS.path file = Some d ∧
    Crypto.FILE_HEADER_SIZE <= blen d ∧
    blen (EncryptedFS.fileId file) = Crypto.FILE_ID_SIZE ∧
    subarray d Crypto.SALT_SIZE Crypto.FILE_HEADER_SIZE = EncryptedFS.fileId file ∧
    (includes (EncryptedFS.emFlagsToNode' (inr "w"%string)) "w" = true ∨
     HostFs.files (EncryptedFS.host s) !! full = None →
     d = EncryptedFS.salt s ++ EncryptedFS.fileId file).
Proof.
  intros s full.
  assert (blen (EncryptedFS.salt s) = Crypto.SALT_SIZE) as Hsalt by reflexivity.
  assert (EncryptedFS.shouldEncrypt (EncryptedFS.normalizePath s "/f") = true) as Henc
    by (vm_compute; reflexivity).
  assert (HostFs.dirs (EncryptedFS.host s) !! full = None) as Hnodir
    by (vm_compute; reflexivity).
  assert (Sample.open s "/f" (inr "w"%string) = (inr 100, Sample.fs1)) as Hopen
    by (vm_compute; reflexivity).
  split; [exact Hsalt|]. split; [exact Henc|]. split; [exact Hnodir|].
  split; [exact Hopen|].
  exact (open_binds_handle_to_header Sample.randomBytes Sample.ERRNO_CODES
           sample_random_lengths s "/f" (inr "w"%string) 100 Sample.fs1
           Hsalt Henc Hnodir Hopen).
Defined.

(** [PG_VERSION], which [shouldEncrypt] exempts, opened with ['w'] on
    [fs0] and written. *)
Lemma exempt_file_is_stored_in_clear_witness :
  let s := Sample.fs0 in
  let full := EncryptedFS.resolvePath s (EncryptedFS.normalizePath s "/PG_VERSION") in
  let s1 := (Sample.open s "/PG_VERSION" (inr "w"%string)).2 in
  EncryptedFS.destroyed s = false ∧
  EncryptedFS.shouldEncrypt (EncryptedFS.normalizePath s "/PG_VERSION") = false ∧
  HostFs.dirs (EncryptedFS.host s) !! full = None ∧
  0 <= HostFs.next_fd (EncryptedFS.host s) ∧
  includes (EncryptedFS.emFlagsToNode' (inr "w"%string)) "w" = true ∧
  Sample.open s "/PG_VERSION" (inr "w"%string) = (inr 100, s1) ∧
  HostFs.files (EncryptedFS.host s1) !! full = Some [] ∧
  ∃ file s2,
    EncryptedFS.openFiles s1 !! 100 = Some file ∧
    EncryptedFS.encrypted file = false ∧ EncryptedFS.fileId file = [] ∧
    Sample.write s1 100 Sample.patch 0 (blen Sample.patch) (Some 0)
    = (inr (blen Sample.patch), s2) ∧
    HostFs.files (EncryptedFS.host s2) !! full = Some Sample.patch.
Proof.
  intros s full s1.
  assert (EncryptedFS.destroyed s = false) as Hlive by (vm_compute; reflexivity).
  assert (EncryptedFS.shouldEncrypt (EncryptedFS.normalizePath s "/PG_VERSION") = false)
    as Hex by (vm_compute; reflexivity).
  assert (HostFs.dirs (EncryptedFS.host s) !! full = None) as Hnodir
    by (vm_compute; reflexivity).
  assert (0 <= HostFs.next_fd (EncryptedFS.host s)) as Hnext by (by vm_compute).
  assert (includes (EncryptedFS.emFlagsToNode' (inr "w"%string)) "w" = true) as Hw
    by (vm_compute; reflexivity).
  assert (Sample.open s "/PG_VERSION" (inr "w"%string) = (inr 100, s1)) as Hopen
    by (vm_compute; reflexivity).
  split; [exact Hlive|]. split; [exact Hex|]. split; [exact Hnodir|].
  split; [exact Hnext|]. split; [exact Hw|]. split; [exact Hopen|].
  exact (exempt_file_is_stored_in_clear Sample.gcm_encrypt Sample.gcm_decrypt
           Sample.randomBytes Sample.ERRNO_CODES sample_random_lengths
           s "/PG_VERSION" (inr "w"%string) 100 s1 Sample.patch
           Hlive Hex Hnodir Hnext (or_introl Hw) Hopen).
Defined.

(** [writeFile('/g', patch)] on [fs0]. *)
Lemma writeFile_keeps_no_handle_witness :
  let s := Sample.fs0 in
  let s' := (Sample.writeFile s "/g" Sample.patch None).2 in
  EncryptedFS.openFiles s !! EncryptedFS.nextFd s = None ∧
  HostFs.fds (EncryptedFS.host s) !! HostFs.next_fd (EncryptedFS.host s) = None ∧
  0 <= HostFs.next_fd (EncryptedFS.host s) ∧
  blen (EncryptedFS.salt s) = Crypto.SALT_SIZE ∧
  EncryptedFS.openFiles s' = EncryptedFS.openFiles s ∧
  ∀ fd s1,
    Sample.open s "/g" (inr "w"%string) = (inr fd, s1) →
    HostFs.fds (EncryptedFS.host s') = HostFs.fds (EncryptedFS.host s).
Proof.
  intros s s'.
  assert (EncryptedFS.openFiles s !! EncryptedFS.nextFd s = None) as Hfree
    by (vm_compute; reflexivity).
  assert (HostFs.fds (EncryptedFS.host s) !! HostFs.next_fd (EncryptedFS.host s) = None)
    as Hhost by (vm_compute; reflexivity).
  assert (0 <= HostFs.next_fd (EncryptedFS.host s)) as Hnext by (by vm_compute).
  assert (blen (EncryptedFS.salt s) = Crypto.SALT_SIZE) as Hsalt by reflexivity.
  split; [exact Hfree|]. split; [exact Hhost|]. split; [exact Hnext|].
  split; [exact Hsalt|].
  exact (writeFile_keeps_no_handle Sample.gcm_encrypt Sample.gcm_decrypt
           Sample.randomBytes Sample.ERRNO_CODES sample_random_lengths
           s "/g" Sample.patch None Hfree Hhost Hnext (λ _, Hsalt)).
Defined.

(** The file of [fs4] is a header and one page, the page of [0xff] that
    [fs2] wrote. *)
Lemma sample_fs4_well_formed :
  EncryptedFS.well_formed_file Sample.gcm_decrypt (EncryptedFS.encKey Sample.fs4)
    (EncryptedFS.fileId (Sample.handle Sample.fs4 101))
    (Sample.host_get Sample.fs4 "/data/f") 1.
Proof.
  split; [lia|]. split; [vm_compute; reflexivity|].
  intros i Hi. assert (i = 0) as -> by lia.
  exists (Buffer_fill Crypto.PAGE_SIZE xff). split; vm_compute; reflexivity.
Qed.

(** A read of ten bytes at 8190 through descriptor 101 of [fs4], whose
    file has one page: two bytes are returned. *)
Lemma read_returns_logical_bytes_witness :
  let s := Sample.fs4 in
  let file := Sample.handle s 101 in
  let hfd := Sample.host_fd s 4 in
  let d := Sample.host_get s "/data/f" in
  let buffer := Buffer_alloc 10 in
  EncryptedFS.openFiles s !! 101 = Some file ∧
  EncryptedFS.destroyed s = false ∧
  EncryptedFS.encrypted file = true ∧ EncryptedFS.realFd file ≠ -1 ∧
  HostFs.fds (EncryptedFS.host s) !! EncryptedFS.realFd file = Some hfd ∧
  HostFs.fd_read hfd = true ∧
  HostFs.files (EncryptedFS.host s) !! HostFs.fd_path hfd = Some d ∧
  EncryptedFS.well_formed_file Sample.gcm_decrypt (EncryptedFS.encKey s)
    (EncryptedFS.fileId file) d 1 ∧
  EncryptedFS.logicalPos_of file (Some 8190) = 8190 ∧
  ∃ buffer',
    Sample.read s 101 buffer 0 10 (Some 8190)
    = (inr 2, buffer', EncryptedFS.set_position s 101 file 8192) ∧
    blen buffer' = blen buffer ∧
    (∀ j, 0 <= j < 2 →
          buffer' !! Z.to_nat (0 + j)
          = EncryptedFS.logical_byte Sample.gcm_decrypt (EncryptedFS.encKey s)
              (EncryptedFS.fileId file) d (8190 + j)) ∧
    (∀ i : nat, Z.of_nat i < 0 ∨ 0 + 2 <= Z.of_nat i → buffer' !! i = buffer !! i).
Proof.
  intros s file hfd d buffer.
  assert (EncryptedFS.openFiles s !! 101 = Some file) as Hfile
    by (vm_compute; reflexivity).
  assert (EncryptedFS.destroyed s = false) as Hlive by (vm_compute; reflexivity).
  assert (EncryptedFS.encrypted file = true) as Henc by (vm_compute; reflexivity).
  assert (EncryptedFS.realFd file ≠ -1) as Hreal by (by vm_compute).
  assert (HostFs.fds (EncryptedFS.host s) !! EncryptedFS.realFd file = Some hfd) as Hfd
    by (vm_compute; reflexivity).
  assert (HostFs.fd_read hfd = true) as Hr by (vm_compute; reflexivity).
  assert (HostFs.files (EncryptedFS.host s) !! HostFs.fd_path hfd = Some d) as Hd
    by (vm_compute; reflexivity).
  assert (EncryptedFS.logicalPos_of file (Some 8190) = 8190) as Hpos by reflexivity.
  split; [exact Hfile|]. split; [exact Hlive|]. split; [exact Henc|].
  split; [exact Hreal|]. split; [exact Hfd|]. split; [exact Hr|]. split; [exact Hd|].
  split; [exact sample_fs4_well_formed|]. split; [exact Hpos|].
  exact (read_returns_logical_bytes Sample.gcm_decrypt Sample.ERRNO_CODES
           s 101 file hfd d 1 buffer 0 10 (Some 8190)
           Hfile Hlive Henc Hreal Hfd Hr Hd sample_fs4_well_formed
           ltac:(lia) ltac:(lia) ltac:(by vm_compute) ltac:(by vm_compute)).
Defined.

(** A write of the ten bytes of [patch] at 8190 through descriptor 101 of
    [fs4], opened with ['r+']: it ends in a second page. *)
Lemma write_stores_the_buffer_witness :
  let s := Sample.fs4 in
  let file := Sample.handle s 101 in
  let hfd := Sample.host_fd s 4 in
  let d := Sample.host_get s "/data/f" in
  EncryptedFS.openFiles s !! 101 = Some file ∧
  EncryptedFS.destroyed s = false ∧
  EncryptedFS.encrypted file = true ∧ EncryptedFS.realFd file ≠ -1 ∧
  HostFs.fds (EncryptedFS.host s) !! EncryptedFS.realFd file = Some hfd ∧
  HostFs.fd_read hfd = true ∧ HostFs.fd_write hfd = true ∧
  HostFs.fd_append hfd = false ∧
  HostFs.files (EncryptedFS.host s) !! HostFs.fd_path hfd = Some d ∧
  blen (EncryptedFS.encKey s) = 32 ∧
  EncryptedFS.well_formed_file Sample.gcm_decrypt (EncryptedFS.encKey s)
    (EncryptedFS.fileId file) d 1 ∧
  0 + 10 <= blen Sample.patch ∧
  EncryptedFS.logicalPos_of file (Some 8190) = 8190 ∧
  ∃ s' d',
    Sample.write s 101 Sample.patch 0 10 (Some 8190) = (inr 10, s') ∧
    EncryptedFS.openFiles s'
    = <[101 := EncryptedFS.with_position file 8200]> (EncryptedFS.openFiles s) ∧
    HostFs.files (EncryptedFS.host s')
    = <[HostFs.fd_path hfd := d']> (HostFs.files (EncryptedFS.host s)) ∧
    HostFs.fds (EncryptedFS.host s') = HostFs.fds (EncryptedFS.host s) ∧
    take (Z.to_nat Crypto.FILE_HEADER_SIZE) d' = take (Z.to_nat Crypto.FILE_HEADER_SIZE) d ∧
    EncryptedFS.well_formed_file Sample.gcm_decrypt (EncryptedFS.encKey s)
      (EncryptedFS.fileId file) d' 2 ∧
    (∀ j, 0 <= j < 10 →
          EncryptedFS.logical_byte Sample.gcm_decrypt (EncryptedFS.encKey s)
            (EncryptedFS.fileId file) d' (8190 + j)
          = Sample.patch !! Z.to_nat (0 + j)) ∧
    (∀ q, 0 <= q < 2 * Crypto.PAGE_SIZE →
          q < 8190 ∨ 8190 + 10 <= q →
          EncryptedFS.logical_byte Sample.gcm_decrypt (EncryptedFS.encKey s)
            (EncryptedFS.fileId file) d' q
          = if bool_decide (q < 1 * Crypto.PAGE_SIZE)
            then EncryptedFS.logical_byte Sample.gcm_decrypt (EncryptedFS.encKey s)
                   (EncryptedFS.fileId file) d q
            else Some x00).
Proof.
  intros s file hfd d.
  assert (EncryptedFS.openFiles s !! 101 = Some file) as Hfile
    by (vm_compute; reflexivity).
  assert (EncryptedFS.destroyed s = false) as Hlive by (vm_compute; reflexivity).
  assert (EncryptedFS.encrypted file = true) as Henc by (vm_compute; reflexivity).
  assert (EncryptedFS.realFd file ≠ -1) as Hreal by (by vm_compute).
  assert (HostFs.fds (EncryptedFS.host s) !! EncryptedFS.realFd file = Some hfd) as Hfd
    by (vm_compute; reflexivity).
  assert (HostFs.fd_read hfd = true) as Hr by (vm_compute; reflexivity).
  assert (HostFs.fd_write hfd = true) as Hw by (vm_compute; reflexivity).
  assert (HostFs.fd_append hfd = false) as Happ by (vm_compute; reflexivity).
  assert (HostFs.files (EncryptedFS.host s) !! HostFs.fd_path hfd = Some d) as Hd
    by (vm_compute; reflexivity).
  assert (blen (EncryptedFS.encKey s) = 32) as Hkey by (vm_compute; reflexivity).
  assert (0 + 10 <= blen Sample.patch) as Hbuf by (by vm_compute).
  assert (EncryptedFS.logicalPos_of file (Some 8190) = 8190) as Hpos by reflexivity.
  split; [exact Hfile|]. split; [exact Hlive|]. split; [exact Henc|].
  split; [exact Hreal|]. split; [exact Hfd|]. split; [exact Hr|]. split; [exact Hw|].
  split; [exact Happ|].
  split; [exact Hd|]. split; [exact Hkey|]. split; [exact sample_fs4_well_formed|].
  split; [exact Hbuf|]. split; [exact Hpos|].
  exact (write_stores_the_buffer Sample.gcm_encrypt Sample.gcm_decrypt Sample.randomBytes
           Sample.ERRNO_CODES sample_gcm_lengths sample_random_lengths
           sample_gcm_roundtrip s 101 file hfd d 1 Sample.patch 0 10 (Some 8190)
           Hfile Hlive Henc Hreal Hfd Hw Hd Hkey sample_fs4_well_formed
           ltac:(lia) ltac:(lia) Hbuf ltac:(by vm_compute) ltac:(by vm_compute)
           (or_introl Hr) (or_introl Happ) ltac:(by vm_compute)).
Defined.

(** The ten bytes of [patch] written at 8190 through descriptor 101 of
    [fs4], opened with ['r+'], and read back. *)
Lemma write_then_read_returns_the_data_witness :
  let s := Sample.fs4 in
  let file := Sample.handle s 101 in
  let hfd := Sample.host_fd s 4 in
  let d := Sample.host_get s "/data/f" in
  EncryptedFS.openFiles s !! 101 = Some file ∧
  EncryptedFS.destroyed s = false ∧
  EncryptedFS.encrypted file = true ∧ EncryptedFS.realFd file ≠ -1 ∧
  HostFs.fds (EncryptedFS.host s) !! EncryptedFS.realFd file = Some hfd ∧
  HostFs.fd_read hfd = true ∧ HostFs.fd_write hfd = true ∧
  HostFs.fd_append hfd = false ∧
  HostFs.files (EncryptedFS.host s) !! HostFs.fd_path hfd = Some d ∧
  blen (EncryptedFS.encKey s) = 32 ∧
  EncryptedFS.well_formed_file Sample.gcm_decrypt (EncryptedFS.encKey s)
    (EncryptedFS.fileId file) d 1 ∧
  0 < blen Sample.patch ∧ 8190 / Crypto.PAGE_SIZE <= 1 ∧
  ∃ s1 s2,
    Sample.write s 101 Sample.patch 0 (blen Sample.patch) (Some 8190)
    = (inr (blen Sample.patch), s1) ∧
    Sample.read s1 101 (Buffer_alloc (blen Sample.patch)) 0 (blen Sample.patch) (Some 8190)
    = (inr (blen Sample.patch), Sample.patch, s2).
Proof.
  intros s file hfd d.
  assert (EncryptedFS.openFiles s !! 101 = Some file) as Hfile
    by (vm_compute; reflexivity).
  assert (EncryptedFS.destroyed s = false) as Hlive by (vm_compute; reflexivity).
  assert (EncryptedFS.encrypted file = true) as Henc by (vm_compute; reflexivity).
  assert (EncryptedFS.realFd file ≠ -1) as Hreal by (by vm_compute).
  assert (HostFs.fds (EncryptedFS.host s) !! EncryptedFS.realFd file = Some hfd) as Hfd
    by (vm_compute; reflexivity).
  assert (HostFs.fd_read hfd = true) as Hr by (vm_compute; reflexivity).
  assert (HostFs.fd_write hfd = true) as Hw by (vm_compute; reflexivity).
  assert (HostFs.fd_append hfd = false) as Happ by (vm_compute; reflexivity).
  assert (HostFs.files (EncryptedFS.host s) !! HostFs.fd_path hfd = Some d) as Hd
    by (vm_compute; reflexivity).
  assert (blen (EncryptedFS.encKey s) = 32) as Hkey by (vm_compute; reflexivity).
  assert (0 < blen Sample.patch) as Hlen by (vm_compute; reflexivity).
  assert (8190 / Crypto.PAGE_SIZE <= 1) as Hpage by (by vm_compute).
  split; [exact Hfile|]. split; [exact Hlive|]. split; [exact Henc|].
  split; [exact Hreal|]. split; [exact Hfd|]. split; [exact Hr|]. split; [exact Hw|].
  split; [exact Happ|].
  split; [exact Hd|]. split; [exact Hkey|]. split; [exact sample_fs4_well_formed|].
  split; [exact Hlen|]. split; [exact Hpage|].
  exact (write_then_read_returns_the_data Sample.gcm_encrypt Sample.gcm_decrypt
           Sample.randomBytes Sample.ERRNO_CODES sample_gcm_lengths sample_random_lengths
           sample_gcm_roundtrip s 101 file hfd d 1 Sample.patch 8190
           Hfile Hlive Henc Hreal Hfd Hr Hw Hd Hkey sample_fs4_well_formed
           Hlen ltac:(lia) Hpage (or_introl Happ) ltac:(by vm_compute)).
Defined.

(** [writeFile('/g', patch)] on [fs0], then [open('/g', 'r')] and a read
    of its ten bytes. *)
Lemma writeFile_then_read_returns_the_data_witness :
  let s := Sample.fs0 in
  let full := EncryptedFS.resolvePath s (EncryptedFS.normalizePath s "/g") in
  let s1 := (Sample.writeFile s "/g" Sample.patch None).2 in
  EncryptedFS.destroyed s = false ∧
  blen (EncryptedFS.encKey s) = 32 ∧ blen (EncryptedFS.salt s) = Crypto.SALT_SIZE ∧
  EncryptedFS.shouldEncrypt (EncryptedFS.normalizePath s "/g") = true ∧
  HostFs.dirs (EncryptedFS.host s) !! full = None ∧
  0 <= HostFs.next_fd (EncryptedFS.host s) ∧
  blen Sample.patch <= 4294967296 * Crypto.PAGE_SIZE ∧
  Sample.writeFile s "/g" Sample.patch None = (inr (), s1) ∧
  ∃ d' s2 s3,
    HostFs.files (EncryptedFS.host s1) !! full = Some d' ∧
    blen d' = Crypto.FILE_HEADER_SIZE
              + EncryptedFS.ceil_div (blen Sample.patch) Crypto.PAGE_SIZE
                * Crypto.ENCRYPTED_PAGE_SIZE ∧
    Sample.open s1 "/g" (inr "r"%string) = (inr (EncryptedFS.nextFd s1), s2) ∧
    Sample.read s2 (EncryptedFS.nextFd s1) (Buffer_alloc (blen Sample.patch)) 0
      (blen Sample.patch) (Some 0)
    = (inr (blen Sample.patch), Sample.patch, s3).
Proof.
  intros s full s1.
  assert (EncryptedFS.destroyed s = false) as Hlive by (vm_compute; reflexivity).
  assert (blen (EncryptedFS.encKey s) = 32) as Hkey by (vm_compute; reflexivity).
  assert (blen (EncryptedFS.salt s) = Crypto.SALT_SIZE) as Hsalt
    by (vm_compute; reflexivity).
  assert (EncryptedFS.shouldEncrypt (EncryptedFS.normalizePath s "/g") = true) as Henc
    by (vm_compute; reflexivity).
  assert (HostFs.dirs (EncryptedFS.host s) !! full = None) as Hnodir
    by (vm_compute; reflexivity).
  assert (0 <= HostFs.next_fd (EncryptedFS.host s)) as Hnext by (by vm_compute).
  assert (blen Sample.patch <= 4294967296 * Crypto.PAGE_SIZE) as Hsize
    by (by vm_compute).
  assert (Sample.writeFile s "/g" Sample.patch None = (inr (), s1)) as Hrun
    by (vm_compute; reflexivity).
  split; [exact Hlive|]. split; [exact Hkey|]. split; [exact Hsalt|].
  split; [exact Henc|]. split; [exact Hnodir|]. split; [exact Hnext|].
  split; [exact Hsize|]. split; [exact Hrun|].
  exact (writeFile_then_read_returns_the_data Sample.gcm_encrypt Sample.gcm_decrypt
           Sample.randomBytes Sample.ERRNO_CODES sample_gcm_lengths sample_random_lengths
           sample_gcm_roundtrip s "/g" Sample.patch s1
           Hlive Hkey Hsalt Henc Hnodir Hnext Hsize Hrun).
Defined.

(** [truncate('/f', 10)] on the header-only file of [fs1]: one page, and
    [lstat] reports 8192. *)
Lemma truncate_then_lstat_reports_whole_pages_witness :
  let s := Sample.fs1 in
  let s' := (Sample.truncate s "/f" 10).2 in
  EncryptedFS.normalizePath s "/f" = "/f"%string ∧
  EncryptedFS.shouldEncrypt "/f" = true ∧ 0 <= 10 ∧
  HostFs.dirs (EncryptedFS.host s) !! EncryptedFS.resolvePath s "/f" = None ∧
  Sample.truncate s "/f" 10 = (inr (), s') ∧
  Sample.lstat s' "/f"
  = inr {| EncryptedFS.size := EncryptedFS.ceil_div 10 Crypto.PAGE_SIZE * Crypto.PAGE_SIZE |} ∧
  10 <= EncryptedFS.ceil_div 10 Crypto.PAGE_SIZE * Crypto.PAGE_SIZE < 10 + Crypto.PAGE_SIZE.
Proof.
  intros s s'.
  assert (EncryptedFS.normalizePath s "/f" = "/f"%string) as Hnorm
    by (vm_compute; reflexivity).
  assert (EncryptedFS.shouldEncrypt "/f" = true) as Henc by (vm_compute; reflexivity).
  assert (HostFs.dirs (EncryptedFS.host s) !! EncryptedFS.resolvePath s "/f" = None)
    as Hnodir by (vm_compute; reflexivity).
  assert (Sample.truncate s "/f" 10 = (inr (), s')) as Hrun by (vm_compute; reflexivity).
  split; [exact Hnorm|]. split; [exact Henc|]. split; [lia|]. split; [exact Hnodir|].
  split; [exact Hrun|].
  exact (truncate_then_lstat_reports_whole_pages Sample.gcm_encrypt Sample.randomBytes
           Sample.ERRNO_CODES sample_gcm_lengths sample_random_lengths s "/f" 10 s'
           Hnorm Henc ltac:(lia) Hnodir Hrun).
Defined.

(** [truncate('/f', 8193)] on the one-page file of [fs4]: a second page of
    zeros. *)
Lemma truncate_keeps_bytes_and_adds_zeros_witness :
  let s := Sample.fs4 in
  let s' := (Sample.truncate s "/f" 8193).2 in
  let d := Sample.host_get s "/data/f" in
  let fid := subarray d Crypto.SALT_SIZE Crypto.FILE_HEADER_SIZE in
  EncryptedFS.shouldEncrypt "/f" = true ∧ 0 <= 8193 ∧
  HostFs.dirs (EncryptedFS.host s) !! EncryptedFS.resolvePath s "/f" = None ∧
  blen (EncryptedFS.encKey s) = 32 ∧
  HostFs.files (EncryptedFS.host s) !! EncryptedFS.resolvePath s "/f" = Some d ∧
  EncryptedFS.well_formed_file Sample.gcm_decrypt (EncryptedFS.encKey s) fid d 1 ∧
  Sample.truncate s "/f" 8193 = (inr (), s') ∧
  ∃ d',
    HostFs.files (EncryptedFS.host s') !! EncryptedFS.resolvePath s "/f" = Some d' ∧
    take (Z.to_nat Crypto.FILE_HEADER_SIZE) d' = take (Z.to_nat Crypto.FILE_HEADER_SIZE) d ∧
    EncryptedFS.well_formed_file Sample.gcm_decrypt (EncryptedFS.encKey s) fid d'
      (EncryptedFS.ceil_div 8193 Crypto.PAGE_SIZE) ∧
    ∀ q, 0 <= q < EncryptedFS.ceil_div 8193 Crypto.PAGE_SIZE * Crypto.PAGE_SIZE →
         EncryptedFS.logical_byte Sample.gcm_decrypt (EncryptedFS.encKey s) fid d' q
         = if bool_decide (q < 1 * Crypto.PAGE_SIZE)
           then EncryptedFS.logical_byte Sample.gcm_decrypt (EncryptedFS.encKey s) fid d q
           else Some x00.
Proof.
  intros s s' d fid.
  assert (EncryptedFS.shouldEncrypt "/f" = true) as Henc by (vm_compute; reflexivity).
  assert (HostFs.dirs (EncryptedFS.host s) !! EncryptedFS.resolvePath s "/f" = None)
    as Hnodir by (vm_compute; reflexivity).
  assert (blen (EncryptedFS.encKey s) = 32) as Hkey by (vm_compute; reflexivity).
  assert (HostFs.files (EncryptedFS.host s) !! EncryptedFS.resolvePath s "/f" = Some d)
    as Hd by (vm_compute; reflexivity).
  assert (EncryptedFS.well_formed_file Sample.gcm_decrypt (EncryptedFS.encKey s) fid d 1)
    as Hwf.
  { split; [lia|]. split; [vm_compute; reflexivity|].
    intros i Hi. assert (i = 0) as -> by lia.
    exists (Buffer_fill Crypto.PAGE_SIZE xff). split; vm_compute; reflexivity. }
  assert (Sample.truncate s "/f" 8193 = (inr (), s')) as Hrun
    by (vm_compute; reflexivity).
  split; [exact Henc|]. split; [lia|]. split; [exact Hnodir|]. split; [exact Hkey|].
  split; [exact Hd|]. split; [exact Hwf|]. split; [exact Hrun|].
  exact (truncate_keeps_bytes_and_adds_zeros Sample.gcm_encrypt Sample.gcm_decrypt
           Sample.randomBytes Sample.ERRNO_CODES sample_gcm_lengths sample_random_lengths
           sample_gcm_roundtrip s "/f" 8193 s' d 1
           Henc ltac:(lia) Hnodir Hkey Hd Hwf Hrun).
Defined.

(** The constructor on [host0], and again on the host it left. *)
Lemma constructor_accepts_its_own_token_witness :
  let s := Sample.fs0 in
  blen Sample.key1 = 32 ∧
  Sample.constructor Sample.host0 0 "/data" Sample.key1 Sample.salt1 = inr s ∧
  (∃ token,
     HostFs.files (EncryptedFS.host s) !! Path.join "/data" ".encryption-verify"
     = Some token ∧
     blen token = Crypto.ENCRYPTED_PAGE_SIZE) ∧
  (∀ p, p ≠ Path.join "/data" ".encryption-verify" →
        HostFs.files (EncryptedFS.host s) !! p = HostFs.files Sample.host0 !! p) ∧
  ∀ r' slt',
    Sample.constructor (EncryptedFS.host s) r' "/data" Sample.key1 slt'
    = inr {| EncryptedFS.dataDir := "/data"; EncryptedFS.encKey := Sample.key1;
             EncryptedFS.salt := slt'; EncryptedFS.openFiles := ∅;
             EncryptedFS.cwd := "/"; EncryptedFS.nextFd := 100;
             EncryptedFS.destroyed := false; EncryptedFS.host := EncryptedFS.host s;
             EncryptedFS.rng := r' |}.
Proof.
  intros s.
  assert (blen Sample.key1 = 32) as Hkey by reflexivity.
  assert (Sample.constructor Sample.host0 0 "/data" Sample.key1 Sample.salt1 = inr s)
    as Hnew by (vm_compute; reflexivity).
  split; [exact Hkey|]. split; [exact Hnew|].
  exact (constructor_accepts_its_own_token Sample.gcm_encrypt Sample.gcm_decrypt
           Sample.randomBytes Sample.sha256 sample_gcm_lengths sample_gcm_roundtrip
           sample_random_lengths Sample.host0 0 "/data" Sample.key1 Sample.salt1 s
           Hkey Hnew).
Defined.

(** The host on the two paths that the model singles out.  Through an
    ['a+'] descriptor on the one-page file of [fs3], a write of ten bytes at
    position 100 is appended: the file grows by a page and a read at 100
    through the same handle still returns the old bytes.  Below the regular
    file [/f], [lstat] throws the host's ENOTDIR on, [access] returns -1 and
    [open] creates nothing. *)
Example append_descriptor_and_path_below_a_file :
  let s := (Sample.open Sample.fs3 "/f" (inr "a+"%string)).2 in
  let s' := (Sample.write s 101 Sample.patch 0 10 (Some 100)).2 in
  HostFs.fd_append (Sample.host_fd s 4) = true ∧
  blen (Sample.host_get s "/data/f") = 8268 ∧
  (Sample.write s 101 Sample.patch 0 10 (Some 100)).1 = inr 10 ∧
  blen (Sample.host_get s' "/data/f") = 8268 + Crypto.ENCRYPTED_PAGE_SIZE ∧
  (let '(res, buffer, _) := Sample.read s' 101 (Buffer_alloc 10) 0 10 (Some 100) in
   (res, buffer)) = (inr 10, replicate 10 xff) ∧
  HostFs.below_file (EncryptedFS.host Sample.fs3) "/data/f/x" = true ∧
  Sample.lstat Sample.fs3 "/f/x" = inl (HostFs.sys_error "ENOTDIR" "lstat") ∧
  EncryptedFS.access Sample.ERRNO_CODES Sample.fs3 "/f/x" 0 = -1 ∧
  (∃ e, (Sample.open Sample.fs3 "/f/x" (inr "w"%string)).1 = inl e ∧
        option_map code (cause e) = Some (Some "ENOTDIR"%string)) ∧
  HostFs.files (EncryptedFS.host (Sample.open Sample.fs3 "/f/x" (inr "w"%string)).2)
  = HostFs.files (EncryptedFS.host Sample.fs3).
Proof.
  intros s s'.
  repeat (apply conj); try (vm_compute; reflexivity).
  eexists. split; vm_compute; reflexivity.
Qed.
